(* ===== verification/_CoqProject ===== *)
-Q . S2P
Prelude.v
Tea.v
TextInput.v
Form.v
FormInv.v
FormNav.v
FormEdit.v
FormSpec.v
Utf8.v
View.v
Store.v
Json.v
Quote.v
Rfc3339.v
JsonTask.v
StoreProps.v
StoreRace.v
Program.v
