(* ===== verification/Prelude.v ===== *)
(** * lmb.pad: a verified model of the task-entry form

    The program ([src/main.go]) is a terminal form built on the Bubble Tea
    runtime.  It shows six text fields and two buttons, lets the user move
    the focus between them, edit the focused field, cycle the cursor style,
    and leave with a quit key or by pressing enter on Submit.  Beside the
    form the file defines [createTask], which appends a task to the JSON
    array stored in [db/tasks.json]; [main] runs the form and does not
    call [createTask] (the call is commented out).

    ** Files, in dependency order

    - [Prelude] (this file): the result type, the state-and-error monad
      [io] with its notation scope [io_scope], the tactics and the hint
      database [go] shared by all files, and lemmas on lists, iteration,
      indices and bit operations.
    - [Tea]: what the form uses of the Bubble Tea runtime, from its
      documented behaviour: Go's [int] with its wrap-around, runes and
      their UTF-8 text, keys and their names ([Key_String]), messages,
      commands and [tea_Batch].
    - [TextInput]: what the form uses of the widget libraries: styles, the
      cursor with its three modes, and the text input with focus, blur,
      character limit and editing.
    - [Form]: the form itself, definitions only: the style variables, the
      record [model], [initialModel], [Init], [Update] with one definition
      per branch of its switch, [updateInputs]; the invariant [wf_model]
      and the models the program can reach ([reachable]).
    - [FormInv]: every branch of [Update] preserves [wf_model], and so
      every reachable model is well-formed.
    - [FormNav]: navigation, cursor modes and quitting.
    - [FormEdit]: editing and character limits.
    - [FormSpec]: the state machine of the specification ([a_step]), the
      abstraction function [abs] and the proof that [Update] refines the
      machine.
    - [Utf8]: UTF-8 decoding ([DecodeRune]) and encoding on texts, and the
      coercion that replaces the bytes that are not UTF-8.
    - [View]: the four button variables and [View], as lists of styled
      pieces of text.
    - [Store]: the records [Task] and [ToDo], a one-file file system, the
      interface [Codec] of the JSON encoder, and [createTask] translated
      statement by statement into the [io] monad.
    - [Json]: JSON values, their printer and their parser.
    - [Quote]: the escaping and unquoting of JSON strings.
    - [Rfc3339]: the text of a time and its strict parser.
    - [JsonTask]: encoding and decoding at the type of a slice of task
      pointers under the json tags of [Task]; the instance [json_codec] of
      [Codec].
    - [StoreProps]: the behaviour of [createTask] on every branch, proved
      against the interface [Codec]; the witnesses use [json_codec].
    - [StoreRace]: [createTask] cut at its calls of the operating system
      ([pc], [step1]), with [os.WriteFile] as the two calls it is made
      of; two runs on one file as a step relation ([step]) and as a
      schedule ([exec]).
    - [Program]: the event loop of the runtime ([Program_Run]), [main],
      and the machine of the specification run over the messages
      ([a_run]).

    ** How state and effects are modelled

    Go values are modelled by Rocq values of the same shape: [int] and the
    integer-valued cursor mode are [Z] with the 64-bit wrap-around of
    [++] and [--] written out ([int_inc], [int_dec]); slices are lists
    indexed with stdpp's lookup, a slice that may be [nil] is an optional
    list and a pointer that may be [nil] an optional value; strings are
    [string], and [list ascii] where bytes are inspected; structs are
    records.  [Update] has a value receiver and returns the new model, so
    it is a function from a model and a message to a model and a command.
    The slice [m.inputs] shares its array between the old and the new
    model; the runtime drops the old model as soon as [Update] returns,
    so the model is passed as a value.  [createTask] reads and writes one
    file: the file system is a record with the directory flag and the
    optional file, threaded through the [io] monad, in which [log.Fatal]
    is the error result and the state reached so far is kept.  In [Store]
    a call of the operating system is one step, and [os.WriteFile] fails
    only before it touches the file; [StoreRace] cuts [createTask] at its
    calls, splits [os.WriteFile] into the truncation and the write, and
    lets a second run move between any two calls.  A panic is the result
    [None] ([View]).  A run of the program is a function of the list of
    its events.

    The libraries the program calls (Bubble Tea, Bubbles, Lip Gloss, [os],
    [encoding/json], [time], [unicode/utf8]) are not part of the
    repository; what the program uses of them is modelled from their
    documented behaviour.

    ** What the theorems show

    - [FormInv]: every message preserves [wf_model] (focus index within
      [0, N+1], cursor mode within the three modes, exactly the field under
      the focus index focused and styled as focused, every value within its
      character limit, every cursor in the model's mode), so the integer
      operations never wrap.
    - [FormNav]: [N+2] forward moves return to the start; backward from 0
      lands on Submit; the cursor mode has period three; the program is
      asked to quit exactly by the quit keys and by enter on Submit, which
      leave the model as it is; enter elsewhere moves like tab, also on
      Cancel.
    - [FormEdit]: keys that are not commands reach the focused field only;
      typing inserts at the caret and is dropped at the limit; the fields
      keep their limits of 32 and 64 runes.
    - [FormSpec]: [Update] implements the machine of the specification on
      every message except enter on Cancel, where it wraps; the model it
      returns is the concretisation of the machine's state, styles, focus
      flags and cursors included.
    - [View]: [View] panics in no reachable model; the buttons are drawn
      focused exactly under the focus index.
    - [Utf8], [Json], [Quote], [Rfc3339], [JsonTask]: decoding what was
      encoded gives the tasks back, with stray bytes replaced; the parser
      reads what the printer writes; what decoding yields is well-formed
      and encodes again.
    - [StoreProps]: on a usable, decodable file [createTask] leaves the
      old tasks followed by the new one; an absent file counts as empty;
      every failure is characterised and loses nothing that was stored;
      success is never reported without the append.
    - [StoreRace]: a run left alone is [createTask] of [Store]
      ([run_alone_createTask]) and ends within five calls; runs that do
      not overlap are calls one after the other; two runs that overlap
      never fail, whatever the interleaving, and yet can lose a task
      ([lost_update]), lose all tasks when stopped between the two calls
      of [os.WriteFile], or leave a file that holds no document
      ([torn_write]).
    - [Program]: the run of the form never fails on a terminal, ends only
      by a quit key or enter, can always be ended, and follows the machine
      of the specification message by message; no run of [main] changes
      the file, so the commit of the specification never happens.

    ** Bounds and fuel

    A run of [createTask] makes at most five calls ([rank]), so five
    steps end a run and a schedule that gives each of two runs five turns
    ends both ([exec_ends]).

    Three functions recurse on fuel because their recursion is not
    structural: [chunks] of [Utf8] (fuel: the length of the text, each
    step consumes at least one byte), [unquote] of [Quote] (fuel: the
    length plus one, for the same reason) and [parse] of [Json] (fuel:
    twice the length plus one; every call consumes a byte or is followed by
    one that does).  [parse] tells running out of fuel from a malformed
    text, and [parse_total] shows that it never runs out; the lemmas
    [chunks_fuel_enough] and [unquote_fuel_enough] show the same for the
    other two.  Everything else is structurally recursive or a
    composition of list operations.

    ** Not modelled

    The escape sequences that styles produce on a terminal; the blink
    timer of the cursor (its messages are messages of no interest to the
    form) and the commands other than quit; the word-wise editing keys,
    echo modes and suggestions of the text input; the lenient forms of a
    time that [time.Parse] accepts beyond RFC 3339; a write that fails
    or stops part of the way through its data, and more than two runs of
    [createTask] at once. *)

From Stdlib Require Export ZArith Lia.
From stdpp Require Export prelude strings.

(** ** Results and the state-and-error monad *)

(** The outcome of a fallible call: the Go idiom [v, err := f()]. *)
Inductive result (E A : Type) : Type :=
  | Ok (a : A)
  | Err (e : E).
Arguments Ok {E A} a.
Arguments Err {E A} e.

Definition is_ok {E A} (r : result E A) : bool :=
  match r with Ok _ => true | Err _ => false end.

Definition result_to_option {E A} (r : result E A) : option A :=
  match r with Ok a => Some a | Err _ => None end.

#[export] Instance result_eq_dec {E A} `{EqDecision E, EqDecision A} :
  EqDecision (result E A).
Proof. solve_decision. Defined.

(** A computation over a state [S] that may stop with an error [E].  The
    state reached when the error occurred is kept: a fatal exit does not
    undo the writes made before it. *)
Definition io (S E A : Type) : Type := S → S * result E A.

Definition io_ret {S E A} (a : A) : io S E A := λ s, (s, Ok a).

Definition io_bind {S E A B} (c : io S E A) (k : A → io S E B) : io S E B :=
  λ s, match c s with
       | (s', Ok a) => k a s'
       | (s', Err e) => (s', Err e)
       end.

Definition io_fail {S E A} (e : E) : io S E A := λ s, (s, Err e).

(** Lifting a call whose error the caller inspects itself. *)
Definition io_try {S E A} (c : S → S * result E A) : io S E (result E A) :=
  λ s, let '(s', r) := c s in (s', Ok r).

Declare Scope io_scope.
Delimit Scope io_scope with io.
Notation "'let*' x ':=' c 'in' k" := (io_bind c (λ x, k))
  (at level 100, x pattern, c at next level, k at level 200) : io_scope.

(** ** Tactics *)

(** Invert a hypothesis and substitute what it yields. *)
Ltac invert H := inversion H; subst; clear H.

(** Split on every [decide], boolean test and [match] left in the goal. *)
Ltac case_guards :=
  repeat first
    [ progress simplify_eq/=
    | case_decide
    | case_bool_decide
    | case_match ].

(** Settle a closed decidable proposition by evaluation. *)
Ltac by_compute := apply (bool_decide_unpack _); vm_compute; exact I.

(** Linear arithmetic with division and remainder by constants. *)
Ltac div_lia := Z.to_euclidean_division_equations; lia.

Create HintDb go discriminated.
Create Rewrite HintDb go.

(** ** Lemmas on the monad *)

Section io_laws.
Context {S E : Type}.

Lemma io_bind_ret_l {A B} (a : A) (k : A → io S E B) s :
  io_bind (io_ret a) k s = k a s.
Proof. done. Qed.

Lemma io_bind_fail {A B} (e : E) (k : A → io S E B) s :
  io_bind (io_fail e) k s = (s, Err e).
Proof. done. Qed.

Lemma io_bind_ok {A B} (c : io S E A) (k : A → io S E B) s s' a :
  c s = (s', Ok a) → io_bind c k s = k a s'.
Proof. unfold io_bind. by intros ->. Qed.

Lemma io_bind_err {A B} (c : io S E A) (k : A → io S E B) s s' e :
  c s = (s', Err e) → io_bind c k s = (s', Err e).
Proof. unfold io_bind. by intros ->. Qed.

Lemma io_bind_assoc {A B C} (c : io S E A) (k : A → io S E B)
    (h : B → io S E C) s :
  io_bind (io_bind c k) h s = io_bind c (λ a, io_bind (k a) h) s.
Proof. unfold io_bind. by destruct (c s) as [? []]. Qed.
End io_laws.

#[export] Hint Rewrite @io_bind_ret_l @io_bind_fail : go.

(** ** Lemmas on lists, iteration and indices *)

Section lists.
Context {A : Type}.
Implicit Types (l : list A) (f : nat → A → A).

(** A loop over the indices that leaves every element as it is leaves
    the list as it is. *)
Lemma imap_id_ext f l :
  (∀ i x, l !! i = Some x → f i x = x) → imap f l = l.
Proof.
  intros Hf. apply list_eq. intros i. rewrite list_lookup_imap.
  destruct (l !! i) eqn:Hi; simpl; [by rewrite (Hf _ _ Hi)|done].
Qed.

Lemma Forall_imap (P : A → Prop) f l :
  (∀ i x, l !! i = Some x → P (f i x)) → Forall P (imap f l).
Proof.
  intros Hf. apply Forall_lookup. intros i y.
  rewrite list_lookup_imap_Some. intros (x & Hx & ->). eauto.
Qed.

Lemma Forall_fmap_same (P : A → Prop) (g : A → A) l :
  (∀ x, P (g x)) → Forall P (g <$> l).
Proof. intros Hg. apply Forall_fmap, Forall_true. exact Hg. Qed.

(** Two loops over the same list compose into one. *)
Lemma imap_imap f (g : nat → A → A) l :
  imap f (imap g l) = imap (λ i x, f i (g i x)) l.
Proof.
  apply list_eq. intros i. rewrite !list_lookup_imap.
  by destruct (l !! i).
Qed.
End lists.

#[export] Hint Rewrite @length_imap @length_fmap @length_insert
  @length_app @length_replicate : go.

Section iteration.
Context {A : Type}.

Lemma iter_add (f : A → A) (n m : nat) (x : A) :
  Nat.iter (n + m) f x = Nat.iter n f (Nat.iter m f x).
Proof. induction n as [|n IH]; simpl; [done|by rewrite IH]. Qed.

Lemma iter_invariant (P : A → Prop) (f : A → A) (n : nat) (x : A) :
  (∀ y, P y → P (f y)) → P x → P (Nat.iter n f x).
Proof. intros Hf Hx. induction n; simpl; auto. Qed.
End iteration.

(** A slice index held in a Go [int] against the [nat] position of a
    list. *)
Lemma Z_of_nat_index_lt (i : nat) (n : nat) :
  i < n ↔ (0 ≤ Z.of_nat i < Z.of_nat n)%Z.
Proof. lia. Qed.

Lemma Z_to_nat_index (z : Z) (i : nat) :
  (0 ≤ z)%Z → Z.of_nat i = z ↔ i = Z.to_nat z.
Proof. lia. Qed.

(** ** Lemmas on strings and ranges *)

Local Open Scope Z_scope.

Lemma string_app_nil_r (s : string) : s +:+ "" = s.
Proof.
  induction s as [|a s IH]; [done|].
  change (String a s +:+ "") with (String a (s +:+ "")). by rewrite IH.
Qed.

(** A property of the integers below [n], settled by running through
    them. *)
Lemma Z_range_forall (P : Z → Prop) `{∀ x, Decision (P x)} (n : Z) :
  bool_decide (Forall P (seqZ 0 n)) = true → ∀ x, 0 ≤ x < n → P x.
Proof.
  intros Hall x Hx. apply bool_decide_eq_true_1 in Hall.
  rewrite Forall_seqZ in Hall. apply Hall. lia.
Qed.

(** ** Bit operations as arithmetic *)

(** Bits that do not overlap add up. *)
Lemma Z_lor_add (k y n : Z) :
  0 ≤ n → 0 ≤ y < 2 ^ n → Z.lor (k * 2 ^ n) y = k * 2 ^ n + y.
Proof.
  intros Hn Hy.
  assert (Z.land (k * 2 ^ n) y = 0) as Hd.
  { apply Z.bits_inj'. intros i Hi. rewrite Z.land_spec, Z.bits_0.
    destruct (decide (i < n)).
    - by rewrite Z.mul_pow2_bits_low.
    - rewrite <- (Z.mod_small y (2 ^ n)) by done.
      rewrite Z.mod_pow2_bits_high by lia. apply andb_false_r. }
  by rewrite <- Z.lxor_lor, <- Z.add_nocarry_lxor.
Qed.

Lemma Z_lor_disjoint (x y n : Z) :
  0 ≤ n → 0 ≤ y < 2 ^ n → x mod 2 ^ n = 0 → Z.lor x y = x + y.
Proof.
  intros Hn Hy Hx. rewrite (Z.div_mod x (2 ^ n)) by lia.
  rewrite Hx, Z.add_0_r, (Z.mul_comm (2 ^ n)). by apply Z_lor_add.
Qed.

(** Masking the low bits is the remainder. *)
Lemma Z_land_low (x n : Z) : 0 ≤ n → Z.land x (2 ^ n - 1) = x mod 2 ^ n.
Proof.
  intros Hn. rewrite <- Z.land_ones by done. by rewrite Z.ones_equiv, Z.sub_1_r.
Qed.

(** ** Counting the elements singled out by their index *)

Section filter_index.
Context {A : Type} (P : A → Prop) `{∀ x, Decision (P x)}.

Lemma filter_none (l : list A) :
  (∀ i x, l !! i = Some x → ¬ P x) → filter P l = [].
Proof.
  intros Hl. induction l as [|x l IH]; [done|].
  rewrite filter_cons_False by (by apply (Hl 0%nat)).
  apply IH. intros i y Hy. by apply (Hl (S i)).
Qed.

(** When exactly the element at index [j] satisfies [P], the filter keeps
    one element if [j] is an index of the list and none otherwise. *)
Lemma filter_indexed_unique (l : list A) (j : nat) :
  (∀ i x, l !! i = Some x → P x ↔ i = j) →
  length (filter P l) = if decide (j < length l)%nat then 1%nat else 0%nat.
Proof.
  revert j. induction l as [|x l IH]; intros j Hl.
  { case_decide; [simpl in *; lia|done]. }
  destruct j as [|j].
  - rewrite filter_cons_True by (by apply (Hl 0%nat)).
    rewrite filter_none; [case_decide; [done|simpl in *; lia]|].
    intros i y Hy HP. by apply (Hl (S i)) in HP.
  - rewrite filter_cons_False by (intros HP; by apply (Hl 0%nat) in HP).
    rewrite (IH j).
    + simpl. repeat case_decide; lia.
    + intros i y Hy. rewrite (Hl (S i) y Hy). lia.
Qed.
End filter_index.
