(* ===== verification/Tea.v ===== *)
(** * Tea: the part of the Bubble Tea runtime the form relies on

    The form receives messages and answers with commands.  This file models
    the few notions of the runtime that [main.go] names: key messages and
    the text [msg.String()] gives for them, the quit command and
    [tea.Batch].  The library is not part of the repository; the
    definitions follow its documented behaviour.

    A Go [int] is a 64-bit two's-complement integer; [int_wrap] brings an
    exact result back into that range, so that [int_inc] and [int_dec] are
    the [++] and [--] of the source. *)

From S2P Require Import Prelude.

Local Open Scope Z_scope.

(** ** Machine integers *)

Definition int_min : Z := - 2 ^ 63.
Definition int_max : Z := 2 ^ 63 - 1.

Definition int_wrap (z : Z) : Z := (z + 2 ^ 63) mod 2 ^ 64 - 2 ^ 63.

Definition int_inc (z : Z) : Z := int_wrap (z + 1).
Definition int_dec (z : Z) : Z := int_wrap (z - 1).

(** [len(s)] of a slice, as an [int]. *)
Definition len {A} (l : list A) : Z := Z.of_nat (length l).

(** ** Runes and their UTF-8 text *)

(** A rune is a code point held in an [int32]. *)
Definition rune : Type := Z.

Definition byte_of_Z (z : Z) : Ascii.ascii :=
  Ascii.ascii_of_N (Z.to_N (z mod 256)).

(** The replacement character U+FFFD, which Go substitutes for a value
    that is not a code point. *)
Definition utf8_replacement : string :=
  String (byte_of_Z 239) (String (byte_of_Z 191) (String (byte_of_Z 189) "")).

(** [string(r)]: the UTF-8 encoding of one rune. *)
Definition utf8_of_rune (r : rune) : string :=
  if r <? 0 then utf8_replacement
  else if r <? 128 then String (byte_of_Z r) ""
  else if r <? 2048 then
    String (byte_of_Z (Z.lor 192 (Z.shiftr r 6)))
      (String (byte_of_Z (Z.lor 128 (Z.land r 63))) "")
  else if (55296 <=? r) && (r <=? 57343) then utf8_replacement
  else if r <? 65536 then
    String (byte_of_Z (Z.lor 224 (Z.shiftr r 12)))
      (String (byte_of_Z (Z.lor 128 (Z.land (Z.shiftr r 6) 63)))
         (String (byte_of_Z (Z.lor 128 (Z.land r 63))) ""))
  else if r <=? 1114111 then
    String (byte_of_Z (Z.lor 240 (Z.shiftr r 18)))
      (String (byte_of_Z (Z.lor 128 (Z.land (Z.shiftr r 12) 63)))
         (String (byte_of_Z (Z.lor 128 (Z.land (Z.shiftr r 6) 63)))
            (String (byte_of_Z (Z.lor 128 (Z.land r 63))) "")))
  else utf8_replacement.

(** [string(rs)] for a slice of runes. *)
Definition string_of_runes (rs : list rune) : string :=
  foldr (λ r acc, utf8_of_rune r +:+ acc) "" rs.

(** ** Keys and messages *)

(** The kinds of key the form or its text inputs distinguish.  [KeyRunes]
    carries typed characters; the others are named keys. *)
Inductive KeyType : Type :=
  | KeyRunes
  | KeyCtrlC | KeyEsc | KeyCtrlR
  | KeyTab | KeyShiftTab | KeyEnter
  | KeyUp | KeyDown | KeyLeft | KeyRight
  | KeyBackspace | KeyDelete | KeyHome | KeyEnd.

#[export] Instance KeyType_eq_dec : EqDecision KeyType.
Proof. solve_decision. Defined.

Record Key : Type := mkKey {
  Key_Type : KeyType;
  Key_Runes : list rune;
  Key_Alt : bool;
}.

#[export] Instance Key_eq_dec : EqDecision Key.
Proof. solve_decision. Defined.

(** The name of a key that is not made of runes. *)
Definition KeyType_String (t : KeyType) : string :=
  match t with
  | KeyRunes => ""
  | KeyCtrlC => "ctrl+c"
  | KeyEsc => "esc"
  | KeyCtrlR => "ctrl+r"
  | KeyTab => "tab"
  | KeyShiftTab => "shift+tab"
  | KeyEnter => "enter"
  | KeyUp => "up"
  | KeyDown => "down"
  | KeyLeft => "left"
  | KeyRight => "right"
  | KeyBackspace => "backspace"
  | KeyDelete => "delete"
  | KeyHome => "home"
  | KeyEnd => "end"
  end.

(** [k.String()]: an optional ["alt+"] prefix, then the typed runes or the
    name of the key. *)
Definition Key_String (k : Key) : string :=
  (if Key_Alt k then "alt+" else "") +:+
  (match Key_Type k with
   | KeyRunes => string_of_runes (Key_Runes k)
   | t => KeyType_String t
   end).

(** A message is a key press or something else (a window size, a timer
    tick); the form only tells key messages apart. *)
Inductive Msg : Type :=
  | KeyMsg (k : Key)
  | OtherMsg.

#[export] Instance Msg_eq_dec : EqDecision Msg.
Proof. solve_decision. Defined.

(** A named key pressed without modifier. *)
Definition key (t : KeyType) : Msg := KeyMsg (mkKey t [] false).

(** Characters typed without modifier. *)
Definition typed (rs : list rune) : Msg := KeyMsg (mkKey KeyRunes rs false).

(** ** Commands *)

(** What [Update] hands back to the runtime: nothing ([nil]), the request
    to quit, the request to start the cursor's blink timer, or several
    commands at once. *)
#[warnings="-register-all"]
Inductive Cmd : Type :=
  | CmdNil
  | CmdQuit
  | CmdBlink
  | CmdBatch (cs : list Cmd).

Definition tea_Quit : Cmd := CmdQuit.

Definition is_nil (c : Cmd) : bool :=
  match c with CmdNil => true | _ => false end.

(** [tea.Batch(cmds...)]: drop the [nil] commands; none left is [nil], one
    left is that command, several are run together. *)
Definition tea_Batch (cmds : list Cmd) : Cmd :=
  match filter (λ c, is_nil c = false) cmds with
  | [] => CmdNil
  | [c] => c
  | cs => CmdBatch cs
  end.

(** Whether running the command ends the program. *)
Fixpoint cmd_quits (c : Cmd) : bool :=
  match c with
  | CmdQuit => true
  | CmdBatch cs => existsb cmd_quits cs
  | _ => false
  end.

(** Whether the first byte of a string has its top bit set. *)
Definition high_lead (s : string) : bool :=
  match s with
  | String a _ => bool_decide (128 ≤ Z.of_N (Ascii.N_of_ascii a))
  | EmptyString => false
  end.

(** ** Lemmas *)

Lemma int_wrap_small z : int_min ≤ z ≤ int_max → int_wrap z = z.
Proof.
  unfold int_wrap, int_min, int_max. intros Hz.
  rewrite Z.mod_small; lia.
Qed.

Lemma int_wrap_range z : int_min ≤ int_wrap z ≤ int_max.
Proof.
  unfold int_wrap, int_min, int_max.
  pose proof (Z.mod_pos_bound (z + 2 ^ 63) (2 ^ 64)). lia.
Qed.

Lemma int_inc_small z : int_min ≤ z < int_max → int_inc z = z + 1.
Proof. intros Hz. apply int_wrap_small. lia. Qed.

Lemma int_dec_small z : int_min < z ≤ int_max → int_dec z = z - 1.
Proof. intros Hz. apply int_wrap_small. lia. Qed.

Lemma len_nonneg {A} (l : list A) : 0 ≤ len l.
Proof. unfold len. lia. Qed.

Lemma len_fmap {A B} (f : A → B) l : len (f <$> l) = len l.
Proof. unfold len. by rewrite length_fmap. Qed.

Lemma len_imap {A B} (f : nat → A → B) l : len (imap f l) = len l.
Proof. unfold len. by rewrite length_imap. Qed.

#[export] Hint Rewrite @len_fmap @len_imap : go.
#[export] Hint Resolve len_nonneg : go.

(** The name of a key pressed without modifier is the name of its kind. *)
Lemma Key_String_key t : t ≠ KeyRunes → Key_String (mkKey t [] false) = KeyType_String t.
Proof. by destruct t. Qed.

(** Distinct named keys have distinct names. *)
Lemma KeyType_String_inj t1 t2 :
  KeyType_String t1 = KeyType_String t2 → t1 = t2.
Proof. by destruct t1, t2. Qed.

Lemma tea_Batch_nil_all cmds :
  Forall (λ c, c = CmdNil) cmds → tea_Batch cmds = CmdNil.
Proof.
  intros H. unfold tea_Batch.
  replace (filter _ cmds) with (@nil Cmd); [done|].
  induction H as [|c cs -> _ IH]; [done|]. by rewrite filter_cons_False.
Qed.

(** A batch quits exactly when one of its commands does. *)
Lemma cmd_quits_Batch cmds :
  cmd_quits (tea_Batch cmds) = existsb cmd_quits cmds.
Proof.
  unfold tea_Batch.
  assert (existsb cmd_quits cmds
          = existsb cmd_quits (filter (λ c, is_nil c = false) cmds)) as ->.
  { induction cmds as [|c cs IH]; [done|].
    rewrite filter_cons. destruct (decide (is_nil c = false)) as [Hc|Hc].
    - simpl. by rewrite IH.
    - by destruct c. }
  destruct (filter _ cmds) as [|c [|c' cs]]; simpl; [done| |done].
  by rewrite orb_false_r.
Qed.

(** ** Typed runes against key names *)

Lemma lead_byte_high (a n x : Z) :
  bool_decide (Forall (λ x, 128 ≤ Z.of_N (Ascii.N_of_ascii (byte_of_Z (Z.lor a x))))
                 (seqZ 0 n)) = true →
  0 ≤ x < n → ∀ s, high_lead (String (byte_of_Z (Z.lor a x)) s) = true.
Proof.
  intros H Hx s. simpl. apply bool_decide_eq_true_2.
  exact (Z_range_forall
           (λ x, 128 ≤ Z.of_N (Ascii.N_of_ascii (byte_of_Z (Z.lor a x)))) n H x Hx).
Qed.

(** The text of one rune is a single byte, or starts with a byte that has
    its top bit set. *)
Lemma utf8_of_rune_shape (r : rune) :
  String.length (utf8_of_rune r) = 1%nat ∨ high_lead (utf8_of_rune r) = true.
Proof.
  unfold utf8_of_rune.
  destruct (r <? 0) eqn:H0; [by right|]. apply Z.ltb_ge in H0.
  destruct (r <? 128) eqn:H1; [by left|]. apply Z.ltb_ge in H1.
  destruct (r <? 2048) eqn:H2.
  { apply Z.ltb_lt in H2. right. apply (lead_byte_high 192 32); [done|].
    rewrite Z.shiftr_div_pow2 by lia. change (2 ^ 6) with 64.
    Z.to_euclidean_division_equations; lia. }
  apply Z.ltb_ge in H2. destruct (_ && _); [by right|].
  destruct (r <? 65536) eqn:H3.
  { apply Z.ltb_lt in H3. right. apply (lead_byte_high 224 16); [done|].
    rewrite Z.shiftr_div_pow2 by lia. change (2 ^ 12) with 4096.
    Z.to_euclidean_division_equations; lia. }
  apply Z.ltb_ge in H3. destruct (r <=? 1114111) eqn:H4; [|by right].
  apply Z.leb_le in H4. right. apply (lead_byte_high 240 5); [done|].
  rewrite Z.shiftr_div_pow2 by lia. change (2 ^ 18) with 262144.
  Z.to_euclidean_division_equations; lia.
Qed.

Lemma KeyType_String_shape t :
  t ≠ KeyRunes →
  String.length (KeyType_String t) ≠ 1%nat ∧ high_lead (KeyType_String t) = false.
Proof. by destruct t. Qed.

(** One typed rune never spells the name of a key. *)
Lemma single_rune_not_named r t :
  t ≠ KeyRunes → Key_String (mkKey KeyRunes [r] false) ≠ KeyType_String t.
Proof.
  intros Ht E.
  change (Key_String (mkKey KeyRunes [r] false)) with (utf8_of_rune r +:+ "") in E.
  rewrite string_app_nil_r in E.
  destruct (KeyType_String_shape t Ht) as [Hl Hh].
  destruct (utf8_of_rune_shape r) as [H|H]; rewrite E in H; congruence.
Qed.
