(* ===== verification/TextInput.v ===== *)
(** * TextInput: styles, the cursor and the text input widget

    [main.go] builds its form from the text input of the Bubbles widget
    library, whose cursor has three display modes, and styles it with
    Lip Gloss.  Neither library is part of the repository: this file
    models, from their documented behaviour, the fields and methods that
    [main.go] touches.

    A text input holds its value as a slice of runes with a caret position,
    ignores every message while it is not focused, and cuts what is typed
    to the room left under its character limit. *)

From S2P Require Import Prelude Tea.

Local Open Scope Z_scope.

(** ** Styles *)

(** A style, reduced to the one attribute the program sets: the foreground
    colour. *)
Record Style : Type := mkStyle {
  Style_fg : option string;
}.

#[export] Instance Style_eq_dec : EqDecision Style.
Proof. solve_decision. Defined.

Definition lipgloss_NewStyle : Style := mkStyle None.

Definition Style_Foreground (c : string) (s : Style) : Style := mkStyle (Some c).

Definition Style_Copy (s : Style) : Style := s.

(** ** The cursor *)

(** [cursor.Mode] is an integer type with three named values. *)
Definition Mode : Type := Z.

Definition CursorBlink : Mode := 0.
Definition CursorStatic : Mode := 1.
Definition CursorHide : Mode := 2.

(** [mode.String()] indexes a three-element array: a mode outside the
    named values has no text (the Go call panics). *)
Definition Mode_String (m : Mode) : option string :=
  if decide (m = CursorBlink) then Some "blink"
  else if decide (m = CursorStatic) then Some "static"
  else if decide (m = CursorHide) then Some "hidden"
  else None.

Record cursor_Model : Type := mkCursor {
  cursor_Style : Style;
  cursor_mode : Mode;
  cursor_focus : bool;
  cursor_Blink : bool;   (* true while the caret is not drawn *)
}.

#[export] Instance cursor_Model_eq_dec : EqDecision cursor_Model.
Proof. solve_decision. Defined.

Definition cursor_New : cursor_Model :=
  {| cursor_Style := lipgloss_NewStyle;
     cursor_mode := CursorBlink;
     cursor_focus := false;
     cursor_Blink := true |}.

Definition set_cursor_Style (s : Style) (c : cursor_Model) : cursor_Model :=
  {| cursor_Style := s;
     cursor_mode := cursor_mode c;
     cursor_focus := cursor_focus c;
     cursor_Blink := cursor_Blink c |}.

(** [c.SetMode(mode)]: a mode outside the three values is ignored; the
    caret is hidden in [CursorHide] and while the cursor has no focus; the
    blink timer is started in [CursorBlink]. *)
Definition cursor_SetMode (mode : Mode) (c : cursor_Model) : cursor_Model * Cmd :=
  if (mode <? CursorBlink) || (CursorHide <? mode) then (c, CmdNil)
  else
    ({| cursor_Style := cursor_Style c;
        cursor_mode := mode;
        cursor_focus := cursor_focus c;
        cursor_Blink := bool_decide (mode = CursorHide) || negb (cursor_focus c) |},
     if decide (mode = CursorBlink) then CmdBlink else CmdNil).

(** [c.Focus()]. *)
Definition cursor_Focus (c : cursor_Model) : cursor_Model * Cmd :=
  ({| cursor_Style := cursor_Style c;
      cursor_mode := cursor_mode c;
      cursor_focus := true;
      cursor_Blink := bool_decide (cursor_mode c = CursorHide) |},
   if decide (cursor_mode c = CursorBlink) then CmdBlink else CmdNil).

(** [c.Blur()]. *)
Definition cursor_Blur (c : cursor_Model) : cursor_Model :=
  {| cursor_Style := cursor_Style c;
     cursor_mode := cursor_mode c;
     cursor_focus := false;
     cursor_Blink := true |}.

(** ** The text input *)

Record textinput_Model : Type := mkInput {
  Placeholder : string;
  CharLimit : Z;
  PromptStyle : Style;
  TextStyle : Style;
  Cursor : cursor_Model;
  value : list rune;
  focus : bool;
  pos : nat;
}.

#[export] Instance textinput_Model_eq_dec : EqDecision textinput_Model.
Proof. solve_decision. Defined.

(** [textinput.New()]: empty, unfocused, without limit. *)
Definition textinput_New : textinput_Model :=
  {| Placeholder := "";
     CharLimit := 0;
     PromptStyle := lipgloss_NewStyle;
     TextStyle := lipgloss_NewStyle;
     Cursor := cursor_New;
     value := [];
     focus := false;
     pos := 0 |}.

(** Assignments to the fields of a text input. *)
Definition set_Placeholder (p : string) (t : textinput_Model) : textinput_Model :=
  mkInput p (CharLimit t) (PromptStyle t) (TextStyle t) (Cursor t)
    (value t) (focus t) (pos t).

Definition set_CharLimit (n : Z) (t : textinput_Model) : textinput_Model :=
  mkInput (Placeholder t) n (PromptStyle t) (TextStyle t) (Cursor t)
    (value t) (focus t) (pos t).

Definition set_PromptStyle (s : Style) (t : textinput_Model) : textinput_Model :=
  mkInput (Placeholder t) (CharLimit t) s (TextStyle t) (Cursor t)
    (value t) (focus t) (pos t).

Definition set_TextStyle (s : Style) (t : textinput_Model) : textinput_Model :=
  mkInput (Placeholder t) (CharLimit t) (PromptStyle t) s (Cursor t)
    (value t) (focus t) (pos t).

Definition set_Cursor (c : cursor_Model) (t : textinput_Model) : textinput_Model :=
  mkInput (Placeholder t) (CharLimit t) (PromptStyle t) (TextStyle t) c
    (value t) (focus t) (pos t).

Definition set_value (v : list rune) (p : nat) (t : textinput_Model) : textinput_Model :=
  mkInput (Placeholder t) (CharLimit t) (PromptStyle t) (TextStyle t) (Cursor t)
    v (focus t) p.

Definition set_focus (b : bool) (t : textinput_Model) : textinput_Model :=
  mkInput (Placeholder t) (CharLimit t) (PromptStyle t) (TextStyle t) (Cursor t)
    (value t) b (pos t).

(** [t.Focus()]: focus the input and its cursor. *)
Definition textinput_Focus (t : textinput_Model) : textinput_Model * Cmd :=
  let '(c, cmd) := cursor_Focus (Cursor t) in
  (set_Cursor c (set_focus true t), cmd).

(** [t.Blur()]. *)
Definition textinput_Blur (t : textinput_Model) : textinput_Model :=
  set_Cursor (cursor_Blur (Cursor t)) (set_focus false t).

(** [t.Value()]. *)
Definition textinput_Value (t : textinput_Model) : string :=
  string_of_runes (value t).

(** Typed runes enter at the caret.  With a positive limit, nothing enters
    a full input and what is typed is cut to the room left. *)
Definition insertRunes (v : list rune) (t : textinput_Model) : textinput_Model :=
  let avail := CharLimit t - len (value t) in
  if (0 <? CharLimit t) && (avail <=? 0) then t
  else
    let paste := if 0 <? CharLimit t then take (Z.to_nat avail) v else v in
    set_value (take (pos t) (value t) ++ paste ++ drop (pos t) (value t))
              (pos t + length paste) t.

(** Backspace removes the rune before the caret. *)
Definition deleteBackward (t : textinput_Model) : textinput_Model :=
  match value t with
  | [] => t
  | _ => set_value (take (pos t - 1) (value t) ++ drop (pos t) (value t))
                   (pos t - 1) t
  end.

(** Delete removes the rune under the caret. *)
Definition deleteForward (t : textinput_Model) : textinput_Model :=
  if decide (pos t < length (value t))%nat
  then set_value (take (pos t) (value t) ++ drop (S (pos t)) (value t)) (pos t) t
  else t.

(** [t.Update(msg)]: an input without focus ignores the message; a focused
    one edits its value on a key and ignores other messages. *)
Definition textinput_Update (t : textinput_Model) (msg : Msg) : textinput_Model * Cmd :=
  if negb (focus t) then (t, CmdNil)
  else
    match msg with
    | KeyMsg k =>
        match Key_Type k with
        | KeyBackspace => (deleteBackward t, CmdNil)
        | KeyDelete => (deleteForward t, CmdNil)
        | KeyHome => (set_value (value t) 0 t, CmdNil)
        | KeyEnd => (set_value (value t) (length (value t)) t, CmdNil)
        | _ => (insertRunes (Key_Runes k) t, CmdNil)
        end
    | OtherMsg => (t, CmdNil)
    end.

(** ** Well-formed text inputs *)

(** The value fits the limit and the caret lies within the value. *)
Definition wf_input (t : textinput_Model) : Prop :=
  (0 < CharLimit t → len (value t) ≤ CharLimit t) ∧ (pos t ≤ length (value t))%nat.

#[export] Instance wf_input_dec t : Decision (wf_input t).
Proof. unfold wf_input. apply _. Defined.

(** What an edit never changes. *)
Definition same_frame (t t' : textinput_Model) : Prop :=
  Placeholder t' = Placeholder t ∧ CharLimit t' = CharLimit t ∧
  PromptStyle t' = PromptStyle t ∧ TextStyle t' = TextStyle t ∧
  Cursor t' = Cursor t ∧ focus t' = focus t.

(** Unfold the methods of the widgets down to record constructions. *)
Ltac unfold_widgets :=
  unfold textinput_Focus, textinput_Blur, cursor_Focus, cursor_Blur,
    set_Placeholder, set_CharLimit, set_PromptStyle, set_TextStyle,
    set_Cursor, set_value, set_focus, set_cursor_Style in *;
  simpl in *.

(** ** Lemmas on the cursor *)

Lemma Mode_String_is_Some m :
  CursorBlink ≤ m ≤ CursorHide → is_Some (Mode_String m).
Proof.
  unfold Mode_String, CursorBlink, CursorStatic, CursorHide. intros Hm.
  repeat case_decide; eauto. lia.
Qed.

Lemma cursor_SetMode_mode mode c :
  CursorBlink ≤ mode ≤ CursorHide → cursor_mode (cursor_SetMode mode c).1 = mode.
Proof.
  unfold cursor_SetMode, CursorBlink, CursorHide. intros Hm.
  destruct (mode <? 0) eqn:H1; [lia|]. destruct (2 <? mode) eqn:H2; [lia|]. done.
Qed.

Lemma cursor_SetMode_focus mode c :
  cursor_focus (cursor_SetMode mode c).1 = cursor_focus c.
Proof. unfold cursor_SetMode. by case_match. Qed.

Lemma cursor_SetMode_Style mode c :
  cursor_Style (cursor_SetMode mode c).1 = cursor_Style c.
Proof. unfold cursor_SetMode. by case_match. Qed.

(** ** Lemmas on the text input *)

Lemma textinput_Focus_focus t : focus (textinput_Focus t).1 = true.
Proof. done. Qed.

Lemma textinput_Blur_focus t : focus (textinput_Blur t) = false.
Proof. done. Qed.

Lemma insertRunes_frame v t : same_frame t (insertRunes v t).
Proof. unfold insertRunes, same_frame. by case_match. Qed.

Lemma deleteBackward_frame t : same_frame t (deleteBackward t).
Proof. unfold deleteBackward, same_frame. by case_match. Qed.

Lemma deleteForward_frame t : same_frame t (deleteForward t).
Proof. unfold deleteForward, same_frame. by case_decide. Qed.

(** An edit changes the value and the caret only. *)
Lemma textinput_Update_frame t msg : same_frame t (textinput_Update t msg).1.
Proof.
  unfold textinput_Update.
  destruct (focus t); simpl; [|done].
  destruct msg as [k|]; [|done].
  destruct (Key_Type k); simpl;
    auto using insertRunes_frame, deleteBackward_frame, deleteForward_frame;
    by unfold same_frame.
Qed.

(** An input without focus is deaf. *)
Lemma textinput_Update_blurred t msg :
  focus t = false → textinput_Update t msg = (t, CmdNil).
Proof. unfold textinput_Update. by intros ->. Qed.

(** No edit asks the runtime for anything. *)
Lemma textinput_Update_cmd t msg : (textinput_Update t msg).2 = CmdNil.
Proof.
  unfold textinput_Update. destruct (focus t); simpl; [|done].
  destruct msg as [k|]; [|done]. by destruct (Key_Type k).
Qed.

Lemma insertRunes_wf v t : wf_input t → wf_input (insertRunes v t).
Proof.
  unfold wf_input, insertRunes, len. intros [Hlim Hpos].
  destruct (0 <? CharLimit t) eqn:Hl; simpl.
  - apply Z.ltb_lt in Hl. specialize (Hlim Hl).
    destruct (_ <=? 0) eqn:Hav; simpl; [done|].
    apply Z.leb_gt in Hav.
    rewrite !length_app, length_take, length_take, length_drop. lia.
  - apply Z.ltb_ge in Hl.
    rewrite !length_app, length_take, length_drop. lia.
Qed.

Lemma deleteBackward_wf t : wf_input t → wf_input (deleteBackward t).
Proof.
  unfold wf_input, deleteBackward, len. intros [Hlim Hpos].
  destruct (value t) as [|r v] eqn:Hv; [by rewrite Hv|]. simpl CharLimit.
  cbn [value pos set_value]. rewrite length_app, length_take, length_drop.
  simpl in *. lia.
Qed.

Lemma deleteForward_wf t : wf_input t → wf_input (deleteForward t).
Proof.
  unfold wf_input, deleteForward, len. intros [Hlim Hpos].
  case_decide; [|done]. cbn [value pos set_value CharLimit].
  rewrite length_app, length_take, length_drop. lia.
Qed.

(** Every edit keeps the value within the limit and the caret within the
    value. *)
Lemma textinput_Update_wf t msg : wf_input t → wf_input (textinput_Update t msg).1.
Proof.
  intros Hwf. unfold textinput_Update.
  destruct (focus t); simpl; [|done].
  destruct msg as [k|]; [|done].
  destruct (Key_Type k); simpl;
    auto using insertRunes_wf, deleteBackward_wf, deleteForward_wf;
    destruct Hwf; split; simpl; auto with lia.
Qed.

(** Typing into a full input changes nothing. *)
Lemma insertRunes_full v t :
  0 < CharLimit t → len (value t) = CharLimit t → insertRunes v t = t.
Proof.
  unfold insertRunes. intros Hl Hfull.
  rewrite (proj2 (Z.ltb_lt 0 _) Hl).
  by rewrite (proj2 (Z.leb_le (CharLimit t - len (value t)) 0)) by lia.
Qed.

(** Typing one rune into an input with room inserts it at the caret. *)
Lemma insertRunes_room r t :
  len (value t) < CharLimit t →
  value (insertRunes [r] t) = take (pos t) (value t) ++ r :: drop (pos t) (value t)
  ∧ pos (insertRunes [r] t) = S (pos t).
Proof.
  unfold insertRunes. intros Hroom. pose proof (len_nonneg (value t)).
  rewrite (proj2 (Z.ltb_lt 0 _)) by lia.
  rewrite (proj2 (Z.leb_gt (CharLimit t - len (value t)) 0)) by lia. simpl.
  destruct (Z.to_nat _) eqn:Hn; [exfalso; lia|]. simpl. rewrite take_nil.
  split; [done|simpl; lia].
Qed.
