(* ===== verification/Form.v ===== *)
(** * Form: the model of the form and its update function

    Translated from [src/main.go]: the style variables, the record
    [model], [initialModel], [Init], [Update] and [updateInputs].  Each
    branch of the key switch of [Update] is a definition of its own
    ([UpdateQuit], [UpdateCursorMode], [UpdateFocus]) and [Update] composes
    them in the order of the source.

    The method [Update] has a value receiver: it works on a copy of the
    model and returns it, so it is a function from the model and a message
    to the new model and a command. *)

From S2P Require Import Prelude Tea TextInput.

Local Open Scope Z_scope.

(** ** Styles (the [var] block) *)

Definition focusedStyle : Style := Style_Foreground "205" lipgloss_NewStyle.
Definition blurredStyle : Style := Style_Foreground "240" lipgloss_NewStyle.
Definition cursorStyle : Style := Style_Copy focusedStyle.
Definition noStyle : Style := lipgloss_NewStyle.
Definition helpStyle : Style := Style_Copy blurredStyle.
Definition cursorModeHelpStyle : Style := Style_Foreground "244" lipgloss_NewStyle.

(** ** The model *)

Record model : Type := mkModel {
  focusIndex : Z;
  inputs : list textinput_Model;
  cursorMode : Mode;
}.

#[export] Instance model_eq_dec : EqDecision model.
Proof. solve_decision. Defined.

(** The body of the loop of [initialModel]: the text input built for
    index [i]. *)
Definition initialInput (i : nat) : textinput_Model :=
  let t := textinput_New in
  let t := set_Cursor (set_cursor_Style cursorStyle (Cursor t)) t in
  let t := set_CharLimit 32 t in
  match i with
  | 0%nat =>
      let t := set_Placeholder "Title" t in
      let t := (textinput_Focus t).1 in
      let t := set_PromptStyle focusedStyle t in
      set_TextStyle focusedStyle t
  | 1%nat => set_CharLimit 64 (set_Placeholder "Description" t)
  | 2%nat => set_CharLimit 64 (set_Placeholder "Urgency" t)
  | 3%nat => set_CharLimit 64 (set_Placeholder "Status" t)
  | 4%nat => set_CharLimit 64 (set_Placeholder "Assigned By ( Email )" t)
  | 5%nat => set_CharLimit 64 (set_Placeholder "Comments" t)
  | _ => t
  end.

(** [initialModel()]: six inputs, the focus index and the cursor mode at
    their zero value. *)
Definition initialModel : model :=
  {| focusIndex := 0;
     inputs := initialInput <$> seq 0 6;
     cursorMode := 0 |}.

(** [m.Init()] starts the blink timer. *)
Definition Init (m : model) : Cmd := CmdBlink.

(** ** The branches of [Update] *)

(** [case "ctrl+c", "esc"]. *)
Definition UpdateQuit (m : model) : model * Cmd := (m, tea_Quit).

(** [m.cursorMode++] and the wrap past the last mode. *)
Definition cycleCursorMode (cm : Mode) : Mode :=
  let cm := int_inc cm in
  if CursorHide <? cm then CursorBlink else cm.

(** The loop that sets the mode of every input's cursor and collects the
    commands. *)
Definition setCursorModes (cm : Mode) (ins : list textinput_Model)
    : list textinput_Model * list Cmd :=
  ((λ t, set_Cursor (cursor_SetMode cm (Cursor t)).1 t) <$> ins,
   (λ t, (cursor_SetMode cm (Cursor t)).2) <$> ins).

(** [case "ctrl+r"]. *)
Definition UpdateCursorMode (m : model) : model * Cmd :=
  let cm := cycleCursorMode (cursorMode m) in
  let '(ins, cmds) := setCursorModes cm (inputs m) in
  (mkModel (focusIndex m) ins cm, tea_Batch cmds).

(** The keys that move the focus backwards. *)
Definition isPrevKey (s : string) : Prop :=
  s = "up" ∨ s = "shift+tab" ∨ s = "left".

#[export] Instance isPrevKey_dec s : Decision (isPrevKey s).
Proof. unfold isPrevKey. apply _. Defined.

(** "Cycle indexes": step the focus index and wrap it. *)
Definition cycleIndex (s : string) (m : model) : Z :=
  let fi := if decide (isPrevKey s)
            then int_dec (focusIndex m)
            else int_inc (focusIndex m) in
  if len (inputs m) + 1 <? fi then 0
  else if fi <? 0 then len (inputs m)
  else fi.

(** The body of the focus loop for index [i]. *)
Definition focusInput (fi : Z) (i : nat) (t : textinput_Model)
    : textinput_Model * Cmd :=
  if decide (Z.of_nat i = fi) then
    let '(t, cmd) := textinput_Focus t in
    (set_TextStyle focusedStyle (set_PromptStyle focusedStyle t), cmd)
  else
    (set_TextStyle noStyle (set_PromptStyle noStyle (textinput_Blur t)), CmdNil).

(** The focus loop: focus the input under the index, blur the others. *)
Definition focusInputs (fi : Z) (ins : list textinput_Model)
    : list textinput_Model * list Cmd :=
  (imap (λ i t, (focusInput fi i t).1) ins,
   imap (λ i t, (focusInput fi i t).2) ins).

(** The keys of the navigation case. *)
Definition isNavKey (s : string) : Prop :=
  s ∈ ["tab"; "shift+tab"; "enter"; "up"; "left"; "right"; "down"].

#[export] Instance isNavKey_dec s : Decision (isNavKey s).
Proof. unfold isNavKey. apply _. Defined.

(** [case "tab", "shift+tab", "enter", "up", "left", "right", "down"]. *)
Definition UpdateFocus (s : string) (m : model) : model * Cmd :=
  if decide (s = "enter" ∧ focusIndex m = len (inputs m)) then (m, tea_Quit)
  else
    let fi := cycleIndex s m in
    let '(ins, cmds) := focusInputs fi (inputs m) in
    (mkModel fi ins (cursorMode m), tea_Batch cmds).

(** [m.updateInputs(msg)]: hand the message to every input. *)
Definition updateInputs (m : model) (msg : Msg) : model * Cmd :=
  (mkModel (focusIndex m)
     ((λ t, (textinput_Update t msg).1) <$> inputs m)
     (cursorMode m),
   tea_Batch ((λ t, (textinput_Update t msg).2) <$> inputs m)).

(** [m.Update(msg)]. *)
Definition Update (m : model) (msg : Msg) : model * Cmd :=
  match msg with
  | KeyMsg k =>
      let s := Key_String k in
      if decide (s = "ctrl+c" ∨ s = "esc") then UpdateQuit m
      else if decide (s = "ctrl+r") then UpdateCursorMode m
      else if decide (isNavKey s) then UpdateFocus s m
      else updateInputs m msg
  | _ => updateInputs m msg
  end.

(** ** The invariant *)

(** What the focus loop decides for the input at index [i]: the focus
    flag, the two styles and the state of the cursor. *)
Definition wf_focus (fi : Z) (cm : Mode) (i : nat) (t : textinput_Model) : Prop :=
  focus t = bool_decide (Z.of_nat i = fi) ∧
  PromptStyle t = (if focus t then focusedStyle else noStyle) ∧
  TextStyle t = (if focus t then focusedStyle else noStyle) ∧
  Cursor t = mkCursor cursorStyle cm (focus t)
               (bool_decide (cm = CursorHide) || negb (focus t)).

(** An input of the form: decided by the focus loop, with a positive
    character limit that its value respects. *)
Definition wf_field (fi : Z) (cm : Mode) (i : nat) (t : textinput_Model) : Prop :=
  wf_focus fi cm i t ∧ 0 < CharLimit t ∧ wf_input t.

Definition wf_fields (fi : Z) (cm : Mode) (ins : list textinput_Model) : Prop :=
  ∀ i t, ins !! i = Some t → wf_field fi cm i t.

(** A well-formed model: the focus index addresses an input, Submit or
    Cancel; the cursor mode is one of the three; every input is
    well-formed for that index and mode. *)
Definition wf_model (m : model) : Prop :=
  0 ≤ focusIndex m ≤ len (inputs m) + 1 ∧
  len (inputs m) + 1 < int_max ∧
  CursorBlink ≤ cursorMode m ≤ CursorHide ∧
  wf_fields (focusIndex m) (cursorMode m) (inputs m).

(** The models the program can be in: the initial one and those [Update]
    returns without asking to quit. *)
Inductive reachable : model → Prop :=
  | reachable_init : reachable initialModel
  | reachable_step m msg :
      reachable m →
      cmd_quits (Update m msg).2 = false →
      reachable (Update m msg).1.

(** The fields no message changes: placeholders and limits. *)
Definition layout (m : model) : list (string * Z) :=
  (λ t, (Placeholder t, CharLimit t)) <$> inputs m.

(** The model with the focus moved to [fi] by the focus loop. *)
Definition refocus (fi : Z) (m : model) : model :=
  mkModel fi (focusInputs fi (inputs m)).1 (cursorMode m).

(** Moving forward or backward once. *)
Definition next (m : model) : model := (Update m (key KeyTab)).1.
Definition prev (m : model) : model := (Update m (key KeyShiftTab)).1.

(** Pressing ctrl+r once. *)
Definition nextMode (m : model) : model := (Update m (key KeyCtrlR)).1.

(** ** Decidability of the invariant *)

#[export] Instance wf_focus_dec fi cm i t : Decision (wf_focus fi cm i t).
Proof. unfold wf_focus. apply _. Defined.

#[export] Instance wf_field_dec fi cm i t : Decision (wf_field fi cm i t).
Proof. unfold wf_field. apply _. Defined.

Lemma wf_fields_Forall fi cm ins :
  wf_fields fi cm ins ↔
  Forall (λ p, wf_field fi cm p.1 p.2) (imap pair ins).
Proof.
  rewrite Forall_lookup. unfold wf_fields. split.
  - intros H i [j t]. rewrite list_lookup_imap_Some.
    intros (y & Hy & [= -> ->]). by apply H.
  - intros H i t Ht. apply (H i (i, t)).
    rewrite list_lookup_imap_Some. eauto.
Qed.

#[export] Instance wf_fields_dec fi cm ins : Decision (wf_fields fi cm ins).
Proof.
  refine (cast_if (decide (Forall (λ p, wf_field fi cm p.1 p.2) (imap pair ins))));
    by rewrite wf_fields_Forall.
Defined.

#[export] Instance wf_model_dec m : Decision (wf_model m).
Proof. unfold wf_model. apply _. Defined.
