(* ===== verification/FormInv.v ===== *)
(** * FormInv: the invariant of the form is preserved

    Lemmas on each branch of [Update] (which branch a key takes, what the
    focus loop and the cursor-mode loop do to one input, how the focus
    index steps) and the two theorems they add up to: every message
    preserves [wf_model], and every reachable model satisfies it. *)

From S2P Require Import Prelude Tea TextInput Form.

Local Open Scope Z_scope.

(** ** Which branch a message takes *)

Section branches.
Context (m : model).

Lemma Update_quit_key k :
  Key_String k = "ctrl+c" ∨ Key_String k = "esc" →
  Update m (KeyMsg k) = UpdateQuit m.
Proof. intros H. unfold Update. by rewrite decide_True. Qed.

Lemma Update_mode_key k :
  Key_String k = "ctrl+r" → Update m (KeyMsg k) = UpdateCursorMode m.
Proof.
  intros H. unfold Update. rewrite H.
  rewrite decide_False by (by intros [|]). by rewrite decide_True.
Qed.

Lemma isNavKey_not_quit s : isNavKey s → ¬ (s = "ctrl+c" ∨ s = "esc") ∧ s ≠ "ctrl+r".
Proof.
  unfold isNavKey. rewrite !elem_of_cons, elem_of_nil.
  intros H. repeat destruct H as [->|H]; try done; by split; [intros [|]|].
Qed.

Lemma Update_nav_key k :
  isNavKey (Key_String k) → Update m (KeyMsg k) = UpdateFocus (Key_String k) m.
Proof.
  intros H. destruct (isNavKey_not_quit _ H) as [H1 H2]. unfold Update.
  rewrite decide_False by exact H1. rewrite decide_False by exact H2.
  by rewrite decide_True.
Qed.

Lemma Update_other_key k :
  ¬ (Key_String k = "ctrl+c" ∨ Key_String k = "esc") →
  Key_String k ≠ "ctrl+r" → ¬ isNavKey (Key_String k) →
  Update m (KeyMsg k) = updateInputs m (KeyMsg k).
Proof.
  intros H1 H2 H3. unfold Update. rewrite decide_False by exact H1.
  rewrite decide_False by exact H2. by rewrite decide_False.
Qed.
End branches.

(** ** The focus loop *)

Section focus_loop.
Context (fi : Z) (cm : Mode).
Implicit Types (t : textinput_Model) (i : nat).

Lemma focusInput_frame i t :
  let t' := (focusInput fi i t).1 in
  Placeholder t' = Placeholder t ∧ CharLimit t' = CharLimit t ∧
  value t' = value t ∧ pos t' = pos t ∧
  cursor_Style (Cursor t') = cursor_Style (Cursor t) ∧
  cursor_mode (Cursor t') = cursor_mode (Cursor t).
Proof. unfold focusInput. by case_decide. Qed.

Lemma focusInput_wf_focus i t :
  cursor_Style (Cursor t) = cursorStyle → cursor_mode (Cursor t) = cm →
  wf_focus fi cm i (focusInput fi i t).1.
Proof.
  intros Hs Hm. unfold focusInput, wf_focus.
  case_decide; unfold_widgets; rewrite ?Hs, ?Hm.
  - rewrite bool_decide_eq_true_2 by done. by rewrite orb_false_r.
  - rewrite bool_decide_eq_false_2 by done. by rewrite orb_true_r.
Qed.

Lemma focusInput_id i t : wf_focus fi cm i t → (focusInput fi i t).1 = t.
Proof.
  destruct t as [p l ps ts c v f q]. unfold wf_focus, focusInput. simpl.
  intros (-> & -> & -> & ->). case_decide.
  - rewrite bool_decide_eq_true_2 by done. simpl. by rewrite orb_false_r.
  - rewrite bool_decide_eq_false_2 by done. simpl. by rewrite orb_true_r.
Qed.

Lemma focusInput_wf i t fj :
  wf_field fj cm i t → wf_field fi cm i (focusInput fi i t).1.
Proof.
  intros ((_ & _ & _ & Hc) & Hl & Hv & Hp).
  destruct (focusInput_frame i t) as (_ & HL & HV & HP & HS & HM).
  split; [|unfold wf_input; rewrite HL, HV, HP; by eauto].
  apply focusInput_wf_focus; by rewrite Hc.
Qed.

Lemma focusInput_focusInput fj i t :
  (focusInput fi i (focusInput fj i t).1).1 = (focusInput fi i t).1.
Proof. unfold focusInput. by repeat case_decide. Qed.
End focus_loop.

(** ** Stepping the focus index *)

Section cycle_index.
Context (m : model).
Hypothesis Hfi : 0 ≤ focusIndex m ≤ len (inputs m) + 1.
Hypothesis Hlen : len (inputs m) + 1 < int_max.

Lemma cycleIndex_forward s :
  ¬ isPrevKey s →
  cycleIndex s m =
    if decide (focusIndex m = len (inputs m) + 1) then 0 else focusIndex m + 1.
Proof.
  intros Hs. unfold cycleIndex. rewrite decide_False by done.
  rewrite int_inc_small by (unfold int_min; lia).
  case_decide; repeat case_match; lia.
Qed.

Lemma cycleIndex_backward s :
  isPrevKey s →
  cycleIndex s m =
    if decide (focusIndex m = 0) then len (inputs m) else focusIndex m - 1.
Proof.
  intros Hs. unfold cycleIndex. rewrite decide_True by done.
  rewrite int_dec_small by (unfold int_min; lia).
  case_decide; repeat case_match; lia.
Qed.

Lemma cycleIndex_range s : 0 ≤ cycleIndex s m ≤ len (inputs m) + 1.
Proof.
  pose proof (len_nonneg (inputs m)).
  destruct (decide (isPrevKey s)) as [Hs|Hs].
  - rewrite cycleIndex_backward by done. case_decide; lia.
  - rewrite cycleIndex_forward by done. case_decide; lia.
Qed.

(** Backward navigation never lands on Cancel. *)
Lemma cycleIndex_backward_not_cancel s :
  isPrevKey s → cycleIndex s m ≠ len (inputs m) + 1.
Proof. intros Hs. rewrite cycleIndex_backward by done. case_decide; lia. Qed.
End cycle_index.

(** ** Moving the focus *)

Lemma focusInputs_length fi ins : length (focusInputs fi ins).1 = length ins.
Proof. simpl. by rewrite length_imap. Qed.

Lemma focusInputs_lookup fi ins i :
  (focusInputs fi ins).1 !! i = (λ t, (focusInput fi i t).1) <$> ins !! i.
Proof. simpl. by rewrite list_lookup_imap. Qed.

Lemma focusInputs_wf fi fj cm ins :
  wf_fields fj cm ins → wf_fields fi cm (focusInputs fi ins).1.
Proof.
  intros H i t. rewrite focusInputs_lookup, fmap_Some.
  intros (t0 & Ht0 & ->). eapply focusInput_wf; eauto.
Qed.

Lemma refocus_wf fi m :
  wf_model m → 0 ≤ fi ≤ len (inputs m) + 1 → wf_model (refocus fi m).
Proof.
  intros (Hfi & Hlen & Hcm & Hins) Hfi'. unfold wf_model, refocus. simpl.
  rewrite len_imap. split_and!; [lia..|]. by eapply focusInputs_wf.
Qed.

(** Refocusing a well-formed model on its own index changes nothing. *)
Lemma refocus_id m : wf_model m → refocus (focusIndex m) m = m.
Proof.
  intros (_ & _ & _ & Hins). destruct m as [fi ins cm]. unfold refocus. simpl in *.
  f_equal. apply imap_id_ext. intros i t Ht.
  eapply focusInput_id, Hins, Ht.
Qed.

(** Only the last refocusing counts. *)
Lemma refocus_refocus fi fj m : refocus fi (refocus fj m) = refocus fi m.
Proof.
  unfold refocus. simpl. f_equal. rewrite imap_imap.
  apply imap_ext. intros i t _. apply focusInput_focusInput.
Qed.

Lemma refocus_focusIndex fi m : focusIndex (refocus fi m) = fi.
Proof. done. Qed.

Lemma refocus_len fi m : len (inputs (refocus fi m)) = len (inputs m).
Proof. unfold refocus. simpl. by rewrite len_imap. Qed.

(** The navigation case, apart from enter on Submit, refocuses the model
    on the stepped index. *)
Lemma UpdateFocus_refocus s m :
  ¬ (s = "enter" ∧ focusIndex m = len (inputs m)) →
  (UpdateFocus s m).1 = refocus (cycleIndex s m) m.
Proof. intros H. unfold UpdateFocus. by rewrite decide_False. Qed.

(** The only command a focus move can return is the blink command. *)
Lemma focusInput_cmd fi i t : (focusInput fi i t).2 = CmdNil ∨ (focusInput fi i t).2 = CmdBlink.
Proof. unfold focusInput. unfold_widgets. repeat case_decide; auto. Qed.

Lemma focusInputs_no_quit fi ins : cmd_quits (tea_Batch (focusInputs fi ins).2) = false.
Proof.
  rewrite cmd_quits_Batch. simpl. apply not_true_iff_false.
  rewrite existsb_exists. intros (c & Hc & Hq).
  apply list_elem_of_In, elem_of_lookup_imap in Hc as (i & t & -> & _).
  by destruct (focusInput_cmd fi i t) as [Hn|Hn]; rewrite Hn in Hq.
Qed.

(** ** Cycling the cursor mode *)

Lemma cycleCursorMode_spec cm :
  CursorBlink ≤ cm ≤ CursorHide →
  cycleCursorMode cm = if decide (cm = CursorHide) then CursorBlink else cm + 1.
Proof.
  unfold cycleCursorMode, CursorBlink, CursorHide. intros Hcm.
  rewrite int_inc_small by (unfold int_min, int_max; lia).
  case_decide; case_match; lia.
Qed.

Lemma cycleCursorMode_range cm :
  CursorBlink ≤ cm ≤ CursorHide →
  CursorBlink ≤ cycleCursorMode cm ≤ CursorHide.
Proof.
  intros Hcm. rewrite cycleCursorMode_spec by done.
  unfold CursorBlink, CursorHide in *. case_decide; lia.
Qed.

Lemma setCursorMode_wf fi cm cm' i t :
  CursorBlink ≤ cm' ≤ CursorHide →
  wf_field fi cm i t →
  wf_field fi cm' i (set_Cursor (cursor_SetMode cm' (Cursor t)).1 t).
Proof.
  intros Hcm ((Hf & Hp & Ht & Hc) & Hl & Hw). unfold cursor_SetMode.
  replace (_ || _) with false
    by (unfold CursorBlink, CursorHide in *; symmetry; apply orb_false_iff;
        split; [apply Z.ltb_ge|apply Z.ltb_ge]; lia).
  split_and!; try done. simpl. by rewrite Hc.
Qed.

Lemma setCursorModes_wf fi cm cm' ins :
  CursorBlink ≤ cm' ≤ CursorHide →
  wf_fields fi cm ins → wf_fields fi cm' (setCursorModes cm' ins).1.
Proof.
  intros Hcm H i t. simpl. rewrite list_lookup_fmap, fmap_Some.
  intros (t0 & Ht0 & ->). eapply setCursorMode_wf; eauto.
Qed.

(** ** Every branch preserves the invariant *)

Lemma UpdateCursorMode_wf m : wf_model m → wf_model (UpdateCursorMode m).1.
Proof.
  intros (Hfi & Hlen & Hcm & Hins).
  pose proof (cycleCursorMode_range _ Hcm) as Hcm'.
  unfold wf_model, UpdateCursorMode. simpl. rewrite len_fmap.
  do 3 (split; [done|]). by apply (setCursorModes_wf _ (cursorMode m)).
Qed.

Lemma UpdateFocus_wf s m : wf_model m → wf_model (UpdateFocus s m).1.
Proof.
  intros Hm. destruct (decide (s = "enter" ∧ focusIndex m = len (inputs m))) as [H|H].
  - unfold UpdateFocus. by rewrite decide_True.
  - rewrite UpdateFocus_refocus by done. apply refocus_wf; [done|].
    destruct Hm as (? & ? & _). by apply cycleIndex_range.
Qed.

Lemma textinput_Update_wf_field fi cm i t msg :
  wf_field fi cm i t → wf_field fi cm i (textinput_Update t msg).1.
Proof.
  intros ((Hf & Hp & Ht & Hc) & Hl & Hw).
  destruct (textinput_Update_frame t msg) as (_ & HL & HP & HT & HC & HF).
  split; [|split; [by rewrite HL|by apply textinput_Update_wf]].
  unfold wf_focus. by rewrite HP, HT, HC, HF.
Qed.

Lemma updateInputs_wf m msg : wf_model m → wf_model (updateInputs m msg).1.
Proof.
  intros (Hfi & Hlen & Hcm & Hins). unfold wf_model, updateInputs. simpl.
  rewrite len_fmap. do 3 (split; [done|]).
  intros i t. rewrite list_lookup_fmap, fmap_Some.
  intros (t0 & Ht0 & ->). by apply textinput_Update_wf_field, Hins.
Qed.

Lemma initialModel_wf : wf_model initialModel.
Proof. by_compute. Qed.

(** The branches together, and the induction over the run; the later
    files build on these two. *)
Lemma wf_Update m msg : wf_model m → wf_model (Update m msg).1.
Proof.
  intros Hm. unfold Update. destruct msg as [k|]; [|by apply updateInputs_wf].
  repeat case_decide;
    auto using UpdateCursorMode_wf, UpdateFocus_wf, updateInputs_wf.
Qed.

Lemma wf_reachable m : reachable m → wf_model m.
Proof.
  induction 1 as [|m msg _ IH _]; [apply initialModel_wf|by apply wf_Update].
Qed.

#[export] Hint Resolve initialModel_wf wf_Update wf_reachable : go.

(** ** The invariant holds throughout *)

(** C1. Every message keeps the model well-formed. *)
Theorem Update_preserves_wf m msg : wf_model m → wf_model (Update m msg).1.
Proof. apply wf_Update. Qed.

Lemma Update_preserves_wf_witness :
  wf_model (Update initialModel (key KeyShiftTab)).1.
Proof. apply Update_preserves_wf. by_compute. Defined.

(** C4. Every model the program can reach is well-formed. *)
Theorem reachable_wf m : reachable m → wf_model m.
Proof. apply wf_reachable. Qed.

Lemma reachable_wf_witness :
  wf_model (Update (Update initialModel (key KeyTab)).1 (typed [104])).1.
Proof.
  apply reachable_wf. apply reachable_step; [|by vm_compute].
  apply reachable_step; [|by vm_compute]. apply reachable_init.
Defined.
