(* ===== verification/FormNav.v ===== *)
(** * FormNav: navigation, leaving the form, and the cursor mode

    The behaviour of [Update] on the keys it handles itself: the focus
    ring with its forward and backward wrap, the keys that end the
    program, and the cycle of cursor modes. *)

From S2P Require Import Prelude Tea TextInput Form FormInv.

Local Open Scope Z_scope.

(** ** Navigation *)

Lemma next_refocus m :
  wf_model m →
  next m = refocus (if decide (focusIndex m = len (inputs m) + 1) then 0
                    else focusIndex m + 1) m.
Proof.
  intros (Hfi & Hlen & _). unfold next, key.
  rewrite Update_nav_key by by_compute.
  rewrite UpdateFocus_refocus by (by intros [? _]).
  by rewrite cycleIndex_forward by (done || by_compute).
Qed.

Lemma prev_refocus m :
  wf_model m →
  prev m = refocus (if decide (focusIndex m = 0) then len (inputs m)
                    else focusIndex m - 1) m.
Proof.
  intros (Hfi & Hlen & _). unfold prev, key.
  rewrite Update_nav_key by by_compute.
  rewrite UpdateFocus_refocus by (by intros [? _]).
  by rewrite cycleIndex_backward by (done || by_compute).
Qed.

(** [k] forward moves from a well-formed model refocus it [k] places
    further round the ring of [N + 2] targets. *)
Lemma iter_next_refocus (k : nat) m :
  wf_model m →
  Nat.iter (S k) next m
  = refocus ((focusIndex m + Z.of_nat (S k)) mod (len (inputs m) + 2)) m.
Proof.
  intros Hm. pose proof (len_nonneg (inputs m)) as Hn.
  assert (Hfi := proj1 Hm).
  induction k as [|k IH].
  - simpl. rewrite next_refocus by done. f_equal.
    case_decide as Hd.
    + rewrite Hd. replace (_ + _ + _) with (1 * (len (inputs m) + 2)) by lia.
      by rewrite Z.mod_mul by lia.
    + rewrite Z.mod_small; lia.
  - rewrite Nat.iter_succ, IH.
    set (j := (focusIndex m + Z.of_nat (S k)) mod (len (inputs m) + 2)).
    assert (0 ≤ j < len (inputs m) + 2) as Hj by (apply Z.mod_pos_bound; lia).
    rewrite next_refocus by (apply refocus_wf; [done|lia]).
    rewrite refocus_refocus, refocus_focusIndex, refocus_len. f_equal.
    replace (focusIndex m + Z.of_nat (S (S k)))
      with (focusIndex m + Z.of_nat (S k) + 1) by lia.
    rewrite <- Zplus_mod_idemp_l. fold j. case_decide as Hd.
    + rewrite Hd. replace (_ + _ + _) with (1 * (len (inputs m) + 2)) by lia.
      by rewrite Z.mod_mul by lia.
    + rewrite Z.mod_small; lia.
Qed.

(** C9. [N + 2] forward moves bring a well-formed model back to itself:
    the focus index, the focus flags, the styles and the cursors. *)
Theorem next_full_cycle m :
  wf_model m → Nat.iter (length (inputs m) + 2) next m = m.
Proof.
  intros Hm. replace (length (inputs m) + 2)%nat with (S (S (length (inputs m)))) by lia.
  rewrite iter_next_refocus by done.
  replace (Z.of_nat (S (S (length (inputs m))))) with (1 * (len (inputs m) + 2))
    by (unfold len; lia).
  pose proof (len_nonneg (inputs m)). destruct Hm as (Hfi & Hm).
  rewrite Z.mod_add by lia. rewrite Z.mod_small by lia.
  by apply refocus_id.
Qed.

Lemma next_full_cycle_witness :
  Nat.iter 8 next (prev initialModel) = prev initialModel.
Proof.
  apply (next_full_cycle (prev initialModel)).
  by_compute.
Defined.

(** The backward keys belong to the navigation case and are not enter. *)
Lemma isPrevKey_nav s : isPrevKey s → isNavKey s ∧ s ≠ "enter".
Proof. intros [->| [->| ->]]; split; (by_compute || done). Qed.

(** C10. Backward navigation from the first field lands on Submit, the
    target at index [N], not on Cancel at [N + 1]. *)
Theorem prev_from_first_lands_on_submit m k :
  wf_model m → isPrevKey (Key_String k) → focusIndex m = 0 →
  focusIndex (Update m (KeyMsg k)).1 = len (inputs m).
Proof.
  intros (Hfi & Hlen & _) Hk H0.
  destruct (isPrevKey_nav _ Hk) as [Hnav Hne].
  rewrite Update_nav_key by done.
  rewrite UpdateFocus_refocus by (by intros [? _]).
  rewrite refocus_focusIndex, cycleIndex_backward by done.
  by rewrite decide_True.
Qed.

Lemma prev_from_first_lands_on_submit_witness :
  focusIndex (Update initialModel (key KeyShiftTab)).1 = len (inputs initialModel).
Proof.
  apply prev_from_first_lands_on_submit; [by_compute|by_compute|reflexivity].
Defined.

(** No backward move ends on Cancel: Cancel is entered by forward
    moves only. *)
Theorem prev_never_lands_on_cancel m k :
  wf_model m → isPrevKey (Key_String k) →
  focusIndex (Update m (KeyMsg k)).1 ≠ len (inputs (Update m (KeyMsg k)).1) + 1.
Proof.
  intros (Hfi & Hlen & _) Hk.
  destruct (isPrevKey_nav _ Hk) as [Hnav Hne].
  rewrite Update_nav_key by done.
  rewrite UpdateFocus_refocus by (by intros [? _]).
  rewrite refocus_focusIndex, refocus_len.
  by apply cycleIndex_backward_not_cancel.
Qed.

Lemma prev_never_lands_on_cancel_witness :
  focusIndex (Update initialModel (key KeyUp)).1
  ≠ len (inputs (Update initialModel (key KeyUp)).1) + 1.
Proof. apply prev_never_lands_on_cancel; by_compute. Defined.

(** ** Leaving the form *)

(** Enter over Submit, and enter anywhere else. *)
Lemma Update_enter_submit m k :
  Key_String k = "enter" → focusIndex m = len (inputs m) →
  Update m (KeyMsg k) = (m, tea_Quit).
Proof.
  intros Hk Hfi. rewrite Update_nav_key by (rewrite Hk; by_compute).
  unfold UpdateFocus. by rewrite decide_True.
Qed.

Lemma Update_enter_elsewhere m :
  focusIndex m ≠ len (inputs m) →
  Update m (key KeyEnter) = Update m (key KeyTab).
Proof.
  intros Hfi. unfold key. rewrite !Update_nav_key by by_compute.
  unfold UpdateFocus. rewrite !decide_False by (by intros [? ?]).
  unfold cycleIndex. by rewrite !decide_False by by_compute.
Qed.

(** C33. The quit keys return the quit command and the model as it was. *)
Theorem quit_keys_quit m k :
  Key_String k = "ctrl+c" ∨ Key_String k = "esc" →
  Update m (KeyMsg k) = (m, tea_Quit).
Proof. apply Update_quit_key. Qed.

Lemma quit_keys_quit_witness :
  Update (next initialModel) (key KeyEsc) = (next initialModel, tea_Quit).
Proof. apply quit_keys_quit. by right. Defined.

(** C32. Enter on Submit returns the quit command and the model as it
    was; nothing else happens. *)
Theorem enter_on_submit_quits m k :
  Key_String k = "enter" → focusIndex m = len (inputs m) →
  Update m (KeyMsg k) = (m, tea_Quit).
Proof. apply Update_enter_submit. Qed.

Lemma enter_on_submit_quits_witness :
  Update (prev initialModel) (key KeyEnter) = (prev initialModel, tea_Quit).
Proof. by apply enter_on_submit_quits. Defined.

(** C34. Away from Submit, enter moves the focus exactly as tab does. *)
Theorem enter_elsewhere_is_tab m :
  focusIndex m ≠ len (inputs m) →
  Update m (key KeyEnter) = Update m (key KeyTab).
Proof. apply Update_enter_elsewhere. Qed.

Lemma enter_elsewhere_is_tab_witness :
  Update initialModel (key KeyEnter) = Update initialModel (key KeyTab).
Proof. by apply enter_elsewhere_is_tab. Defined.

(** C35. Enter on Cancel does not leave the form: the focus wraps to the
    first field and no quit is requested. *)
Theorem enter_on_cancel_wraps m :
  wf_model m → focusIndex m = len (inputs m) + 1 →
  focusIndex (Update m (key KeyEnter)).1 = 0 ∧
  cmd_quits (Update m (key KeyEnter)).2 = false.
Proof.
  intros Hm Hfi. rewrite Update_enter_elsewhere by lia. split.
  - fold (next m). rewrite next_refocus by done. by rewrite decide_True.
  - unfold key. rewrite Update_nav_key by by_compute. unfold UpdateFocus.
    rewrite decide_False by (by intros [? ?]). apply focusInputs_no_quit.
Qed.

Lemma enter_on_cancel_wraps_witness :
  focusIndex (Update (next (prev initialModel)) (key KeyEnter)).1 = 0 ∧
  cmd_quits (Update (next (prev initialModel)) (key KeyEnter)).2 = false.
Proof. apply enter_on_cancel_wraps; [by_compute|reflexivity]. Defined.

(** ** When the program ends *)

Lemma setCursorModes_no_quit cm ins :
  cmd_quits (tea_Batch (setCursorModes cm ins).2) = false.
Proof.
  rewrite cmd_quits_Batch. simpl. apply not_true_iff_false.
  rewrite existsb_exists. intros (c & Hc & Hq).
  apply list_elem_of_In, list_elem_of_fmap in Hc as (t & -> & _).
  unfold cursor_SetMode in Hq. by repeat case_match.
Qed.

Lemma updateInputs_cmd m msg : (updateInputs m msg).2 = CmdNil.
Proof.
  simpl. apply tea_Batch_nil_all, Forall_fmap, Forall_true.
  intros t. apply textinput_Update_cmd.
Qed.

Lemma UpdateCursorMode_no_quit m : cmd_quits (UpdateCursorMode m).2 = false.
Proof. apply setCursorModes_no_quit. Qed.

Lemma UpdateFocus_no_quit s m :
  ¬ (s = "enter" ∧ focusIndex m = len (inputs m)) →
  cmd_quits (UpdateFocus s m).2 = false.
Proof.
  intros H. unfold UpdateFocus. rewrite decide_False by done.
  apply focusInputs_no_quit.
Qed.

(** When [Update] asks to quit. *)
Lemma cmd_quits_Update m msg :
  cmd_quits (Update m msg).2 = true ↔
  ∃ k, msg = KeyMsg k ∧
       (Key_String k = "ctrl+c" ∨ Key_String k = "esc" ∨
        (Key_String k = "enter" ∧ focusIndex m = len (inputs m))).
Proof.
  split.
  - destruct msg as [k|];
      [|by change (Update m OtherMsg) with (updateInputs m OtherMsg);
           rewrite updateInputs_cmd].
    intros Hq. exists k. split; [done|]. unfold Update in Hq.
    destruct (decide (_ ∨ _)) as [[?|?]|_]; [by auto..|].
    destruct (decide (_ = "ctrl+r")) as [_|_];
      [by rewrite UpdateCursorMode_no_quit in Hq|].
    destruct (decide (isNavKey _)) as [_|_]; [|by rewrite updateInputs_cmd in Hq].
    destruct (decide (Key_String k = "enter" ∧ focusIndex m = len (inputs m)));
      [by auto|by rewrite UpdateFocus_no_quit in Hq].
  - intros (k & -> & [H|[H|[H1 H2]]]).
    + by rewrite Update_quit_key by auto.
    + by rewrite Update_quit_key by auto.
    + by rewrite Update_enter_submit.
Qed.

(** C8. The program is asked to quit by a quit key and by enter on
    Submit, and by nothing else. *)
Theorem quit_exactly m msg :
  cmd_quits (Update m msg).2 = true ↔
  ∃ k, msg = KeyMsg k ∧
       (Key_String k = "ctrl+c" ∨ Key_String k = "esc" ∨
        (Key_String k = "enter" ∧ focusIndex m = len (inputs m))).
Proof. apply cmd_quits_Update. Qed.

(** ** The cursor mode *)

(** The model with every cursor set to mode [cm]. *)
Lemma setCursorModes_id cm fi ins :
  CursorBlink ≤ cm ≤ CursorHide →
  wf_fields fi cm ins → (setCursorModes cm ins).1 = ins.
Proof.
  intros Hcm Hins. simpl. rewrite <- (list_fmap_id ins) at 2.
  apply list_fmap_ext. intros i t Ht.
  destruct (Hins i t Ht) as ((_ & _ & _ & Hc) & _).
  destruct t as [p l ps ts c v f q]. simpl in *. subst c.
  unfold set_Cursor, cursor_SetMode. simpl.
  replace (_ || _) with false; [done|].
  unfold CursorBlink, CursorHide in *. symmetry. apply orb_false_iff.
  split; apply Z.ltb_ge; lia.
Qed.

Lemma setCursorModes_twice c1 c2 ins :
  CursorBlink ≤ c1 ≤ CursorHide → CursorBlink ≤ c2 ≤ CursorHide →
  (setCursorModes c1 (setCursorModes c2 ins).1).1 = (setCursorModes c1 ins).1.
Proof.
  intros H1 H2. simpl. rewrite <- list_fmap_compose.
  apply list_fmap_ext. intros i t _. simpl. unfold cursor_SetMode.
  replace (_ || _) with false
    by (unfold CursorBlink, CursorHide in *; symmetry; apply orb_false_iff;
        split; apply Z.ltb_ge; lia).
  replace (_ || _) with false
    by (unfold CursorBlink, CursorHide in *; symmetry; apply orb_false_iff;
        split; apply Z.ltb_ge; lia).
  done.
Qed.

Lemma cycleCursorMode_thrice cm :
  CursorBlink ≤ cm ≤ CursorHide →
  cycleCursorMode (cycleCursorMode (cycleCursorMode cm)) = cm.
Proof.
  unfold CursorBlink, CursorHide. intros Hcm.
  assert (cm = 0 ∨ cm = 1 ∨ cm = 2) as [->|[->| ->]] by lia; reflexivity.
Qed.

(** One press of ctrl+r. *)
Lemma nextMode_eq m :
  nextMode m
  = mkModel (focusIndex m)
      (setCursorModes (cycleCursorMode (cursorMode m)) (inputs m)).1
      (cycleCursorMode (cursorMode m)).
Proof. unfold nextMode, key. by rewrite Update_mode_key. Qed.

(** C16. The cursor mode has period three: three presses of ctrl+r bring a
    well-formed model back to itself, every cursor included. *)
Theorem cursor_mode_period_three m :
  wf_model m →
  Nat.iter 3 nextMode m = m.
Proof.
  intros (Hfi & Hlen & Hcm & Hins). cbn [Nat.iter nat_rect].
  rewrite !nextMode_eq. cbn [focusIndex inputs cursorMode].
  pose proof (cycleCursorMode_range _ Hcm) as H1.
  pose proof (cycleCursorMode_range _ H1) as H2.
  pose proof (cycleCursorMode_range _ H2) as H3.
  rewrite !setCursorModes_twice by done.
  rewrite cycleCursorMode_thrice by done.
  rewrite (setCursorModes_id _ (focusIndex m)) by done. by destruct m.
Qed.

Lemma cursor_mode_period_three_witness :
  Nat.iter 3 nextMode (next initialModel) = next initialModel.
Proof. apply cursor_mode_period_three. by_compute. Defined.
