(* ===== verification/FormEdit.v ===== *)
(** * FormEdit: editing the fields

    The behaviour of [Update] on the messages it hands to the text inputs:
    which field they reach, what the character limit does, and what stays
    fixed in every reachable model. *)

From S2P Require Import Prelude Tea TextInput Form FormInv FormNav.

Local Open Scope Z_scope.

(** ** Editing *)

(** The texts of the fields. *)
Lemma Update_length m msg : length (inputs (Update m msg).1) = length (inputs m).
Proof.
  unfold Update, UpdateQuit, UpdateCursorMode, UpdateFocus, updateInputs.
  destruct msg; repeat case_decide; simpl; by rewrite ?length_fmap, ?length_imap.
Qed.

(** No message changes a placeholder or a character limit. *)
Lemma Update_layout m msg : layout (Update m msg).1 = layout m.
Proof.
  unfold layout, Update, UpdateQuit, UpdateCursorMode, UpdateFocus, updateInputs.
  destruct msg; repeat case_decide; simpl; try done;
    rewrite <- ?list_fmap_compose, ?fmap_imap.
  - by apply list_fmap_ext.
  - rewrite <- (imap_const (λ t, (Placeholder t, CharLimit t))).
    apply imap_ext. intros i t _. simpl.
    by destruct (focusInput_frame (cycleIndex (Key_String k) m) i t) as (-> & -> & _).
  - apply list_fmap_ext. intros i t _. simpl.
    by destruct (textinput_Update_frame t (KeyMsg k)) as (-> & -> & _).
  - apply list_fmap_ext. intros i t _. simpl.
    by destruct (textinput_Update_frame t OtherMsg) as (-> & -> & _).
Qed.

Lemma reachable_layout m : reachable m → layout m = layout initialModel.
Proof. induction 1 as [|m msg _ IH _]; [done|]. by rewrite Update_layout. Qed.

Lemma reachable_length m : reachable m → length (inputs m) = 6%nat.
Proof.
  intros Hr. apply reachable_layout in Hr.
  apply (f_equal length) in Hr. unfold layout in Hr.
  by rewrite !length_fmap in Hr.
Qed.

(** C20. In every reachable model the form has exactly its six fields, the
    first holds at most 32 runes and the others at most 64. *)
Theorem reachable_char_limits m i t :
  reachable m → inputs m !! i = Some t →
  length (inputs m) = 6%nat ∧
  (i < 6)%nat ∧ len (value t) ≤ (if decide (i = 0%nat) then 32 else 64).
Proof.
  intros Hr Ht. split; [by apply reachable_length|].
  pose proof (reachable_layout m Hr) as Hl.
  destruct (wf_reachable m Hr) as (_ & _ & _ & Hins).
  destruct (Hins i t Ht) as (_ & Hpos & Hw & _). specialize (Hw Hpos).
  assert (layout m !! i = Some (Placeholder t, CharLimit t)) as Hi
    by (unfold layout; by rewrite list_lookup_fmap, Ht).
  rewrite Hl in Hi. clear -Hi Hw.
  do 6 (destruct i as [|i];
    [simpl in Hi; injection Hi as _ Hc; rewrite <- Hc in Hw; split; [lia|done]|]).
  done.
Qed.

Lemma reachable_char_limits_witness :
  length (inputs (Update initialModel (typed [104])).1) = 6%nat ∧
  (0 < 6)%nat ∧
  len (value (set_value [104] 1 (initialInput 0)))
  ≤ (if decide (0%nat = 0%nat) then 32 else 64).
Proof.
  apply (reachable_char_limits (Update initialModel (typed [104])).1 0).
  - apply reachable_step; [apply reachable_init|by vm_compute].
  - by vm_compute.
Defined.

(** One typed rune is no key of the switch: it reaches [updateInputs]. *)
Lemma typed_rune_falls_through m r :
  Update m (typed [r]) = updateInputs m (typed [r]).
Proof.
  unfold typed. apply Update_other_key.
  - intros [H|H].
    + by apply (single_rune_not_named r KeyCtrlC).
    + by apply (single_rune_not_named r KeyEsc).
  - by apply (single_rune_not_named r KeyCtrlR).
  - unfold isNavKey. rewrite !elem_of_cons, elem_of_nil.
    intros [H|[H|[H|[H|[H|[H|[H|[]]]]]]]].
    + by apply (single_rune_not_named r KeyTab).
    + by apply (single_rune_not_named r KeyShiftTab).
    + by apply (single_rune_not_named r KeyEnter).
    + by apply (single_rune_not_named r KeyUp).
    + by apply (single_rune_not_named r KeyLeft).
    + by apply (single_rune_not_named r KeyRight).
    + by apply (single_rune_not_named r KeyDown).
Qed.

(** The input a message leaves in place of [t] at index [i]. *)
Lemma updateInputs_lookup m msg i :
  inputs (updateInputs m msg).1 !! i
  = (λ t, (textinput_Update t msg).1) <$> inputs m !! i.
Proof. simpl. by rewrite list_lookup_fmap. Qed.

(** C23. A message changes the text of no field but the focused one. *)
Theorem unfocused_values_kept m msg i t :
  wf_model m → inputs m !! i = Some t → Z.of_nat i ≠ focusIndex m →
  ∃ t', inputs (Update m msg).1 !! i = Some t' ∧
        value t' = value t ∧ pos t' = pos t.
Proof.
  intros (_ & _ & _ & Hins) Ht Hne.
  destruct (Hins i t Ht) as ((Hf & _) & _).
  rewrite bool_decide_eq_false_2 in Hf by done.
  assert (inputs (updateInputs m msg).1 !! i = Some t) as Hu
    by (by rewrite updateInputs_lookup, Ht; simpl;
        rewrite textinput_Update_blurred).
  unfold Update, UpdateQuit, UpdateCursorMode, UpdateFocus.
  destruct msg as [k|]; [|by eauto].
  repeat case_decide; simpl; eauto.
  - rewrite list_lookup_fmap, Ht. simpl. eauto.
  - rewrite list_lookup_imap, Ht. simpl. eexists. split; [done|].
    by destruct (focusInput_frame (cycleIndex (Key_String k) m) i t)
      as (_ & _ & -> & -> & _).
Qed.

Lemma unfocused_values_kept_witness :
  ∃ t', inputs (Update initialModel (typed [104])).1 !! 1%nat = Some t' ∧
        value t' = value (initialInput 1) ∧ pos t' = pos (initialInput 1).
Proof.
  apply (unfocused_values_kept initialModel (typed [104]) 1 (initialInput 1));
    [by_compute|reflexivity|done].
Defined.

(** C19. Typing into a focused field that is full changes nothing: the
    model stays as it is and nothing is asked of the runtime. *)
Theorem typing_at_limit_is_noop m r i t :
  wf_model m → inputs m !! i = Some t → Z.of_nat i = focusIndex m →
  len (value t) = CharLimit t →
  Update m (typed [r]) = (m, CmdNil).
Proof.
  intros (_ & _ & _ & Hins) Ht Hi Hfull.
  rewrite typed_rune_falls_through.
  rewrite (surjective_pairing (updateInputs _ _)), updateInputs_cmd. f_equal.
  destruct m as [fi ins cm]. unfold updateInputs. simpl in *. f_equal.
  rewrite <- (list_fmap_id ins) at 2. apply list_fmap_ext. intros j u Hu.
  destruct (Hins j u Hu) as ((Hf & _) & Hl & _). simpl.
  destruct (decide (Z.of_nat j = fi)) as [Hj|Hj].
  - assert (j = i) as -> by lia. assert (u = t) as -> by congruence.
    unfold textinput_Update. rewrite Hf, bool_decide_eq_true_2 by done. simpl.
    by apply insertRunes_full.
  - rewrite bool_decide_eq_false_2 in Hf by done.
    by rewrite textinput_Update_blurred.
Qed.

(** C26. Typing a rune into a focused field with room inserts it at the
    caret and moves the caret one place on. *)
Theorem typing_inserts_at_caret m r i t :
  wf_model m → inputs m !! i = Some t → Z.of_nat i = focusIndex m →
  len (value t) < CharLimit t →
  ∃ t', inputs (Update m (typed [r])).1 !! i = Some t' ∧
        value t' = take (pos t) (value t) ++ r :: drop (pos t) (value t) ∧
        pos t' = S (pos t).
Proof.
  intros (_ & _ & _ & Hins) Ht Hi Hroom.
  destruct (Hins i t Ht) as ((Hf & _) & _).
  rewrite bool_decide_eq_true_2 in Hf by done.
  rewrite typed_rune_falls_through, updateInputs_lookup, Ht. simpl.
  eexists. split; [done|]. unfold textinput_Update. rewrite Hf. simpl.
  by apply insertRunes_room.
Qed.

Lemma typing_inserts_at_caret_witness :
  ∃ t', inputs (Update initialModel (typed [104])).1 !! 0%nat = Some t' ∧
        value t' = take 0 [] ++ 104 :: drop 0 [] ∧ pos t' = 1%nat.
Proof.
  apply (typing_inserts_at_caret initialModel 104 0 (initialInput 0));
    [by_compute|reflexivity|reflexivity|by vm_compute].
Defined.

(** A model whose first field is full. *)
Lemma typing_at_limit_is_noop_witness :
  Update (Nat.iter 32 (λ m, (Update m (typed [97])).1) initialModel) (typed [98])
  = (Nat.iter 32 (λ m, (Update m (typed [97])).1) initialModel, CmdNil).
Proof.
  apply (typing_at_limit_is_noop _ 98 0
           (set_value (replicate 32 97) 32 (initialInput 0)));
    [by_compute|by vm_compute|reflexivity|reflexivity].
Defined.

(** The focus flags of a well-formed model, counted. *)
Lemma wf_focused_count m :
  wf_model m →
  length (filter (λ t, focus t = true) (inputs m))
  = if decide (focusIndex m < len (inputs m)) then 1%nat else 0%nat.
Proof.
  intros (Hfi & _ & _ & Hins).
  rewrite (filter_indexed_unique _ _ (Z.to_nat (focusIndex m))).
  - unfold len. repeat case_decide; lia.
  - intros i t Ht. destruct (Hins i t Ht) as ((-> & _) & _).
    rewrite bool_decide_eq_true. lia.
Qed.

(** C29. Whatever messages [Update] has handled since [initialModel], at
    most one field is focused: exactly one while the focus index
    addresses one of the six fields, none while it addresses Submit or
    Cancel. *)
Theorem focused_fields_count m :
  reachable m →
  length (filter (λ t, focus t = true) (inputs m))
  = if decide (focusIndex m < 6) then 1%nat else 0%nat.
Proof.
  intros Hr. rewrite (wf_focused_count m) by by apply wf_reachable.
  unfold len. by rewrite (reachable_length m Hr).
Qed.

Lemma focused_fields_count_witness :
  length (filter (λ t, focus t = true) (inputs (prev initialModel)))
  = if decide (focusIndex (prev initialModel) < 6) then 1%nat else 0%nat.
Proof.
  apply (focused_fields_count (prev initialModel)).
  apply (reachable_step initialModel (key KeyShiftTab));
    [apply reachable_init|by vm_compute].
Defined.
