(* ===== verification/FormSpec.v ===== *)
(** * FormSpec: the form as a state machine, and the refinement

    The specification of the form controller, as an abstract machine: a
    state that holds the focus index, the cursor mode and, for every
    field, its placeholder, limit, text and caret ([AForm]); key presses
    read as intents ([intent_of]); and one step of the machine
    ([a_step]) into one of the phases [Editing], [Committed] and
    [Abandoned].  The machine knows no styles, cursors or focus flags.

    The code is related to it by the abstraction function [abs], which
    forgets what the focus loop derives.  [Update_refines] shows that
    every step of [Update] on a well-formed model is the step of the
    machine, with one exception that the statement names: enter on
    Cancel, where the machine stays and the code wraps to the first
    field.  Nothing is lost in the abstraction: a well-formed model is
    rebuilt from its abstraction by [concr], and [Update_concr] shows that
    the model [Update] returns is the concretisation of the state the
    machine moves to, so that [Update] as a whole, with the styles, the
    focus flags and the cursors it sets, is a function of the machine. *)

From S2P Require Import Prelude Tea TextInput Form FormInv FormNav.

Local Open Scope Z_scope.

(** ** The abstract state *)

Record AField : Type := mkAField {
  a_placeholder : string;
  a_limit : Z;
  a_value : list rune;
  a_caret : nat;
}.

Record AForm : Type := mkAForm {
  a_focus : Z;
  a_mode : Z;
  a_fields : list AField;
}.

Inductive Phase : Type :=
  | Editing (f : AForm)
  | Committed (f : AForm)
  | Abandoned.

#[export] Instance AField_eq_dec : EqDecision AField.
Proof. solve_decision. Defined.

#[export] Instance AForm_eq_dec : EqDecision AForm.
Proof. solve_decision. Defined.

#[export] Instance Phase_eq_dec : EqDecision Phase.
Proof. solve_decision. Defined.

(** ** Intents *)

Inductive Intent : Type :=
  | Next | Previous | Activate | CycleMode | Quit | Edit.

#[export] Instance Intent_eq_dec : EqDecision Intent.
Proof. solve_decision. Defined.

Definition intent_of (msg : Msg) : Intent :=
  match msg with
  | OtherMsg => Edit
  | KeyMsg k =>
      let s := Key_String k in
      if decide (s ∈ ["esc"; "ctrl+c"]) then Quit
      else if decide (s = "ctrl+r") then CycleMode
      else if decide (s = "enter") then Activate
      else if decide (s ∈ ["tab"; "down"; "right"]) then Next
      else if decide (s ∈ ["shift+tab"; "up"; "left"]) then Previous
      else Edit
  end.

(** ** The steps of the machine *)

(** Forward past Cancel is the first field; backward before the first
    field is Submit. *)
Definition a_next (f : AForm) : Z :=
  if decide (a_focus f = len (a_fields f) + 1) then 0 else a_focus f + 1.

Definition a_prev (f : AForm) : Z :=
  if decide (a_focus f = 0) then len (a_fields f) else a_focus f - 1.

Definition a_cycle (c : Z) : Z := (c + 1) mod 3.

(** Editing a field: typed runes enter at the caret as far as the limit
    leaves room, backspace and delete remove the rune before and under the
    caret, home and end move the caret. *)
Definition a_type (rs : list rune) (fld : AField) : AField :=
  let room := a_limit fld - len (a_value fld) in
  if decide (0 < a_limit fld ∧ room ≤ 0) then fld
  else
    let rs := if decide (0 < a_limit fld) then take (Z.to_nat room) rs else rs in
    mkAField (a_placeholder fld) (a_limit fld)
      (take (a_caret fld) (a_value fld) ++ rs ++ drop (a_caret fld) (a_value fld))
      (a_caret fld + length rs).

Definition a_edit (msg : Msg) (fld : AField) : AField :=
  let put v c := mkAField (a_placeholder fld) (a_limit fld) v c in
  match msg with
  | OtherMsg => fld
  | KeyMsg k =>
      match Key_Type k with
      | KeyBackspace =>
          if decide (a_caret fld = 0%nat) then fld
          else put (delete (a_caret fld - 1)%nat (a_value fld)) (a_caret fld - 1)%nat
      | KeyDelete => put (delete (a_caret fld) (a_value fld)) (a_caret fld)
      | KeyHome => put (a_value fld) 0%nat
      | KeyEnd => put (a_value fld) (length (a_value fld))
      | _ => a_type (Key_Runes k) fld
      end
  end.

Definition with_focus (i : Z) (f : AForm) : AForm :=
  mkAForm i (a_mode f) (a_fields f).

Definition a_step (f : AForm) (msg : Msg) : Phase :=
  match intent_of msg with
  | Quit => Abandoned
  | Activate =>
      if decide (a_focus f = len (a_fields f)) then Committed f
      else if decide (a_focus f = len (a_fields f) + 1) then Editing f
      else Editing (with_focus (a_next f) f)
  | Next => Editing (with_focus (a_next f) f)
  | Previous => Editing (with_focus (a_prev f) f)
  | CycleMode => Editing (mkAForm (a_focus f) (a_cycle (a_mode f)) (a_fields f))
  | Edit =>
      Editing (mkAForm (a_focus f) (a_mode f)
                 (imap (λ i fld, if decide (Z.of_nat i = a_focus f)
                                 then a_edit msg fld else fld) (a_fields f)))
  end.

(** What is seen of a phase from outside: the form while it is edited. *)
Definition visible (p : Phase) : option AForm :=
  match p with
  | Editing f => Some f
  | _ => None
  end.

(** ** Abstraction and concretisation *)

Definition abs_field (t : textinput_Model) : AField :=
  mkAField (Placeholder t) (CharLimit t) (value t) (pos t).

Definition abs (m : model) : AForm :=
  mkAForm (focusIndex m) (cursorMode m) (abs_field <$> inputs m).

(** What is seen of a result of [Update]. *)
Definition observed (r : model * Cmd) : option AForm :=
  if cmd_quits r.2 then None else Some (abs r.1).

Definition concr_field (fi : Z) (cm : Mode) (i : nat) (fld : AField) : textinput_Model :=
  let foc := bool_decide (Z.of_nat i = fi) in
  let st := if foc then focusedStyle else noStyle in
  mkInput (a_placeholder fld) (a_limit fld) st st
    (mkCursor cursorStyle cm foc (bool_decide (cm = CursorHide) || negb foc))
    (a_value fld) foc (a_caret fld).

Definition concr (f : AForm) : model :=
  mkModel (a_focus f) (imap (concr_field (a_focus f) (a_mode f)) (a_fields f))
    (a_mode f).

(** Enter pressed while the focus is on Cancel. *)
Definition activates_cancel (m : model) (msg : Msg) : Prop :=
  intent_of msg = Activate ∧ focusIndex m = len (inputs m) + 1.

#[export] Instance activates_cancel_dec m msg : Decision (activates_cancel m msg).
Proof. unfold activates_cancel. apply _. Defined.

(** ** Intents and the key switch *)

Lemma intent_of_key k :
  let s := Key_String k in
  match intent_of (KeyMsg k) with
  | Quit => s = "ctrl+c" ∨ s = "esc"
  | CycleMode => s = "ctrl+r"
  | Activate => s = "enter"
  | Next => isNavKey s ∧ ¬ isPrevKey s ∧ s ≠ "enter"
  | Previous => isPrevKey s
  | Edit => ¬ (s = "ctrl+c" ∨ s = "esc") ∧ s ≠ "ctrl+r" ∧ ¬ isNavKey s
  end.
Proof.
  unfold intent_of, isNavKey, isPrevKey. simpl.
  repeat case_decide; rewrite ?elem_of_cons, ?elem_of_nil in *;
    intuition congruence.
Qed.

(** ** The abstraction of each branch *)

Lemma len_abs m : len (a_fields (abs m)) = len (inputs m).
Proof. simpl. by rewrite len_fmap. Qed.

Lemma abs_refocus fi m : abs (refocus fi m) = with_focus fi (abs m).
Proof.
  unfold abs, refocus, with_focus. simpl. f_equal.
  apply list_eq. intros i. rewrite !list_lookup_fmap, list_lookup_imap.
  destruct (inputs m !! i) as [t|]; [|done]. simpl. f_equal.
  destruct (focusInput_frame fi i t) as (Hp & Hl & Hv & Hq & _).
  unfold abs_field. by rewrite Hp, Hl, Hv, Hq.
Qed.

Lemma cycleCursorMode_a_cycle cm :
  CursorBlink ≤ cm ≤ CursorHide → cycleCursorMode cm = a_cycle cm.
Proof.
  intros Hcm. rewrite cycleCursorMode_spec by done.
  unfold a_cycle, CursorBlink, CursorHide in *. case_decide; div_lia.
Qed.

Lemma abs_UpdateCursorMode m :
  abs (UpdateCursorMode m).1
  = mkAForm (focusIndex m) (cycleCursorMode (cursorMode m)) (a_fields (abs m)).
Proof.
  unfold abs, UpdateCursorMode. simpl. f_equal.
  rewrite <- list_fmap_compose. by apply list_fmap_ext.
Qed.

Lemma abs_insertRunes rs t : abs_field (insertRunes rs t) = a_type rs (abs_field t).
Proof.
  unfold insertRunes, a_type, abs_field. simpl.
  destruct (0 <? CharLimit t) eqn:H1; destruct (_ <=? 0) eqn:H2; simpl;
    repeat case_decide; try done; lia.
Qed.

Lemma abs_textinput_Update t msg :
  wf_input t → focus t = true →
  abs_field (textinput_Update t msg).1 = a_edit msg (abs_field t).
Proof.
  intros [_ Hpos] Hf. unfold textinput_Update. rewrite Hf. simpl.
  destruct msg as [k|]; [|done]. unfold a_edit.
  destruct (Key_Type k); simpl; try apply abs_insertRunes; try done.
  - unfold deleteBackward, abs_field. simpl. case_decide as Hc.
    + destruct (value t) as [|r v] eqn:Hv; [by rewrite Hv|]. by rewrite Hc.
    + destruct (value t) as [|r v] eqn:Hv; [simpl in Hpos; lia|].
      simpl. rewrite delete_take_drop.
      by replace (S (pos t - 1)) with (pos t) by lia.
  - unfold deleteForward, abs_field. case_decide; simpl.
    + by rewrite delete_take_drop.
    + rewrite delete_take_drop, take_ge, drop_ge by lia. by rewrite app_nil_r.
Qed.

Lemma abs_updateInputs m msg :
  wf_model m →
  abs (updateInputs m msg).1
  = mkAForm (focusIndex m) (cursorMode m)
      (imap (λ i fld, if decide (Z.of_nat i = focusIndex m)
                      then a_edit msg fld else fld) (a_fields (abs m))).
Proof.
  intros (_ & _ & _ & Hins). unfold abs, updateInputs. simpl. f_equal.
  apply list_eq. intros i.
  rewrite list_lookup_imap, !list_lookup_fmap.
  destruct (inputs m !! i) as [t|] eqn:Ht; [|done]. simpl. f_equal.
  destruct (Hins i t Ht) as ((Hf & _) & _ & Hw).
  case_decide.
  - apply abs_textinput_Update; [done|]. by rewrite Hf, bool_decide_eq_true_2.
  - rewrite textinput_Update_blurred; [done|]. by rewrite Hf, bool_decide_eq_false_2.
Qed.

(** ** The navigation case *)

Lemma observed_nav m s :
  wf_model m → isNavKey s → ¬ (s = "enter" ∧ focusIndex m = len (inputs m)) →
  observed (UpdateFocus s m) = Some (with_focus (cycleIndex s m) (abs m)).
Proof.
  intros Hm Hs Hn. unfold observed.
  rewrite UpdateFocus_no_quit by done.
  by rewrite UpdateFocus_refocus, abs_refocus.
Qed.

Lemma cycleIndex_a_next m s :
  wf_model m → ¬ isPrevKey s → cycleIndex s m = a_next (abs m).
Proof.
  intros (Hfi & Hlen & _) Hs. rewrite cycleIndex_forward by done.
  unfold a_next. by rewrite len_abs.
Qed.

Lemma cycleIndex_a_prev m s :
  wf_model m → isPrevKey s → cycleIndex s m = a_prev (abs m).
Proof.
  intros (Hfi & Hlen & _) Hs. rewrite cycleIndex_backward by done.
  unfold a_prev. by rewrite len_abs.
Qed.

(** ** Refinement *)

Lemma refines_key m k :
  wf_model m → ¬ activates_cancel m (KeyMsg k) →
  observed (Update m (KeyMsg k)) = visible (a_step (abs m) (KeyMsg k)).
Proof.
  intros Hm Hc. pose proof (intent_of_key k) as Hk.
  unfold activates_cancel in Hc. unfold a_step. rewrite len_abs.
  destruct (intent_of (KeyMsg k)); cbv beta iota zeta in Hk; cbn [visible a_focus abs].
  - destruct Hk as (Hn & Hp & He). rewrite Update_nav_key by done.
    rewrite observed_nav by (done || by intros [? _]).
    by rewrite (cycleIndex_a_next m) by done.
  - destruct (isPrevKey_nav _ Hk) as [Hn He].
    rewrite Update_nav_key by done.
    rewrite observed_nav by (done || by intros [? _]).
    by rewrite (cycleIndex_a_prev m) by done.
  - rewrite Update_nav_key by (rewrite Hk; by_compute). rewrite Hk.
    case_decide as H1; [unfold UpdateFocus; by rewrite decide_True|].
    rewrite decide_False by (intros ?; by apply Hc).
    rewrite observed_nav by (done || by_compute || by intros [_ ?]).
    by rewrite (cycleIndex_a_next m) by (done || by_compute).
  - rewrite Update_mode_key by done. unfold observed.
    rewrite UpdateCursorMode_no_quit, abs_UpdateCursorMode.
    destruct Hm as (_ & _ & Hcm & _). by rewrite cycleCursorMode_a_cycle.
  - by rewrite Update_quit_key.
  - destruct Hk as (H1 & H2 & H3). rewrite Update_other_key by done.
    unfold observed. rewrite updateInputs_cmd. simpl cmd_quits. cbn match.
    by rewrite abs_updateInputs.
Qed.

Lemma refines_step m msg :
  wf_model m → ¬ activates_cancel m msg →
  observed (Update m msg) = visible (a_step (abs m) msg).
Proof.
  intros Hm Hc. destruct msg as [k|]; [by apply refines_key|].
  change (Update m OtherMsg) with (updateInputs m OtherMsg).
  unfold observed. rewrite updateInputs_cmd. simpl cmd_quits. cbn match.
  by rewrite abs_updateInputs.
Qed.

(** C2. [Update] implements the machine: on a well-formed model every
    message but enter on Cancel has the effect the machine prescribes; the
    program is asked to quit exactly when the machine leaves [Editing],
    and otherwise the new model abstracts to the new state. *)
Theorem Update_refines m msg :
  wf_model m → ¬ activates_cancel m msg →
  observed (Update m msg) = visible (a_step (abs m) msg).
Proof. apply refines_step. Qed.

Lemma Update_refines_witness :
  observed (Update initialModel (typed [104]))
  = visible (a_step (abs initialModel) (typed [104])).
Proof. apply (Update_refines initialModel (typed [104])); by_compute. Defined.

(** C15. On enter over Cancel the code leaves the machine: the machine
    stays where it is, the code moves the focus to the first field. *)
Theorem Update_cancel_diverges m :
  wf_model m → focusIndex m = len (inputs m) + 1 →
  a_step (abs m) (key KeyEnter) = Editing (abs m) ∧
  observed (Update m (key KeyEnter)) = Some (with_focus 0 (abs m)) ∧
  with_focus 0 (abs m) ≠ abs m.
Proof.
  intros Hm Hfi. pose proof (len_nonneg (inputs m)). split_and!.
  - unfold a_step. change (intent_of (key KeyEnter)) with Activate.
    rewrite len_abs. simpl a_focus. by rewrite decide_False, decide_True by lia.
  - unfold key. rewrite Update_nav_key by by_compute.
    rewrite observed_nav by (done || by_compute || (intros [_ ?]; lia)).
    rewrite (cycleIndex_a_next m) by (done || by_compute).
    unfold a_next. rewrite len_abs. simpl a_focus. by rewrite decide_True.
  - unfold with_focus, abs. intros [= E]. lia.
Qed.

Lemma Update_cancel_diverges_witness :
  let m := next (prev initialModel) in
  a_step (abs m) (key KeyEnter) = Editing (abs m) ∧
  observed (Update m (key KeyEnter)) = Some (with_focus 0 (abs m)) ∧
  with_focus 0 (abs m) ≠ abs m.
Proof. apply (Update_cancel_diverges (next (prev initialModel))); by_compute. Defined.

(** ** Nothing is lost in the abstraction *)

Lemma concr_abs_field fi cm i t :
  wf_focus fi cm i t → concr_field fi cm i (abs_field t) = t.
Proof.
  destruct t as [p l ps ts c v f q]. unfold wf_focus, concr_field. simpl.
  by intros (-> & -> & -> & ->).
Qed.

(** A well-formed model is the concretisation of its abstraction. *)
Lemma concr_abs m : wf_model m → concr (abs m) = m.
Proof.
  intros (_ & _ & _ & Hins). destruct m as [fi ins cm]. unfold concr, abs.
  simpl in *. f_equal. rewrite imap_fmap. apply imap_id_ext.
  intros i t Ht. apply concr_abs_field. by destruct (Hins i t Ht).
Qed.

(** Well-formed models with the same abstraction are the same model. *)
Lemma abs_inj m1 m2 : wf_model m1 → wf_model m2 → abs m1 = abs m2 → m1 = m2.
Proof.
  intros H1 H2 E. rewrite <- (concr_abs m1), <- (concr_abs m2) by done.
  by rewrite E.
Qed.

(** ** [Update] as a function of the machine *)

(** C14. [Update] computes the concretisation of the step of the machine.
    On a well-formed model and a message other than enter on Cancel, when
    the machine moves to the state [f], the model [Update] returns is
    [concr f] in full, with the focus flag, the two styles and the cursor
    of every input, and no quit is requested. *)
Theorem Update_concr m msg f :
  wf_model m → ¬ activates_cancel m msg →
  a_step (abs m) msg = Editing f →
  (Update m msg).1 = concr f ∧ cmd_quits (Update m msg).2 = false.
Proof.
  intros Hm Hc Hf. pose proof (refines_step m msg Hm Hc) as Hr.
  rewrite Hf in Hr. unfold observed in Hr. simpl in Hr.
  destruct (cmd_quits (Update m msg).2); [done|]. injection Hr as <-.
  split; [|done]. symmetry. by apply concr_abs, wf_Update.
Qed.

Lemma Update_concr_witness :
  (Update initialModel (key KeyTab)).1 = concr (with_focus 1 (abs initialModel)) ∧
  cmd_quits (Update initialModel (key KeyTab)).2 = false.
Proof.
  apply (Update_concr initialModel (key KeyTab));
    [by_compute|by_compute|by vm_compute].
Defined.
