(* ===== verification/Utf8.v ===== *)
(** * Utf8: texts as bytes, and the runes in them

    Package [unicode/utf8] as the JSON encoder uses it: [DecodeRune] reads
    the rune at the start of a text and says how many bytes it takes;
    a byte that starts no well-formed sequence reads as U+FFFD of width
    one.  [chunks] cuts a text into its runes with the bytes of each,
    [runes] is the conversion [[]rune(s)], and [coerce_text] is
    [string([]rune(s))]: the text with every stray byte replaced by the
    three bytes of U+FFFD.

    The encoder of single runes is [utf8_of_rune] of [Tea]; here it is
    shown that decoding undoes it, whatever text follows, and that
    encoding undoes decoding on well-formed sequences. *)

From S2P Require Import Prelude Tea.

Local Open Scope Z_scope.

(** ** Texts *)

(** A text is a list of bytes; Go's [string] and [[]byte] alike. *)
Definition text : Type := list Ascii.ascii.

Definition byte (a : Ascii.ascii) : Z := Z.of_N (Ascii.N_of_ascii a).

Definition text_of_string : string → text := String.list_ascii_of_string.
Definition string_of_text : text → string := String.string_of_list_ascii.

(** ** Decoding *)

(** [utf8.RuneError]. *)
Definition RuneError : rune := 65533.

(** The table [first] with [acceptRanges]: for a lead byte, the length of
    its sequence and the range of the second byte. *)
Definition accept (b0 : Z) : option (nat * Z * Z) :=
  if b0 <? 194 then None
  else if b0 <? 224 then Some (2%nat, 128, 191)
  else if b0 =? 224 then Some (3%nat, 160, 191)
  else if b0 =? 237 then Some (3%nat, 128, 159)
  else if b0 <? 240 then Some (3%nat, 128, 191)
  else if b0 =? 240 then Some (4%nat, 144, 191)
  else if b0 <? 244 then Some (4%nat, 128, 191)
  else if b0 =? 244 then Some (4%nat, 128, 143)
  else None.

Definition within (lo hi b : Z) : bool := (lo <=? b) && (b <=? hi).

(** [utf8.DecodeRune]: the rune at the start of the text and its width. *)
Definition DecodeRune (s : text) : rune * nat :=
  match s with
  | [] => (RuneError, 0%nat)
  | a0 :: s1 =>
    let b0 := byte a0 in
    if b0 <? 128 then (b0, 1%nat) else
    match accept b0 with
    | None => (RuneError, 1%nat)
    | Some (sz, lo, hi) =>
      match s1 with
      | a1 :: s2 =>
        let b1 := byte a1 in
        if negb (within lo hi b1) then (RuneError, 1%nat)
        else if (sz <=? 2)%nat then
          (Z.lor (Z.shiftl (Z.land b0 31) 6) (Z.land b1 63), 2%nat)
        else
          match s2 with
          | a2 :: s3 =>
            let b2 := byte a2 in
            if negb (within 128 191 b2) then (RuneError, 1%nat)
            else if (sz <=? 3)%nat then
              (Z.lor (Z.lor (Z.shiftl (Z.land b0 15) 12)
                            (Z.shiftl (Z.land b1 63) 6))
                     (Z.land b2 63), 3%nat)
            else
              match s3 with
              | a3 :: _ =>
                let b3 := byte a3 in
                if negb (within 128 191 b3) then (RuneError, 1%nat)
                else
                  (Z.lor (Z.lor (Z.lor (Z.shiftl (Z.land b0 7) 18)
                                       (Z.shiftl (Z.land b1 63) 12))
                                (Z.shiftl (Z.land b2 63) 6))
                         (Z.land b3 63), 4%nat)
              | [] => (RuneError, 1%nat)
              end
          | [] => (RuneError, 1%nat)
          end
      | [] => (RuneError, 1%nat)
      end
    end
  end.

(** The runes of a text, each with its bytes.  The fuel is the length of
    the text: every rune takes a byte at least. *)
Fixpoint chunks_fuel (n : nat) (s : text) : list (rune * text) :=
  match n, s with
  | S n, _ :: _ =>
      let '(r, k) := DecodeRune s in (r, take k s) :: chunks_fuel n (drop k s)
  | _, _ => []
  end.

Definition chunks (s : text) : list (rune * text) := chunks_fuel (length s) s.

(** [[]rune(s)]. *)
Definition runes (s : text) : list rune := (chunks s).*1.

(** [utf8.AppendRune]: the bytes of a rune. *)
Definition utf8 (r : rune) : text := text_of_string (utf8_of_rune r).

(** [string([]rune(s))]. *)
Definition coerce_text (s : text) : text := runes s ≫= utf8.

(** A byte that starts no well-formed sequence. *)
Definition stray (rc : rune * text) : Prop :=
  rc.1 = RuneError ∧ length rc.2 = 1%nat.

#[export] Instance stray_dec rc : Decision (stray rc).
Proof. unfold stray. apply _. Defined.

(** [utf8.Valid]. *)
Definition valid_utf8 (s : text) : Prop := Forall (λ rc, ¬ stray rc) (chunks s).

#[export] Instance valid_utf8_dec s : Decision (valid_utf8 s).
Proof. unfold valid_utf8. apply _. Defined.

(** The code points: what a rune may hold without being replaced. *)
Definition scalar (r : rune) : bool :=
  (0 <=? r) && (r <=? 1114111) && negb ((55296 <=? r) && (r <=? 57343)).

Definition valid_rune (r : rune) : rune := if scalar r then r else RuneError.

(** ** Bytes *)

Local Ltac pow_lia :=
  change (2 ^ 6) with 64; change (2 ^ 12) with 4096;
  change (2 ^ 18) with 262144; div_lia.

Lemma byte_range a : 0 ≤ byte a < 256.
Proof. destruct a as [[] [] [] [] [] [] [] []]; vm_compute; split; congruence. Qed.

Lemma byte_chr z : 0 ≤ z < 256 → byte (byte_of_Z z) = z.
Proof.
  intros Hz. unfold byte, byte_of_Z. rewrite Z.mod_small by lia.
  rewrite Ascii.N_ascii_embedding by lia. lia.
Qed.

Lemma chr_byte a : byte_of_Z (byte a) = a.
Proof.
  unfold byte_of_Z. rewrite Z.mod_small by apply byte_range.
  unfold byte. rewrite N2Z.id. apply Ascii.ascii_N_embedding.
Qed.

#[export] Instance byte_inj : Inj (=) (=) byte.
Proof. intros a b Hab. by rewrite <- (chr_byte a), <- (chr_byte b), Hab. Qed.

Lemma text_of_string_of_text s : text_of_string (string_of_text s) = s.
Proof. apply String.list_ascii_of_string_of_list_ascii. Qed.

Lemma string_of_text_of_string s : string_of_text (text_of_string s) = s.
Proof. apply String.string_of_list_ascii_of_string. Qed.

Lemma within_spec lo hi b : within lo hi b = true ↔ lo ≤ b ≤ hi.
Proof. unfold within. by rewrite andb_true_iff, !Z.leb_le. Qed.

(** The lead byte of a sequence and a continuation byte, by their payload:
    a property of the finitely many payloads, settled by running through
    them. *)
Lemma payload_byte (tag n mask : Z) :
  bool_decide (Forall (λ x, byte (byte_of_Z (Z.lor tag x)) = tag + x
                            ∧ Z.land (tag + x) mask = x) (seqZ 0 n)) = true →
  ∀ x, 0 ≤ x < n →
    byte (byte_of_Z (Z.lor tag x)) = tag + x ∧ Z.land (tag + x) mask = x.
Proof. intros H. exact (Z_range_forall _ n H). Qed.

Lemma accept_spec b :
  accept b =
    if decide (194 ≤ b < 224) then Some (2%nat, 128, 191)
    else if decide (224 ≤ b < 240) then
      Some (3%nat, if decide (b = 224) then 160 else 128,
                   if decide (b = 237) then 159 else 191)
    else if decide (240 ≤ b ≤ 244) then
      Some (4%nat, if decide (b = 240) then 144 else 128,
                   if decide (b = 244) then 143 else 191)
    else None.
Proof.
  unfold accept.
  repeat (case_decide ||
          (case_match; try apply Z.ltb_lt in H; try apply Z.ltb_ge in H;
           try apply Z.eqb_eq in H; try apply Z.eqb_neq in H)); done || lia.
Qed.

(** ** [DecodeRune], case by case *)

Lemma DecodeRune_ascii a s : byte a < 128 → DecodeRune (a :: s) = (byte a, 1%nat).
Proof. intros Ha. unfold DecodeRune. by rewrite (proj2 (Z.ltb_lt _ _) Ha). Qed.

Section equations.
Context (a0 a1 a2 a3 : Ascii.ascii) (t : text) (lo hi : Z).
Context (H0 : 128 ≤ byte a0) (H1 : within lo hi (byte a1) = true).

Lemma DecodeRune_eq2 :
  accept (byte a0) = Some (2%nat, lo, hi) →
  DecodeRune (a0 :: a1 :: t)
  = (Z.lor (Z.shiftl (Z.land (byte a0) 31) 6) (Z.land (byte a1) 63), 2%nat).
Proof.
  intros Ha. unfold DecodeRune. by rewrite (proj2 (Z.ltb_ge _ _) H0), Ha, H1.
Qed.

Lemma DecodeRune_eq3 :
  accept (byte a0) = Some (3%nat, lo, hi) →
  within 128 191 (byte a2) = true →
  DecodeRune (a0 :: a1 :: a2 :: t)
  = (Z.lor (Z.lor (Z.shiftl (Z.land (byte a0) 15) 12)
                  (Z.shiftl (Z.land (byte a1) 63) 6))
           (Z.land (byte a2) 63), 3%nat).
Proof.
  intros Ha H2. unfold DecodeRune.
  by rewrite (proj2 (Z.ltb_ge _ _) H0), Ha, H1, H2.
Qed.

Lemma DecodeRune_eq4 :
  accept (byte a0) = Some (4%nat, lo, hi) →
  within 128 191 (byte a2) = true →
  within 128 191 (byte a3) = true →
  DecodeRune (a0 :: a1 :: a2 :: a3 :: t)
  = (Z.lor (Z.lor (Z.lor (Z.shiftl (Z.land (byte a0) 7) 18)
                         (Z.shiftl (Z.land (byte a1) 63) 12))
                  (Z.shiftl (Z.land (byte a2) 63) 6))
           (Z.land (byte a3) 63), 4%nat).
Proof.
  intros Ha H2 H3. unfold DecodeRune.
  by rewrite (proj2 (Z.ltb_ge _ _) H0), Ha, H1, H2, H3.
Qed.
End equations.

(** The width is at least one and at most what the text holds. *)
Lemma DecodeRune_size s r k :
  s ≠ [] → DecodeRune s = (r, k) → (1 ≤ k ≤ length s)%nat.
Proof.
  destruct s as [|a0 s1]; [done|]. intros _. unfold DecodeRune.
  repeat (case_match; simplify_eq/=; try (intros [= <- <-]; lia)).
Qed.

(** A well-formed sequence reads the same whatever follows it. *)
Lemma DecodeRune_prefix s r k t :
  s ≠ [] → DecodeRune s = (r, k) → ¬ stray (r, take k s) →
  DecodeRune (take k s ++ t) = (r, k).
Proof.
  destruct s as [|a0 s1]; [done|]. intros _. unfold DecodeRune, stray.
  repeat (case_match; simplify_eq/=;
          try (intros [= <- <-]; intros; simpl; try done; try tauto)).
  all: done.
Qed.

(** ** Decoding undoes encoding *)

Lemma DecodeRune_2 r t :
  128 ≤ r < 2048 →
  DecodeRune (utf8 r ++ t) = (r, 2%nat).
Proof.
  intros Hr. unfold utf8, utf8_of_rune.
  rewrite (proj2 (Z.ltb_ge r 0)), (proj2 (Z.ltb_ge r 128)), (proj2 (Z.ltb_lt r 2048)) by lia.
  rewrite Z.shiftr_div_pow2 by lia.
  change 63 with (2 ^ 6 - 1). rewrite Z_land_low by lia. change (2 ^ 6) with 64.
  destruct (payload_byte 192 32 31 eq_refl (r / 64)) as [Ha Ha']; [div_lia|].
  destruct (payload_byte 128 64 63 eq_refl (r mod 64)) as [Hb Hb']; [div_lia|].
  cbn [text_of_string String.list_ascii_of_string app].
  rewrite (DecodeRune_eq2 _ _ t 128 191); rewrite ?Ha, ?Hb.
  - rewrite Ha', Hb', Z.shiftl_mul_pow2, Z_lor_add by div_lia. f_equal. div_lia.
  - div_lia.
  - apply within_spec. div_lia.
  - rewrite accept_spec. rewrite decide_True by div_lia. done.
Qed.

Lemma DecodeRune_3 r t :
  2048 ≤ r < 65536 → ¬ (55296 ≤ r ≤ 57343) →
  DecodeRune (utf8 r ++ t) = (r, 3%nat).
Proof.
  intros Hr Hs. unfold utf8, utf8_of_rune.
  rewrite (proj2 (Z.ltb_ge r 0)), (proj2 (Z.ltb_ge r 128)),
    (proj2 (Z.ltb_ge r 2048)), (proj2 (Z.ltb_lt r 65536)) by lia.
  replace ((55296 <=? r) && (r <=? 57343)) with false
    by (symmetry; apply andb_false_iff; lia).
  rewrite !Z.shiftr_div_pow2 by lia.
  change 63 with (2 ^ 6 - 1). rewrite !Z_land_low by lia.
  change (2 ^ 6) with 64. change (2 ^ 12) with 4096.
  destruct (payload_byte 224 16 15 eq_refl (r / 4096)) as [Ha Ha']; [div_lia|].
  destruct (payload_byte 128 64 63 eq_refl (r / 64 mod 64)) as [Hb Hb']; [div_lia|].
  destruct (payload_byte 128 64 63 eq_refl (r mod 64)) as [Hc Hc']; [div_lia|].
  cbn [text_of_string String.list_ascii_of_string app].
  rewrite (DecodeRune_eq3 _ _ _ t (if decide (224 + r / 4096 = 224) then 160 else 128)
             (if decide (224 + r / 4096 = 237) then 159 else 191));
    rewrite ?Ha, ?Hb, ?Hc.
  - rewrite Ha', Hb', Hc', !Z.shiftl_mul_pow2 by lia.
    rewrite (Z_lor_disjoint (_ * 2 ^ 12) _ 12), (Z_lor_disjoint _ _ 6) by pow_lia.
    f_equal. div_lia.
  - div_lia.
  - apply within_spec. repeat case_decide; div_lia.
  - rewrite accept_spec. rewrite decide_False, decide_True by div_lia. done.
  - apply within_spec. div_lia.
Qed.

Lemma DecodeRune_4 r t :
  65536 ≤ r ≤ 1114111 →
  DecodeRune (utf8 r ++ t) = (r, 4%nat).
Proof.
  intros Hr. unfold utf8, utf8_of_rune.
  rewrite (proj2 (Z.ltb_ge r 0)), (proj2 (Z.ltb_ge r 128)),
    (proj2 (Z.ltb_ge r 2048)), (proj2 (Z.ltb_ge r 65536)),
    (proj2 (Z.leb_le r 1114111)) by lia.
  replace ((55296 <=? r) && (r <=? 57343)) with false
    by (symmetry; apply andb_false_iff; lia).
  rewrite !Z.shiftr_div_pow2 by lia.
  change 63 with (2 ^ 6 - 1). rewrite !Z_land_low by lia.
  change (2 ^ 6) with 64. change (2 ^ 12) with 4096. change (2 ^ 18) with 262144.
  destruct (payload_byte 240 8 7 eq_refl (r / 262144)) as [Ha Ha']; [div_lia|].
  destruct (payload_byte 128 64 63 eq_refl (r / 4096 mod 64)) as [Hb Hb']; [div_lia|].
  destruct (payload_byte 128 64 63 eq_refl (r / 64 mod 64)) as [Hc Hc']; [div_lia|].
  destruct (payload_byte 128 64 63 eq_refl (r mod 64)) as [Hd Hd']; [div_lia|].
  cbn [text_of_string String.list_ascii_of_string app].
  rewrite (DecodeRune_eq4 _ _ _ _ t (if decide (240 + r / 262144 = 240) then 144 else 128)
             (if decide (240 + r / 262144 = 244) then 143 else 191));
    rewrite ?Ha, ?Hb, ?Hc, ?Hd.
  - rewrite Ha', Hb', Hc', Hd', !Z.shiftl_mul_pow2 by lia.
    rewrite (Z_lor_disjoint (_ * 2 ^ 18) _ 18),
      (Z_lor_disjoint (_ + _) (_ * 2 ^ 6) 12), (Z_lor_disjoint _ _ 6) by pow_lia.
    f_equal. div_lia.
  - div_lia.
  - apply within_spec. repeat case_decide; div_lia.
  - rewrite accept_spec. rewrite !decide_False, decide_True by div_lia. done.
  - apply within_spec. div_lia.
  - apply within_spec. div_lia.
Qed.

Lemma utf8_valid_rune r : utf8 r = utf8 (valid_rune r).
Proof.
  unfold valid_rune, scalar. repeat case_match; try done;
    unfold utf8, utf8_of_rune; repeat case_match; try done; lia.
Qed.

Lemma utf8_length r : (1 ≤ length (utf8 r) ≤ 4)%nat.
Proof. unfold utf8, utf8_of_rune. repeat case_match; simpl; lia. Qed.

(** Decoding the encoding of a rune gives the rune back, whatever
    follows, or U+FFFD when the rune is not a code point. *)
Lemma DecodeRune_utf8 r t :
  DecodeRune (utf8 r ++ t) = (valid_rune r, length (utf8 r)).
Proof.
  rewrite (utf8_valid_rune r). unfold valid_rune, scalar.
  destruct (decide (0 ≤ r ≤ 1114111 ∧ ¬ (55296 ≤ r ≤ 57343))) as [[Hr Hs]|Hn].
  - replace (_ && _) with true by (symmetry; rewrite !andb_true_iff, negb_true_iff, andb_false_iff; lia).
    destruct (decide (r < 128)); [|destruct (decide (r < 2048)); [|destruct (decide (r < 65536))]].
    + unfold utf8, utf8_of_rune.
      rewrite (proj2 (Z.ltb_ge r 0)), (proj2 (Z.ltb_lt r 128)) by lia. simpl.
      rewrite byte_chr by lia. by rewrite (proj2 (Z.ltb_lt r 128)) by lia.
    + rewrite DecodeRune_2 by lia. f_equal. unfold utf8, utf8_of_rune.
      by rewrite (proj2 (Z.ltb_ge r 0)), (proj2 (Z.ltb_ge r 128)), (proj2 (Z.ltb_lt r 2048)) by lia.
    + rewrite DecodeRune_3 by lia. f_equal. unfold utf8, utf8_of_rune.
      rewrite (proj2 (Z.ltb_ge r 0)), (proj2 (Z.ltb_ge r 128)),
        (proj2 (Z.ltb_ge r 2048)), (proj2 (Z.ltb_lt r 65536)) by lia.
      by replace ((55296 <=? r) && (r <=? 57343)) with false
        by (symmetry; apply andb_false_iff; lia).
    + rewrite DecodeRune_4 by lia. f_equal. unfold utf8, utf8_of_rune.
      rewrite (proj2 (Z.ltb_ge r 0)), (proj2 (Z.ltb_ge r 128)),
        (proj2 (Z.ltb_ge r 2048)), (proj2 (Z.ltb_ge r 65536)),
        (proj2 (Z.leb_le r 1114111)) by lia.
      by replace ((55296 <=? r) && (r <=? 57343)) with false
        by (symmetry; apply andb_false_iff; lia).
  - replace (_ && _) with false; [done|].
    symmetry. rewrite !andb_false_iff, negb_false_iff, andb_true_iff, !Z.leb_gt, !Z.leb_le. lia.
Qed.

(** ** Chunks *)

Lemma chunks_fuel_enough n m s :
  (length s ≤ n)%nat → (length s ≤ m)%nat → chunks_fuel n s = chunks_fuel m s.
Proof.
  revert m s. induction n as [|n IH]; intros m s Hn Hm.
  { destruct s; [|simpl in Hn; lia]. by destruct m. }
  destruct s as [|a s]; [by destruct m|].
  destruct m as [|m]; [simpl in Hm; lia|].
  cbn [chunks_fuel]. destruct (DecodeRune (a :: s)) as [r k] eqn:Hd.
  apply DecodeRune_size in Hd as Hk; [|done].
  f_equal. apply IH; rewrite length_drop; simpl in *; lia.
Qed.

Lemma chunks_cons s r k :
  s ≠ [] → DecodeRune s = (r, k) → chunks s = (r, take k s) :: chunks (drop k s).
Proof.
  intros Hs Hd. unfold chunks. destruct s as [|a s]; [done|].
  cbn [length chunks_fuel]. rewrite Hd. f_equal.
  apply DecodeRune_size in Hd as Hk; [|done].
  apply chunks_fuel_enough; rewrite length_drop; simpl in *; lia.
Qed.

(** Induction over a text one rune at a time. *)
Lemma runes_ind (P : text → Prop) :
  P [] →
  (∀ s r k, s ≠ [] → DecodeRune s = (r, k) → P (drop k s) → P s) →
  ∀ s, P s.
Proof.
  intros Hnil Hstep s. remember (length s) as n eqn:Hn.
  revert s Hn. induction (lt_wf n) as [n _ IH]. intros s ->.
  destruct s as [|a s]; [done|].
  destruct (DecodeRune (a :: s)) as [r k] eqn:Hd.
  apply (Hstep _ r k); [done..|].
  apply DecodeRune_size in Hd as Hk; [|done].
  eapply IH; [|done]. rewrite length_drop. simpl in *. lia.
Qed.

Lemma coerce_text_nil : coerce_text [] = [].
Proof. done. Qed.

Lemma coerce_text_cons s r k :
  s ≠ [] → DecodeRune s = (r, k) →
  coerce_text s = utf8 r ++ coerce_text (drop k s).
Proof.
  intros Hs Hd. unfold coerce_text, runes. by rewrite (chunks_cons s r k).
Qed.

Lemma utf8_nonempty r t : utf8 r ++ t ≠ [].
Proof.
  pose proof (utf8_length r). destruct (utf8 r); [simpl in *; lia|done].
Qed.

(** The encoding of a rune is left alone, whatever follows it. *)
Lemma coerce_text_utf8 r t : coerce_text (utf8 r ++ t) = utf8 r ++ coerce_text t.
Proof.
  rewrite (coerce_text_cons _ _ _ (utf8_nonempty r t) (DecodeRune_utf8 r t)).
  by rewrite drop_app_length, <- utf8_valid_rune.
Qed.

Lemma coerce_text_idemp s : coerce_text (coerce_text s) = coerce_text s.
Proof.
  induction s as [|s r k Hs Hd IH] using runes_ind; [done|].
  by rewrite (coerce_text_cons s r k), coerce_text_utf8, IH.
Qed.

(** ** Encoding undoes decoding *)

(** The bytes of a well-formed sequence of more than one byte all have
    their top bit set. *)
Lemma DecodeRune_high s r k :
  s ≠ [] → DecodeRune s = (r, k) → ¬ stray (r, take k s) →
  Forall (λ a, 128 ≤ byte a) (take 1 s) →
  Forall (λ a, 128 ≤ byte a) (take k s).
Proof.
  destruct s as [|a0 s1]; [done|]. intros _. unfold DecodeRune, stray.
  intros Hd Hs Ha. apply Forall_cons_1 in Ha as [Ha _].
  rewrite (proj2 (Z.ltb_ge _ _) Ha), accept_spec in Hd.
  repeat (case_match; simplify_eq/=; try tauto);
  repeat match goal with
  | H : negb (within _ _ _) = false |- _ =>
      apply negb_false_iff, within_spec in H
  end; repeat constructor; try lia; repeat case_decide; lia.
Qed.

(** Encoding undoes decoding on a well-formed sequence. *)
Lemma utf8_DecodeRune_2 a0 a1 :
  194 ≤ byte a0 < 224 → 128 ≤ byte a1 ≤ 191 →
  utf8 (Z.lor (Z.shiftl (Z.land (byte a0) 31) 6) (Z.land (byte a1) 63)) = [a0; a1].
Proof.
  intros H0 H1.
  destruct (payload_byte 192 32 31 eq_refl (byte a0 - 192)) as [Ha Ha']; [lia|].
  destruct (payload_byte 128 64 63 eq_refl (byte a1 - 128)) as [Hb Hb']; [lia|].
  replace (192 + (byte a0 - 192)) with (byte a0) in * by lia.
  replace (128 + (byte a1 - 128)) with (byte a1) in * by lia.
  rewrite Ha', Hb', Z.shiftl_mul_pow2, (Z_lor_disjoint _ _ 6) by pow_lia.
  change (2 ^ 6) with 64.
  unfold utf8, utf8_of_rune.
  rewrite (proj2 (Z.ltb_ge _ 0)), (proj2 (Z.ltb_ge _ 128)), (proj2 (Z.ltb_lt _ 2048)) by lia.
  rewrite Z.shiftr_div_pow2 by lia.
  change 63 with (2 ^ 6 - 1). rewrite Z_land_low by lia. change (2 ^ 6) with 64.
  replace (((byte a0 - 192) * 64 + (byte a1 - 128)) / 64) with (byte a0 - 192) by div_lia.
  replace (((byte a0 - 192) * 64 + (byte a1 - 128)) mod 64) with (byte a1 - 128) by div_lia.
  simpl. f_equal; [|f_equal]; apply (inj byte); by rewrite ?Ha, ?Hb.
Qed.

Lemma utf8_DecodeRune_3 a0 a1 a2 :
  224 ≤ byte a0 < 240 →
  (if decide (byte a0 = 224) then 160 else 128) ≤ byte a1
    ≤ (if decide (byte a0 = 237) then 159 else 191) →
  128 ≤ byte a2 ≤ 191 →
  utf8 (Z.lor (Z.lor (Z.shiftl (Z.land (byte a0) 15) 12)
                     (Z.shiftl (Z.land (byte a1) 63) 6))
              (Z.land (byte a2) 63)) = [a0; a1; a2].
Proof.
  intros H0 H1 H2.
  assert (128 ≤ byte a1 ≤ 191) as H1' by (repeat case_decide; lia).
  destruct (payload_byte 224 16 15 eq_refl (byte a0 - 224)) as [Ha Ha']; [lia|].
  destruct (payload_byte 128 64 63 eq_refl (byte a1 - 128)) as [Hb Hb'];
    [repeat case_decide; lia|].
  destruct (payload_byte 128 64 63 eq_refl (byte a2 - 128)) as [Hc Hc']; [lia|].
  replace (224 + (byte a0 - 224)) with (byte a0) in * by lia.
  replace (128 + (byte a1 - 128)) with (byte a1) in * by lia.
  replace (128 + (byte a2 - 128)) with (byte a2) in * by lia.
  rewrite Ha', Hb', Hc', !Z.shiftl_mul_pow2 by lia.
  rewrite (Z_lor_disjoint (_ * 2 ^ 12) _ 12), (Z_lor_disjoint _ _ 6)
    by (repeat case_decide; pow_lia).
  change (2 ^ 6) with 64. change (2 ^ 12) with 4096.
  set (r := (byte a0 - 224) * 4096 + (byte a1 - 128) * 64 + (byte a2 - 128)).
  assert (2048 ≤ r < 65536 ∧ ¬ (55296 ≤ r ≤ 57343)) as [Hr Hs]
    by (unfold r; repeat case_decide; lia).
  unfold utf8, utf8_of_rune.
  rewrite (proj2 (Z.ltb_ge r 0)), (proj2 (Z.ltb_ge r 128)),
    (proj2 (Z.ltb_ge r 2048)), (proj2 (Z.ltb_lt r 65536)) by lia.
  replace ((55296 <=? r) && (r <=? 57343)) with false
    by (symmetry; apply andb_false_iff; lia).
  rewrite !Z.shiftr_div_pow2 by lia.
  change 63 with (2 ^ 6 - 1). rewrite !Z_land_low by lia.
  change (2 ^ 6) with 64. change (2 ^ 12) with 4096.
  replace (r / 4096) with (byte a0 - 224) by (unfold r; div_lia).
  replace (r / 64 mod 64) with (byte a1 - 128) by (unfold r; div_lia).
  replace (r mod 64) with (byte a2 - 128) by (unfold r; div_lia).
  simpl. repeat f_equal; apply (inj byte); by rewrite ?Ha, ?Hb, ?Hc.
Qed.

Lemma utf8_DecodeRune_4 a0 a1 a2 a3 :
  240 ≤ byte a0 ≤ 244 →
  (if decide (byte a0 = 240) then 144 else 128) ≤ byte a1
    ≤ (if decide (byte a0 = 244) then 143 else 191) →
  128 ≤ byte a2 ≤ 191 → 128 ≤ byte a3 ≤ 191 →
  utf8 (Z.lor (Z.lor (Z.lor (Z.shiftl (Z.land (byte a0) 7) 18)
                            (Z.shiftl (Z.land (byte a1) 63) 12))
                     (Z.shiftl (Z.land (byte a2) 63) 6))
              (Z.land (byte a3) 63)) = [a0; a1; a2; a3].
Proof.
  intros H0 H1 H2 H3.
  assert (128 ≤ byte a1 ≤ 191) as H1' by (repeat case_decide; lia).
  destruct (payload_byte 240 8 7 eq_refl (byte a0 - 240)) as [Ha Ha']; [lia|].
  destruct (payload_byte 128 64 63 eq_refl (byte a1 - 128)) as [Hb Hb'];
    [repeat case_decide; lia|].
  destruct (payload_byte 128 64 63 eq_refl (byte a2 - 128)) as [Hc Hc']; [lia|].
  destruct (payload_byte 128 64 63 eq_refl (byte a3 - 128)) as [Hd Hd']; [lia|].
  replace (240 + (byte a0 - 240)) with (byte a0) in * by lia.
  replace (128 + (byte a1 - 128)) with (byte a1) in * by lia.
  replace (128 + (byte a2 - 128)) with (byte a2) in * by lia.
  replace (128 + (byte a3 - 128)) with (byte a3) in * by lia.
  rewrite Ha', Hb', Hc', Hd', !Z.shiftl_mul_pow2 by lia.
  rewrite (Z_lor_disjoint (_ * 2 ^ 18) _ 18),
    (Z_lor_disjoint (_ + _) (_ * 2 ^ 6) 12), (Z_lor_disjoint _ _ 6)
    by (repeat case_decide; pow_lia).
  change (2 ^ 6) with 64. change (2 ^ 12) with 4096. change (2 ^ 18) with 262144.
  set (r := (byte a0 - 240) * 262144 + (byte a1 - 128) * 4096
            + (byte a2 - 128) * 64 + (byte a3 - 128)).
  assert (65536 ≤ r ≤ 1114111) as Hr by (unfold r; repeat case_decide; lia).
  unfold utf8, utf8_of_rune.
  rewrite (proj2 (Z.ltb_ge r 0)), (proj2 (Z.ltb_ge r 128)),
    (proj2 (Z.ltb_ge r 2048)), (proj2 (Z.ltb_ge r 65536)),
    (proj2 (Z.leb_le r 1114111)) by lia.
  replace ((55296 <=? r) && (r <=? 57343)) with false
    by (symmetry; apply andb_false_iff; lia).
  rewrite !Z.shiftr_div_pow2 by lia.
  change 63 with (2 ^ 6 - 1). rewrite !Z_land_low by lia.
  change (2 ^ 6) with 64. change (2 ^ 12) with 4096. change (2 ^ 18) with 262144.
  replace (r / 262144) with (byte a0 - 240) by (unfold r; div_lia).
  replace (r / 4096 mod 64) with (byte a1 - 128) by (unfold r; div_lia).
  replace (r / 64 mod 64) with (byte a2 - 128) by (unfold r; div_lia).
  replace (r mod 64) with (byte a3 - 128) by (unfold r; div_lia).
  simpl. repeat f_equal; apply (inj byte); by rewrite ?Ha, ?Hb, ?Hc, ?Hd.
Qed.

Lemma utf8_ascii a : byte a < 128 → utf8 (byte a) = [a].
Proof.
  intros Ha. pose proof (byte_range a). unfold utf8, utf8_of_rune.
  rewrite (proj2 (Z.ltb_ge _ 0)), (proj2 (Z.ltb_lt _ 128)) by lia.
  simpl. by rewrite chr_byte.
Qed.

Lemma utf8_DecodeRune s r k :
  s ≠ [] → DecodeRune s = (r, k) → ¬ stray (r, take k s) → utf8 r = take k s.
Proof.
  destruct s as [|a0 s1]; [done|]. intros _. unfold DecodeRune, stray.
  destruct (byte a0 <? 128) eqn:Ha.
  { intros [= <- <-] _. apply utf8_ascii. by apply Z.ltb_lt. }
  apply Z.ltb_ge in Ha. rewrite accept_spec.
  repeat (case_match; simplify_eq/=; try (intros [= <- <-]; try tauto));
  repeat match goal with
  | H : negb (within _ _ _) = false |- _ =>
      apply negb_false_iff, within_spec in H
  end; intros _.
  all: repeat (case_decide; simplify_eq/=; try lia).
  all: rewrite take_0.
  all: lazymatch goal with
       | |- utf8 _ = [_; _] => apply utf8_DecodeRune_2
       | |- utf8 _ = [_; _; _] => apply utf8_DecodeRune_3
       | |- utf8 _ = [_; _; _; _] => apply utf8_DecodeRune_4
       end; repeat case_decide; lia.
Qed.

(** A text of well-formed sequences is left alone. *)
Lemma coerce_text_valid s : valid_utf8 s → coerce_text s = s.
Proof.
  unfold valid_utf8.
  induction s as [|s r k Hs Hd IH] using runes_ind; [done|].
  rewrite (chunks_cons s r k), Forall_cons by done. intros [Hv Hrest].
  rewrite (coerce_text_cons s r k), IH by done.
  rewrite (utf8_DecodeRune s r k) by done. apply take_drop.
Qed.

