(* ===== verification/View.v ===== *)
(** * View: what the form writes on the screen

    Translated from [src/main.go]: the four button variables of the [var]
    block and the method [View].  A screen is modelled as the list of the
    pieces of text written, each with the style it is rendered in
    ([doc]); [Style.Render] makes one piece, and writing to the
    [strings.Builder] appends.  The escape sequences a terminal receives
    for a style depend on its colour profile and are not modelled.

    [textinput_View] is the view of one input of the widget library, from
    its documented behaviour: the prompt, the text with the character
    under the caret drawn by the cursor, or the placeholder while the
    input is empty.

    [cursor.Mode.String] indexes an array of three names and panics on any
    other mode; [View] is partial for that reason, and [View_reachable]
    shows that the panic cannot happen. *)

From S2P Require Import Prelude Tea TextInput Form FormInv Utf8.

Local Open Scope Z_scope.

(** ** Pieces of styled text *)

Record span : Type := mkSpan {
  span_style : Style;
  span_reverse : bool;
  span_text : string;
}.

#[export] Instance span_eq_dec : EqDecision span.
Proof. solve_decision. Defined.

Definition doc : Type := list span.

(** [style.Render(s)]. *)
Definition Style_Render (st : Style) (s : string) : doc := [mkSpan st false s].

(** Text written as it is. *)
Definition WriteString (s : string) : doc := Style_Render lipgloss_NewStyle s.

Definition newline : string := String (byte_of_Z 10) "".
Definition tab : string := String (byte_of_Z 9) "".

(** ** The view of an input *)

(** [cursor.View]: the character in the style of the text while the caret
    is not drawn, and reversed in the style of the cursor while it is. *)
Definition cursor_View (c : cursor_Model) (textStyle : Style) (char : string) : doc :=
  if cursor_Blink c then Style_Render textStyle char
  else [mkSpan (cursor_Style c) true char].

(** The prompt and the style of placeholders, which the program leaves
    at their defaults. *)
Definition Prompt : string := "> ".
Definition PlaceholderStyle : Style := Style_Foreground "240" lipgloss_NewStyle.

Definition placeholderView (t : textinput_Model) : doc :=
  let p := runes (text_of_string (Placeholder t)) in
  Style_Render (PromptStyle t) Prompt
  ++ cursor_View (Cursor t) PlaceholderStyle (string_of_runes (take 1 p))
  ++ (if decide (length p ≤ 1)%nat then []
      else Style_Render PlaceholderStyle (string_of_runes (drop 1 p))).

(** [textinput.Model.View]. *)
Definition textinput_View (t : textinput_Model) : doc :=
  if decide (value t = [] ∧ Placeholder t ≠ "") then placeholderView t
  else
    Style_Render (PromptStyle t) Prompt
    ++ Style_Render (TextStyle t) (string_of_runes (take (pos t) (value t)))
    ++ (if decide (pos t < length (value t))%nat then
          cursor_View (Cursor t) (TextStyle t)
            (string_of_runes (take 1 (drop (pos t) (value t))))
          ++ Style_Render (TextStyle t)
               (string_of_runes (drop (S (pos t)) (value t)))
        else cursor_View (Cursor t) (TextStyle t) " ").

(** ** The buttons (the [var] block) *)

Definition focusedButton : doc := Style_Render (Style_Copy focusedStyle) "[ Submit ]".

Definition blurredButton : doc :=
  WriteString "[ " ++ Style_Render blurredStyle "Submit" ++ WriteString " ]".

Definition focusedCancelButton : doc :=
  Style_Render (Style_Copy focusedStyle) "[ Cancel ]".

Definition blurredCancelButton : doc :=
  WriteString "[ " ++ Style_Render blurredStyle "Cancel" ++ WriteString " ]".

(** ** [View] *)

(** The heading. *)
Definition viewHeader : doc :=
  Style_Render focusedStyle
    ("  Create A New Task " +:+ newline +:+ " ____________________" +:+ newline)
  ++ WriteString newline.

(** The loop over the inputs: each view, and a line break after all but
    the last. *)
Definition viewInputs (ins : list textinput_Model) : doc :=
  mjoin (imap (λ i t,
                 textinput_View t
                 ++ (if decide (Z.of_nat i < len ins - 1)
                     then WriteString newline else [])) ins).

(** The choice of the two buttons. *)
Definition viewButtons (m : model) : doc * doc :=
  let button := blurredButton in
  let cancelButton := blurredCancelButton in
  let button :=
    if decide (focusIndex m = len (inputs m)) then focusedButton else button in
  if decide (focusIndex m = len (inputs m) + 1)
  then (blurredButton, focusedCancelButton)
  else (button, cancelButton).

(** [m.View()]; [None] is the panic of [m.cursorMode.String()]. *)
Definition View (m : model) : option doc :=
  let '(button, cancelButton) := viewButtons m in
  mode ← Mode_String (cursorMode m);
  Some (viewHeader ++ viewInputs (inputs m)
        ++ WriteString (newline +:+ newline) ++ button
        ++ WriteString tab ++ cancelButton ++ WriteString (newline +:+ newline)
        ++ Style_Render helpStyle "cursor mode is "
        ++ Style_Render cursorModeHelpStyle mode
        ++ Style_Render helpStyle " (ctrl+r to change style)").

(** ** Specifications *)

(** The pieces drawn in the focused colour. *)
Definition emphasized (d : doc) : Prop :=
  Exists (λ s, span_style s = focusedStyle) d.

#[export] Instance emphasized_dec d : Decision (emphasized d).
Proof. unfold emphasized. apply _. Defined.

(** ** [View] does not panic *)

Lemma View_is_Some m :
  is_Some (View m) ↔ CursorBlink ≤ cursorMode m ≤ CursorHide.
Proof.
  unfold View. destruct (viewButtons m) as [b c]. split.
  - destruct (Mode_String (cursorMode m)) as [s|] eqn:Hs; [|by intros [? ?]].
    intros _. revert Hs. unfold Mode_String, CursorBlink, CursorStatic, CursorHide.
    repeat case_decide; (done || lia).
  - intros [s ->]%Mode_String_is_Some. by eexists.
Qed.

(** [View] returns on every well-formed model: the cursor mode is one
    of the three that have a name. *)
Theorem View_wf m : wf_model m → is_Some (View m).
Proof. intros (_ & _ & Hm & _). by apply View_is_Some. Qed.

Lemma View_wf_witness : is_Some (View initialModel).
Proof. apply (View_wf initialModel). by_compute. Defined.

(** C17. [View] never panics while the program runs: in every reachable
    model the cursor mode has a name. *)
Theorem View_reachable m : reachable m → is_Some (View m).
Proof. intros Hm. by apply View_is_Some, wf_reachable. Qed.

Lemma View_reachable_witness : is_Some (View (nextMode (next initialModel))).
Proof.
  apply (View_reachable (nextMode (next initialModel))).
  apply reachable_step; [|done]. apply reachable_step; [|done]. constructor.
Defined.

(** ** The buttons follow the focus index *)

(** C28. Submit is drawn emphasized exactly while the focus index is N, and
    Cancel exactly while it is N+1; they are never both emphasized. *)
Theorem viewButtons_focus m :
  (emphasized (viewButtons m).1 ↔ focusIndex m = len (inputs m)) ∧
  (emphasized (viewButtons m).2 ↔ focusIndex m = len (inputs m) + 1) ∧
  ¬ (emphasized (viewButtons m).1 ∧ emphasized (viewButtons m).2).
Proof.
  unfold viewButtons.
  assert (emphasized focusedButton ∧ emphasized focusedCancelButton
          ∧ ¬ emphasized blurredButton ∧ ¬ emphasized blurredCancelButton)
    as (H1 & H2 & H3 & H4) by (split_and!; by_compute).
  repeat case_decide; simpl; split_and!; try tauto; split; (tauto || lia).
Qed.

(** ** The inputs are all drawn *)

Lemma textinput_View_prompt t :
  ∃ d, textinput_View t = Style_Render (PromptStyle t) Prompt ++ d.
Proof.
  unfold textinput_View, placeholderView. case_decide; by eexists.
Qed.
