(* ===== verification/Store.v ===== *)
(** * Store: the task record and [createTask]

    Translated from [src/main.go]: the structs [Task] and [ToDo] and the
    function [createTask], which makes sure [db/tasks.json] exists, reads
    it, decodes the tasks it holds, appends the new one, encodes the list
    and writes the file back.

    The function talks to two things outside the repository.  The file
    system is modelled by the record [FS]: whether the directory [db]
    exists and, if the file exists, its contents and whether it may be read
    and written; the four calls [os.Stat], [os.Create], [os.ReadFile] and
    [os.WriteFile] are functions on it, fixed to the one path the program
    uses.  Each call is one step: [os_WriteFile] replaces the contents at
    once and fails only before it touches the file ([StoreRace] splits it
    into its two calls).  The JSON encoder is the interface [Codec], a class with the two
    functions and the laws [createTask] relies on.

    [createTask] is written in the [io] monad over [FS]: a call whose error
    leads to [log.Fatal] is bound directly, so that its error ends the
    computation, and a call whose error the code drops is wrapped in
    [io_try]. *)

From S2P Require Import Prelude.

Local Open Scope Z_scope.

(** ** Data *)

(** [time.Time], as the fields of its RFC 3339 text: a civil date and
    time, nanoseconds, and the zone offset in minutes. *)
Record Time : Type := mkTime {
  t_year : Z; t_month : Z; t_day : Z;
  t_hour : Z; t_minute : Z; t_second : Z;
  t_nsec : Z;
  t_offset : Z;
}.

#[export] Instance Time_eq_dec : EqDecision Time.
Proof. solve_decision. Defined.

(** The zero [time.Time]: January 1 of year 1, 00:00:00 UTC. *)
Definition zeroTime : Time := mkTime 1 1 1 0 0 0 0 0.

(** [daysIn] of package time: the days of a month of a year. *)
Definition isLeap (year : Z) : bool :=
  (year mod 4 =? 0) && (negb (year mod 100 =? 0) || (year mod 400 =? 0)).

Definition daysIn (month year : Z) : Z :=
  if month =? 2 then (if isLeap year then 29 else 28)
  else if (month =? 4) || (month =? 6) || (month =? 9) || (month =? 11) then 30
  else 31.

(** The records that are times: every [time.Time] of a run is one.  The
    year and the offset are not bounded here: [time.Time] holds years and
    offsets that RFC 3339 has no text for. *)
Definition wf_Time (t : Time) : Prop :=
  1 ≤ t_month t ≤ 12 ∧ 1 ≤ t_day t ≤ daysIn (t_month t) (t_year t) ∧
  0 ≤ t_hour t ≤ 23 ∧ 0 ≤ t_minute t ≤ 59 ∧ 0 ≤ t_second t ≤ 59 ∧
  0 ≤ t_nsec t < 10 ^ 9.

#[export] Instance wf_Time_dec t : Decision (wf_Time t).
Proof. unfold wf_Time. apply _. Defined.

(** A slice that may be [nil] is an optional list. *)
Record Task : Type := mkTask {
  Title : string;
  Description : string;
  Urgency : string;
  Status : string;
  AssignedBy : string;
  Attachments : option (list string);
  Comments : option (list string);
  TimeStamp : Time;
  StartTime : Time;
  EndTime : Time;
  Due : Time;
}.

#[export] Instance Task_eq_dec : EqDecision Task.
Proof. solve_decision. Defined.

Record ToDo : Type := mkToDo {
  ToDo_Title : string;
  ToDo_Description : string;
  ToDo_Status : string;
  ToDo_Attachments : option (list string);
  ToDo_Comments : option (list string);
  ToDo_TimeStamp : Time;
  ToDo_StartTime : Time;
  ToDo_EndTime : Time;
}.

(** [new(Task)]: every field at its zero value. *)
Definition zeroTask : Task :=
  mkTask "" "" "" "" "" None None zeroTime zeroTime zeroTime zeroTime.

(** A [*Task]: a pointer that may be [nil]. *)
Definition TaskPtr : Type := option Task.

Definition wf_Task (t : Task) : Prop :=
  wf_Time (TimeStamp t) ∧ wf_Time (StartTime t) ∧
  wf_Time (EndTime t) ∧ wf_Time (Due t).

#[export] Instance wf_Task_dec t : Decision (wf_Task t).
Proof. unfold wf_Task. apply _. Defined.

Definition wf_ptr (p : TaskPtr) : Prop := from_option wf_Task True p.

#[export] Instance wf_ptr_dec p : Decision (wf_ptr p).
Proof. destruct p; simpl; apply _. Defined.

(** ** Errors *)

Inductive Error : Type :=
  | ErrNotExist      (* no such file or directory *)
  | ErrPermission    (* the file may not be read or written *)
  | ErrDecode        (* the file does not hold a JSON array of tasks *)
  | ErrEncode.       (* a task has no JSON text *)

#[export] Instance Error_eq_dec : EqDecision Error.
Proof. solve_decision. Defined.

(** ** The file system, seen from the one path the program uses *)

Record File : Type := mkFile {
  content : string;
  readable : bool;
  writable : bool;
}.

#[export] Instance File_eq_dec : EqDecision File.
Proof. solve_decision. Defined.

Record FS : Type := mkFS {
  fs_dir : bool;            (* the directory [db] exists *)
  fs_file : option File;    (* the file [db/tasks.json], if it exists *)
}.

#[export] Instance FS_eq_dec : EqDecision FS.
Proof. solve_decision. Defined.

(** A file lives in a directory. *)
Definition fs_ok (fs : FS) : Prop := is_Some (fs_file fs) → fs_dir fs = true.

#[export] Instance fs_ok_dec fs : Decision (fs_ok fs).
Proof. unfold fs_ok. apply _. Defined.

Definition tasks_path : string := "db/tasks.json".

(** [os.Stat(tasks_path)], reduced to its error. *)
Definition os_Stat : io FS Error unit := λ fs,
  match fs_dir fs, fs_file fs with
  | true, Some _ => (fs, Ok ())
  | _, _ => (fs, Err ErrNotExist)
  end.

(** [os.IsNotExist(err)]. *)
Definition os_IsNotExist (r : result Error unit) : bool :=
  match r with
  | Err ErrNotExist => true
  | _ => false
  end.

(** [os.Create(tasks_path)]: create the file empty, or truncate it. *)
Definition os_Create : io FS Error unit := λ fs,
  if fs_dir fs then
    match fs_file fs with
    | Some f =>
        if writable f
        then (mkFS true (Some (mkFile "" (readable f) true)), Ok ())
        else (fs, Err ErrPermission)
    | None => (mkFS true (Some (mkFile "" true true)), Ok ())
    end
  else (fs, Err ErrNotExist).

(** [os.ReadFile(tasks_path)]. *)
Definition os_ReadFile : io FS Error string := λ fs,
  match fs_dir fs, fs_file fs with
  | true, Some f =>
      if readable f then (fs, Ok (content f)) else (fs, Err ErrPermission)
  | _, _ => (fs, Err ErrNotExist)
  end.

(** [os.WriteFile(tasks_path, data, 0644)]: replace the contents, creating
    the file if need be. *)
Definition os_WriteFile (data : string) : io FS Error unit := λ fs,
  if fs_dir fs then
    match fs_file fs with
    | Some f =>
        if writable f
        then (mkFS true (Some (mkFile data (readable f) true)), Ok ())
        else (fs, Err ErrPermission)
    | None => (mkFS true (Some (mkFile data true true)), Ok ())
    end
  else (fs, Err ErrNotExist).

(** A pure fallible result as a step of the computation. *)
Definition io_lift {A} (r : result Error A) : io FS Error A := λ fs, (fs, r).

(** ** The JSON encoder, as an interface *)

(** What [createTask] needs of [json.Marshal] and [json.Unmarshal] at the
    type of a slice of task pointers.  [Unmarshal] gives the elements of
    the slice it fills (none for the document [null]).

    [encodable] singles out the tasks that have a JSON text: encoding
    succeeds on them and on no others.  Encoding loses what JSON cannot
    carry (bytes that are not UTF-8 become U+FFFD): [coerce] is the task
    that comes back when the text of a task is decoded.  Decoding yields
    tasks that are encodable and that [coerce] leaves alone. *)
Class Codec : Type := {
  Marshal : list TaskPtr → result Error string;
  Unmarshal : string → result Error (list TaskPtr);
  encodable : TaskPtr → Prop;
  coerce : TaskPtr → TaskPtr;
  Marshal_ok ts : is_ok (Marshal ts) = true ↔ Forall encodable ts;
  Marshal_not_empty ts data : Marshal ts = Ok data → data ≠ "";
  Unmarshal_Marshal ts data :
    Forall wf_ptr ts → Marshal ts = Ok data →
    Unmarshal data = Ok (coerce <$> ts);
  Unmarshal_ok data ts :
    Unmarshal data = Ok ts →
    Forall (λ t, wf_ptr t ∧ encodable t ∧ coerce t = t) ts;
}.

(** ** [createTask] *)

Section createTask.
Context `{Codec}.

Local Open Scope io_scope.

(** The first statement: create the file when [os.Stat] reports that it
    does not exist.  The result of [os.Create] is dropped. *)
Definition ensureFile : io FS Error unit :=
  let* st := io_try os_Stat in
  if os_IsNotExist st
  then let* _ := io_try os_Create in io_ret ()
  else io_ret ().

(** Read the file and decode it; an empty file holds no task. *)
Definition readTasks : io FS Error (list TaskPtr) :=
  let* b := os_ReadFile in
  if decide (String.length b ≠ 0%nat)
  then io_lift (Unmarshal b)
  else io_ret [].

(** [createTask(task)]. *)
Definition createTask (task : TaskPtr) : io FS Error unit :=
  let* _ := ensureFile in
  let* tasks := readTasks in
  let tasks := tasks ++ [task] in
  let* data := io_lift (Marshal tasks) in
  os_WriteFile data.

(** The tasks a file system holds: those of the file's contents; none when
    the file is absent or empty; nothing to say when it does not decode. *)
Definition stored (fs : FS) : option (list TaskPtr) :=
  match fs_file fs with
  | None => Some []
  | Some f =>
      if decide (String.length (content f) ≠ 0%nat)
      then result_to_option (Unmarshal (content f))
      else Some []
  end.

(** The file system lets [createTask] through: the directory exists and
    the file, if it exists, may be read and written. *)
Definition usable (fs : FS) : Prop :=
  fs_dir fs = true ∧
  ∀ f, fs_file fs = Some f → readable f = true ∧ writable f = true.

(** The tasks the file gives back as they were stored: times that are
    times, within the years and offsets that have a text, and strings of
    UTF-8. *)
Definition ptr_ok (t : TaskPtr) : Prop := wf_ptr t ∧ encodable t ∧ coerce t = t.

(** The file is absent, empty, or holds a document that decodes. *)
Definition decodable (fs : FS) : Prop := is_Some (stored fs).

End createTask.
