(* ===== verification/Json.v ===== *)
(** * Json: the syntax of JSON documents

    What package [encoding/json] does with text before any Go value is
    involved: the values of the grammar ([json]), the layout [json.Marshal]
    writes ([print]: no space, members in the order given), and the reader
    ([parse]), which accepts the grammar of RFC 8259 with space between
    the tokens and nothing but space after the value.

    A string is kept as the text between its quotes, escapes included, and
    a number as its literal: the reader checks them and leaves their
    interpretation to the decoder of the Go value ([Quote], [JsonTask]).

    The parser runs on fuel, twice the length of the text and one:
    [parse_total] shows that this is enough, so that a text the parser
    does not accept is malformed.  [parse_print] is the round trip. *)

From S2P Require Import Prelude Tea Utf8.

Local Open Scope Z_scope.

(** ** Values *)

#[warnings="-register-all"]
Inductive json : Type :=
  | JNull
  | JBool (b : bool)
  | JNum (lit : text)
  | JStr (raw : text)
  | JArr (vs : list json)
  | JObj (ms : list (text * json)).

(** ** Printing, as [json.Marshal] lays a document out *)

Definition T (s : string) : text := text_of_string s.

#[warnings="-notation-for-abbreviation"]
Notation dquote := (Ascii.Ascii false true false false false true false false).

Definition quoted (raw : text) : text := dquote :: raw ++ [dquote].

(** The texts of a list, separated by commas. *)
Fixpoint commas (ts : list text) : text :=
  match ts with
  | [] => []
  | [t] => t
  | t :: ts => t ++ T "," ++ commas ts
  end.

Fixpoint print (v : json) : text :=
  match v with
  | JNull => T "null"
  | JBool true => T "true"
  | JBool false => T "false"
  | JNum lit => lit
  | JStr raw => quoted raw
  | JArr vs => T "[" ++ commas (print <$> vs) ++ T "]"
  | JObj ms =>
      T "{" ++ commas ((λ m, quoted m.1 ++ T ":" ++ print m.2) <$> ms) ++ T "}"
  end.

(** ** Scanning *)

Inductive parsed (A : Type) : Type :=
  | Parsed (x : A) (rest : text)
  | Malformed
  | OutOfFuel.
Arguments Parsed {A} x rest.
Arguments Malformed {A}.
Arguments OutOfFuel {A}.

Definition parsed_bind {A B} (p : parsed A) (k : A → text → parsed B) : parsed B :=
  match p with
  | Parsed x rest => k x rest
  | Malformed => Malformed
  | OutOfFuel => OutOfFuel
  end.

Definition of_option {A} (o : option (A * text)) : parsed A :=
  match o with
  | Some (x, rest) => Parsed x rest
  | None => Malformed
  end.

(** [isSpace]: space, tab, carriage return, line feed. *)
Definition isSpace (c : Ascii.ascii) : bool :=
  let b := byte c in (b =? 32) || (b =? 9) || (b =? 13) || (b =? 10).

Fixpoint skip_ws (s : text) : text :=
  match s with
  | c :: s' => if isSpace c then skip_ws s' else s
  | [] => []
  end.

Definition isDigit (c : Ascii.ascii) : bool := within 48 57 (byte c).

Definition isHex (c : Ascii.ascii) : bool :=
  let b := byte c in within 48 57 b || within 97 102 b || within 65 70 b.

(** The characters that may follow a backslash, [u] apart. *)
Definition isEscape (c : Ascii.ascii) : bool :=
  bool_decide (byte c ∈ [98; 102; 110; 114; 116; 92; 47; 34]).

Definition prepend (p : text) (o : option (text * text)) : option (text * text) :=
  match o with
  | Some (raw, rest) => Some (p ++ raw, rest)
  | None => None
  end.

(** The body of a string literal, after its opening quote: the text up to
    the closing quote, with its escapes checked and left as they are, and
    what follows the closing quote. *)
Fixpoint scan_string (s : text) : option (text * text) :=
  match s with
  | [] => None
  | c :: s1 =>
    if byte c =? 34 then Some ([], s1)
    else if byte c =? 92 then
      match s1 with
      | e :: s2 =>
        if isEscape e then prepend [c; e] (scan_string s2)
        else if byte e =? 117 then
          match s2 with
          | h1 :: h2 :: h3 :: h4 :: s6 =>
            if isHex h1 && isHex h2 && isHex h3 && isHex h4
            then prepend [c; e; h1; h2; h3; h4] (scan_string s6)
            else None
          | _ => None
          end
        else None
      | [] => None
      end
    else if byte c <? 32 then None
    else prepend [c] (scan_string s1)
  end.

(** The digits at the start of a text, and what follows them. *)
Fixpoint digits (s : text) : text * text :=
  match s with
  | c :: s' => if isDigit c then let '(d, r) := digits s' in (c :: d, r) else ([], s)
  | [] => ([], [])
  end.

(** A number literal: sign, integer part, fraction, exponent. *)
Definition scan_int (s : text) : option (text * text) :=
  match s with
  | c :: s1 =>
    if byte c =? 48 then Some ([c], s1)
    else if isDigit c then let '(d, r) := digits s1 in Some (c :: d, r)
    else None
  | [] => None
  end.

Definition scan_frac (s : text) : option (text * text) :=
  match s with
  | c :: s1 =>
    if byte c =? 46 then
      match digits s1 with
      | ([], _) => None
      | (d, r) => Some (c :: d, r)
      end
    else Some ([], s)
  | [] => Some ([], [])
  end.

Definition scan_sign (s : text) : text * text :=
  match s with
  | c :: s1 => if (byte c =? 43) || (byte c =? 45) then ([c], s1) else ([], s)
  | [] => ([], [])
  end.

Definition scan_exp (s : text) : option (text * text) :=
  match s with
  | c :: s1 =>
    if (byte c =? 101) || (byte c =? 69) then
      let '(sg, s2) := scan_sign s1 in
      match digits s2 with
      | ([], _) => None
      | (d, r) => Some (c :: sg ++ d, r)
      end
    else Some ([], s)
  | [] => Some ([], [])
  end.

Definition scan_number (s : text) : option (text * text) :=
  let '(sg, s1) := match s with
                   | c :: s' => if byte c =? 45 then ([c], s') else ([], s)
                   | [] => ([], [])
                   end in
  '(i, s2) ← scan_int s1;
  '(f, s3) ← scan_frac s2;
  '(e, s4) ← scan_exp s3;
  Some (sg ++ i ++ f ++ e, s4).

(** A literal name, after its first letter. *)
Definition expect (lit : text) (v : json) (s : text) : parsed json :=
  if decide (take (length lit) s = lit)
  then Parsed v (drop (length lit) s) else Malformed.

(** What follows an element of an array or a member of an object: a comma
    and more, or the closing bracket. *)
Definition next_item {A} (close : Z) (x : A) (more : text → parsed (list A))
    (s : text) : parsed (list A) :=
  match skip_ws s with
  | c :: rest =>
    if byte c =? 44 then parsed_bind (more rest) (λ xs rest', Parsed (x :: xs) rest')
    else if byte c =? close then Parsed [x] rest
    else Malformed
  | [] => Malformed
  end.

(** A bracketed list: empty, or items up to the closing bracket. *)
Definition bracketed {A} (close : Z) (items : text → parsed (list A))
    (s : text) : parsed (list A) :=
  match skip_ws s with
  | c :: rest => if byte c =? close then Parsed [] rest else items s
  | [] => Malformed
  end.

Fixpoint parse_value (n : nat) (s : text) : parsed json :=
  match n with
  | O => OutOfFuel
  | S n =>
    match skip_ws s with
    | [] => Malformed
    | c :: rest =>
      let b := byte c in
      if b =? 110 then expect (T "ull") JNull rest
      else if b =? 116 then expect (T "rue") (JBool true) rest
      else if b =? 102 then expect (T "alse") (JBool false) rest
      else if b =? 34 then
        parsed_bind (of_option (scan_string rest)) (λ raw r, Parsed (JStr raw) r)
      else if b =? 91 then
        parsed_bind (bracketed 93 (parse_elems n) rest) (λ vs r, Parsed (JArr vs) r)
      else if b =? 123 then
        parsed_bind (bracketed 125 (parse_members n) rest) (λ ms r, Parsed (JObj ms) r)
      else
        parsed_bind (of_option (scan_number (c :: rest))) (λ lit r, Parsed (JNum lit) r)
    end
  end
with parse_elems (n : nat) (s : text) : parsed (list json) :=
  match n with
  | O => OutOfFuel
  | S n =>
    parsed_bind (parse_value n s) (λ v rest, next_item 93 v (parse_elems n) rest)
  end
with parse_members (n : nat) (s : text) : parsed (list (text * json)) :=
  match n with
  | O => OutOfFuel
  | S n =>
    match skip_ws s with
    | c :: s1 =>
      if byte c =? 34 then
        parsed_bind (of_option (scan_string s1)) (λ k s2,
          match skip_ws s2 with
          | c2 :: s3 =>
            if byte c2 =? 58 then
              parsed_bind (parse_value n s3) (λ v rest,
                next_item 125 (k, v) (parse_members n) rest)
            else Malformed
          | [] => Malformed
          end)
      else Malformed
    | [] => Malformed
    end
  end.

(** A whole document: one value, with nothing but space after it. *)
Definition parse (s : text) : parsed json :=
  parsed_bind (parse_value (2 * length s + 1) s) (λ v rest,
    match skip_ws rest with
    | [] => Parsed v []
    | _ => Malformed
    end).

(** ** Specifications *)

(** The texts the scanner takes for the body of a string literal. *)
Inductive string_lit : text → Prop :=
  | lit_nil : string_lit []
  | lit_plain c raw :
      byte c ≠ 34 → byte c ≠ 92 → 32 ≤ byte c →
      string_lit raw → string_lit (c :: raw)
  | lit_escape c e raw :
      byte c = 92 → isEscape e = true →
      string_lit raw → string_lit (c :: e :: raw)
  | lit_unicode c e h1 h2 h3 h4 raw :
      byte c = 92 → byte e = 117 →
      isHex h1 && isHex h2 && isHex h3 && isHex h4 = true →
      string_lit raw → string_lit (c :: e :: h1 :: h2 :: h3 :: h4 :: raw).

(** A byte that stands for itself in a literal: no backslash, no quote, no
    control character. *)
Definition plain (a : Ascii.ascii) : Prop :=
  byte a ≠ 92 ∧ byte a ≠ 34 ∧ 32 ≤ byte a.

#[export] Instance plain_dec a : Decision (plain a).
Proof. unfold plain. apply _. Defined.

(** The values that have a text of their own: every string a literal, and
    no number (the encoder of tasks writes none). *)
#[warnings="-register-all"]
Inductive wf_json : json → Prop :=
  | wf_JNull : wf_json JNull
  | wf_JBool b : wf_json (JBool b)
  | wf_JStr raw : string_lit raw → wf_json (JStr raw)
  | wf_JArr vs : Forall wf_json vs → wf_json (JArr vs)
  | wf_JObj ms :
      Forall (λ m, string_lit m.1 ∧ wf_json m.2) ms → wf_json (JObj ms).

(** A parser that takes at least a byte. *)
Definition shortens {A} (p : text → parsed A) : Prop :=
  ∀ s x r, p s = Parsed x r → (length r < length s)%nat.

(** A parser that returns the value, or runs out of fuel. *)
Definition agrees {A} (p : parsed A) (x : A) (r : text) : Prop :=
  p = Parsed x r ∨ p = OutOfFuel.

(** The first byte of a printed value: neither space nor a closing
    bracket. *)
Definition opens (s : text) : Prop :=
  ∃ c t, s = c :: t ∧ isSpace c = false ∧ byte c ≠ 93 ∧ byte c ≠ 125.

(** A value whose text is read back, whatever follows it. *)
Definition reads (v : json) : Prop :=
  ∀ n rest, agrees (parse_value n (print v ++ rest)) v rest.

(** A member of an object as it is printed. *)
Definition printed_member (m : text * json) : text :=
  quoted m.1 ++ T ":" ++ print m.2.

(** ** What a scanner leaves is what it was given, less what it took *)

Lemma skip_ws_length s : (length (skip_ws s) ≤ length s)%nat.
Proof. induction s as [|c s IH]; simpl; [done|]. case_match; simpl; lia. Qed.

Lemma skip_ws_cons s c rest :
  skip_ws s = c :: rest → (length rest < length s)%nat.
Proof. intros H. pose proof (skip_ws_length s) as Hl. rewrite H in Hl. simpl in Hl. lia. Qed.

(** Induction on texts by their length. *)
Lemma text_length_ind (P : text → Prop) :
  (∀ s, (∀ s', (length s' < length s)%nat → P s') → P s) → ∀ s, P s.
Proof.
  intros Hstep s. remember (length s) as n eqn:Hn. revert s Hn.
  induction n as [n IH] using lt_wf_ind. intros s ->. apply Hstep.
  intros s' Hs'. by eapply IH.
Qed.

Lemma prepend_Some p o raw rest :
  prepend p o = Some (raw, rest) ↔ ∃ raw', o = Some (raw', rest) ∧ raw = p ++ raw'.
Proof.
  destruct o as [[raw' rest']|]; simpl; split.
  - intros Heq. injection Heq as <- <-. eauto.
  - intros (raw'' & Ho & ->). by injection Ho as <- <-.
  - done.
  - by intros (? & ? & _).
Qed.

(** A string literal is cut at its closing quote. *)
Lemma scan_string_split s raw rest :
  scan_string s = Some (raw, rest) → s = raw ++ dquote :: rest.
Proof.
  revert raw rest. induction s as [s IH] using text_length_ind. intros raw rest.
  destruct s as [|c s1]; [done|]. cbn [scan_string].
  destruct (byte c =? 34) eqn:Hq.
  { intros [= <- <-]. apply Z.eqb_eq in Hq. simpl. f_equal.
    by apply (inj byte). }
  destruct (byte c =? 92).
  - destruct s1 as [|e s2]; [done|]. destruct (isEscape e).
    { intros (raw' & H & ->)%prepend_Some. apply IH in H; [|simpl; lia].
      by rewrite H. }
    destruct (byte e =? 117); [|done].
    destruct s2 as [|h1 [|h2 [|h3 [|h4 s6]]]]; try done.
    destruct (_ && _); [|done].
    intros (raw' & H & ->)%prepend_Some. apply IH in H; [|simpl; lia].
    by rewrite H.
  - destruct (byte c <? 32); [done|].
    intros (raw' & H & ->)%prepend_Some. apply IH in H; [|simpl; lia].
    by rewrite H.
Qed.

Lemma digits_split s d r : digits s = (d, r) → s = d ++ r.
Proof.
  revert d r. induction s as [|c s IH]; intros d r; simpl; [by intros [= <- <-]|].
  destruct (isDigit c); [|by intros [= <- <-]].
  destruct (digits s) as [d' r']. intros [= <- <-]. by rewrite (IH d' r').
Qed.

Lemma scan_int_split s i r : scan_int s = Some (i, r) → s = i ++ r ∧ i ≠ [].
Proof.
  destruct s as [|c s1]; [done|]. simpl.
  destruct (byte c =? 48); [by intros [= <- <-]|].
  destruct (isDigit c); [|done].
  destruct (digits s1) as [d r'] eqn:Hd. intros [= <- <-].
  by rewrite (digits_split _ _ _ Hd).
Qed.

Lemma scan_frac_split s f r : scan_frac s = Some (f, r) → s = f ++ r.
Proof.
  destruct s as [|c s1]; [by intros [= <- <-]|]. simpl.
  destruct (byte c =? 46); [|by intros [= <- <-]].
  destruct (digits s1) as [[|d0 d] r'] eqn:Hd; [done|]. intros [= <- <-].
  by rewrite (digits_split _ _ _ Hd).
Qed.

Lemma scan_exp_split s e r : scan_exp s = Some (e, r) → s = e ++ r.
Proof.
  destruct s as [|c s1]; [by intros [= <- <-]|]. simpl.
  destruct (_ || _); [|by intros [= <- <-]].
  destruct (scan_sign s1) as [sg s2] eqn:Hs.
  destruct (digits s2) as [[|d0 d] r'] eqn:Hd; [done|]. intros [= <- <-].
  apply digits_split in Hd. subst s2.
  destruct s1 as [|c1 s1]; simpl in Hs; [by simplify_eq|].
  destruct (_ || _); simplify_eq/=; done.
Qed.

(** A number literal is a prefix of the text, and not an empty one. *)
Lemma scan_number_split s lit r :
  scan_number s = Some (lit, r) → s = lit ++ r ∧ lit ≠ [].
Proof.
  unfold scan_number.
  destruct (match s with [] => _ | c :: s' => _ end) as [sg s1] eqn:Hsg.
  assert (s = sg ++ s1) as ->.
  { destruct s as [|c s']; [by injection Hsg as <- <-|].
    by destruct (byte c =? 45); injection Hsg as <- <-. }
  destruct (scan_int s1) as [[i s2]|] eqn:Hi; simpl; [|done].
  destruct (scan_frac s2) as [[f s3]|] eqn:Hf; simpl; [|done].
  destruct (scan_exp s3) as [[e s4]|] eqn:He; simpl; [|done].
  intros [= <- <-].
  apply scan_int_split in Hi as [-> Hi].
  apply scan_frac_split in Hf as ->. apply scan_exp_split in He as ->.
  split; [by rewrite <- !(assoc_L (++))|].
  destruct sg; [|done]. by destruct i.
Qed.

(** ** Every parser takes at least a byte *)

Lemma parsed_bind_Parsed {A B} (p : parsed A) (k : A → text → parsed B) y r :
  parsed_bind p k = Parsed y r ↔ ∃ x r', p = Parsed x r' ∧ k x r' = Parsed y r.
Proof. destruct p; simpl; naive_solver. Qed.

Lemma of_option_Parsed {A} (o : option (A * text)) x r :
  of_option o = Parsed x r ↔ o = Some (x, r).
Proof. destruct o as [[??]|]; simpl; naive_solver. Qed.

Lemma expect_shorter lit v s r x :
  expect lit v s = Parsed x r → (length r ≤ length s)%nat.
Proof.
  unfold expect. case_decide; [|done]. intros [= _ <-].
  rewrite length_drop. lia.
Qed.

Lemma scan_string_shorter s raw rest :
  scan_string s = Some (raw, rest) → (length rest < length s)%nat.
Proof. intros ->%scan_string_split. rewrite length_app. simpl. lia. Qed.

Lemma scan_number_shorter s lit rest :
  scan_number s = Some (lit, rest) → (length rest < length s)%nat.
Proof.
  intros [-> Hl]%scan_number_split. rewrite length_app.
  destruct lit; [done|simpl; lia].
Qed.

Lemma next_item_shortens {A} close (x : A) more s xs r :
  shortens more → next_item close x more s = Parsed xs r →
  (length r < length s)%nat.
Proof.
  intros Hm. unfold next_item. destruct (skip_ws s) as [|c rest] eqn:Hs; [done|].
  apply skip_ws_cons in Hs. destruct (byte c =? 44).
  - intros (xs' & r' & Hr & [= _ <-])%parsed_bind_Parsed. apply Hm in Hr. lia.
  - destruct (byte c =? close); [|done]. intros [= _ <-]. lia.
Qed.

Lemma bracketed_shortens {A} close (items : text → parsed (list A)) s xs r :
  shortens items → bracketed close items s = Parsed xs r →
  (length r < length s)%nat.
Proof.
  intros Hi. unfold bracketed. destruct (skip_ws s) as [|c rest] eqn:Hs; [done|].
  apply skip_ws_cons in Hs. destruct (byte c =? close).
  - intros [= _ <-]. lia.
  - apply Hi.
Qed.

Lemma parse_value_shortens n :
  shortens (parse_elems n) → shortens (parse_members n) →
  shortens (parse_value (S n)).
Proof.
  intros IHe IHm s v r. cbn [parse_value].
  destruct (skip_ws s) as [|c rest] eqn:Hs; [done|].
  apply skip_ws_cons in Hs. cbn zeta.
  repeat case_match; try (intros H'%expect_shorter; lia);
    intros (x & r' & Hp & [= _ <-])%parsed_bind_Parsed.
  - apply of_option_Parsed, scan_string_shorter in Hp. lia.
  - apply bracketed_shortens in Hp; [lia|done].
  - apply bracketed_shortens in Hp; [lia|done].
  - apply of_option_Parsed, scan_number_shorter in Hp. simpl in Hp. lia.
Qed.

Lemma parse_members_shortens n :
  shortens (parse_value n) → shortens (parse_members n) →
  shortens (parse_members (S n)).
Proof.
  intros IHv IHm s ms r. cbn [parse_members].
  destruct (skip_ws s) as [|c s1] eqn:Hs; [done|].
  apply skip_ws_cons in Hs. destruct (byte c =? 34); [|done].
  intros (k & s2 & Hk%of_option_Parsed%scan_string_shorter & H)%parsed_bind_Parsed.
  destruct (skip_ws s2) as [|c2 s3] eqn:Hs2; [done|].
  apply skip_ws_cons in Hs2. destruct (byte c2 =? 58); [|done].
  apply parsed_bind_Parsed in H as (v & rest & Hv%IHv & H).
  apply next_item_shortens in H; [lia|done].
Qed.

Lemma parse_shortens n :
  shortens (parse_value n) ∧ shortens (parse_elems n) ∧ shortens (parse_members n).
Proof.
  induction n as [|n (IHv & IHe & IHm)]; [done|]. split_and!.
  - by apply parse_value_shortens.
  - intros s vs r. cbn [parse_elems].
    intros (v & rest & Hv%IHv & H)%parsed_bind_Parsed.
    apply next_item_shortens in H; [lia|done].
  - by apply parse_members_shortens.
Qed.

(** ** The fuel is enough *)

Lemma parsed_bind_fuel {A B} (p : parsed A) (k : A → text → parsed B) :
  p ≠ OutOfFuel → (∀ x r, p = Parsed x r → k x r ≠ OutOfFuel) →
  parsed_bind p k ≠ OutOfFuel.
Proof. destruct p; simpl; naive_solver. Qed.

Lemma of_option_fuel {A} (o : option (A * text)) : of_option o ≠ OutOfFuel.
Proof. by destruct o as [[??]|]. Qed.

Lemma next_item_fuel {A} close (x : A) more s :
  (∀ s', (length s' < length s)%nat → more s' ≠ OutOfFuel) →
  next_item close x more s ≠ OutOfFuel.
Proof.
  intros Hm. unfold next_item. destruct (skip_ws s) as [|c rest] eqn:Hs; [done|].
  apply skip_ws_cons in Hs. destruct (byte c =? 44).
  - apply parsed_bind_fuel; [by apply Hm|done].
  - by destruct (byte c =? close).
Qed.

Lemma bracketed_fuel {A} close (items : text → parsed (list A)) s :
  items s ≠ OutOfFuel → bracketed close items s ≠ OutOfFuel.
Proof.
  intros Hi. unfold bracketed. destruct (skip_ws s) as [|c rest]; [done|].
  by destruct (byte c =? close).
Qed.

Lemma parse_fuel n :
  (∀ s, (2 * length s + 1 ≤ n)%nat → parse_value n s ≠ OutOfFuel) ∧
  (∀ s, (2 * length s + 2 ≤ n)%nat → parse_elems n s ≠ OutOfFuel) ∧
  (∀ s, (2 * length s + 2 ≤ n)%nat → parse_members n s ≠ OutOfFuel).
Proof.
  induction n as [|n (IHv & IHe & IHm)]; [split_and!; intros s; lia|].
  destruct (parse_shortens n) as (Sv & Se & Sm).
  split_and!; intros s Hn.
  - cbn [parse_value]. destruct (skip_ws s) as [|c rest] eqn:Hs; [done|].
    apply skip_ws_cons in Hs. cbn zeta. unfold expect.
    repeat case_match; try done;
      (apply parsed_bind_fuel; [|done]); try apply of_option_fuel;
      apply bracketed_fuel; (apply IHe || apply IHm); lia.
  - cbn [parse_elems]. apply parsed_bind_fuel; [apply IHv; lia|].
    intros v r Hv%Sv. apply next_item_fuel. intros s' Hs'. apply IHe. lia.
  - cbn [parse_members]. destruct (skip_ws s) as [|c s1] eqn:Hs; [done|].
    apply skip_ws_cons in Hs. destruct (byte c =? 34); [|done].
    apply parsed_bind_fuel; [apply of_option_fuel|].
    intros k s2 Hk%of_option_Parsed%scan_string_shorter.
    destruct (skip_ws s2) as [|c2 s3] eqn:Hs2; [done|].
    apply skip_ws_cons in Hs2. destruct (byte c2 =? 58); [|done].
    apply parsed_bind_fuel; [apply IHv; lia|].
    intros v r Hv%Sv. apply next_item_fuel. intros s' Hs'. apply IHm. lia.
Qed.

(** [parse] never runs out of fuel: what it does not accept is malformed. *)
Theorem parse_total s : parse s ≠ OutOfFuel.
Proof.
  unfold parse. apply parsed_bind_fuel.
  - apply parse_fuel. lia.
  - intros v r _. by destruct (skip_ws r).
Qed.

(** ** What the printer writes, the parser reads back *)

(** Induction on values, through the lists they nest. *)
Section json_ind.
Context (P : json → Prop).
Context (Hnull : P JNull) (Hbool : ∀ b, P (JBool b)) (Hnum : ∀ l, P (JNum l)).
Context (Hstr : ∀ r, P (JStr r)).
Context (Harr : ∀ vs, Forall P vs → P (JArr vs)).
Context (Hobj : ∀ ms, Forall (λ m, P m.2) ms → P (JObj ms)).

Fixpoint json_nested_ind (v : json) : P v :=
  match v with
  | JNull => Hnull
  | JBool b => Hbool b
  | JNum l => Hnum l
  | JStr r => Hstr r
  | JArr vs =>
      Harr vs ((fix go (vs : list json) : Forall P vs :=
                  match vs with
                  | [] => @List.Forall_nil _ P
                  | v :: vs => @List.Forall_cons _ P v vs (json_nested_ind v) (go vs)
                  end) vs)
  | JObj ms =>
      Hobj ms ((fix go (ms : list (text * json)) : Forall (λ m, P m.2) ms :=
                  match ms with
                  | [] => @List.Forall_nil _ _
                  | m :: ms =>
                      @List.Forall_cons _ (λ m, P m.2) m ms (json_nested_ind m.2) (go ms)
                  end) ms)
  end.
End json_ind.

Lemma agrees_bind {A B} (p : parsed A) (k : A → text → parsed B) x r y r' :
  agrees p x r → agrees (k x r) y r' → agrees (parsed_bind p k) y r'.
Proof. intros [->| ->] Hk; [done|by right]. Qed.

Lemma string_lit_plain s : Forall plain s → string_lit s.
Proof. induction 1 as [|c s (? & ? & ?) _ IH]; by constructor. Qed.

Lemma scan_string_lit raw rest :
  string_lit raw → scan_string (raw ++ dquote :: rest) = Some (raw, rest).
Proof.
  induction 1 as [|c raw H1 H2 H3 _ IH|c e raw H1 H2 _ IH
                  |c e h1 h2 h3 h4 raw H1 H2 H3 _ IH]; cbn [app scan_string].
  - done.
  - rewrite (proj2 (Z.eqb_neq _ _) H1), (proj2 (Z.eqb_neq _ _) H2),
      (proj2 (Z.ltb_ge _ _) H3), IH. done.
  - rewrite H1, H2, IH. done.
  - rewrite H1, H2, H3, IH.
    destruct (isEscape e) eqn:He; [|done].
    unfold isEscape in He. rewrite H2 in He. by vm_compute in He.
Qed.

Lemma print_opens v rest : wf_json v → opens (print v ++ rest).
Proof.
  destruct 1 as [|[]| | |]; eexists _, _; (split; [reflexivity|done]).
Qed.

Lemma skip_ws_opens s : opens s → skip_ws s = s.
Proof. intros (c & t & -> & Hc & _). simpl. by rewrite Hc. Qed.

Lemma bracketed_opens {A} close (items : text → parsed (list A)) s :
  opens s → close = 93 ∨ close = 125 → bracketed close items s = items s.
Proof.
  intros Ho Hc. unfold bracketed. rewrite skip_ws_opens by done.
  destruct Ho as (c & t & -> & _ & H1 & H2).
  by rewrite (proj2 (Z.eqb_neq (byte c) close)) by (destruct Hc as [-> | ->]; done).
Qed.

Lemma commas_opens t ts r :
  (∀ r', opens (t ++ r')) → opens (commas (t :: ts) ++ r).
Proof.
  intros Ht. destruct ts; cbn [commas]; rewrite <- ?(assoc_L (++)); apply Ht.
Qed.

(** Evaluate the tests on the literal bytes of the goal. *)
Ltac eval_bytes :=
  repeat match goal with
  | |- context [isSpace (Ascii.Ascii ?a ?b ?c ?d ?e ?f ?g ?h)] =>
      let t := constr:(isSpace (Ascii.Ascii a b c d e f g h)) in
      let v := eval vm_compute in t in change t with v
  | |- context [byte (Ascii.Ascii ?a ?b ?c ?d ?e ?f ?g ?h)] =>
      let t := constr:(byte (Ascii.Ascii a b c d e f g h)) in
      let v := eval vm_compute in t in change t with v
  end.

Ltac parse_step :=
  repeat progress
    (cbn -[parse_value parse_elems parse_members print commas scan_string
           printed_member fmap];
     eval_bytes).

Lemma parse_elems_print v vs n rest :
  Forall reads (v :: vs) →
  agrees (parse_elems n (commas (print <$> v :: vs) ++ T "]" ++ rest)) (v :: vs) rest.
Proof.
  revert v n. induction vs as [|v' vs IH]; intros v n Hall;
    apply Forall_cons_1 in Hall as [Hv Hvs];
    (destruct n as [|n]; [by right|]); cbn [parse_elems].
  - change (commas (print <$> [v])) with (print v).
    eapply agrees_bind; [apply Hv|]. unfold next_item. parse_step. by left.
  - change (commas (print <$> v :: v' :: vs))
      with (print v ++ T "," ++ commas (print <$> v' :: vs)).
    rewrite <- !(assoc_L (++)).
    eapply agrees_bind; [apply Hv|].
    unfold next_item. parse_step.
    eapply agrees_bind; [apply IH, Hvs|]. by left.
Qed.

Lemma parse_members_print m ms n rest :
  Forall (λ m, string_lit m.1 ∧ reads m.2) (m :: ms) →
  agrees (parse_members n (commas (printed_member <$> m :: ms) ++ T "}" ++ rest))
         (m :: ms) rest.
Proof.
  revert m n. induction ms as [|m' ms IH]; intros [k v] n Hall;
    apply Forall_cons_1 in Hall as [[Hk Hv] Hms];
    (destruct n as [|n]; [by right|]); cbn [parse_members].
  - change (commas (printed_member <$> [(k, v)])) with (printed_member (k, v)).
    unfold printed_member, quoted. parse_step.
    rewrite <- !(assoc_L (++)). parse_step.
    rewrite scan_string_lit by done. parse_step.
    eapply agrees_bind; [apply Hv|]. unfold next_item. parse_step. by left.
  - change (commas (printed_member <$> (k, v) :: m' :: ms))
      with (printed_member (k, v) ++ T "," ++ commas (printed_member <$> m' :: ms)).
    unfold printed_member at 1, quoted. parse_step.
    rewrite <- !(assoc_L (++)). parse_step.
    rewrite scan_string_lit by done. parse_step.
    eapply agrees_bind; [apply Hv|].
    unfold next_item. parse_step.
    eapply agrees_bind; [apply IH, Hms|]. by left.
Qed.

Lemma print_reads v : wf_json v → reads v.
Proof.
  induction v as [|b|l|raw|vs IH|ms IH] using json_nested_ind;
    intros Hwf n rest; (destruct n as [|n]; [by right|]); inversion_clear Hwf.
  - by left.
  - destruct b; by left.
  - left. unfold print, quoted. cbn [parse_value]. parse_step.
    rewrite <- (assoc_L (++)). parse_step.
    by rewrite scan_string_lit.
  - assert (Forall reads vs) as Hall.
    { apply Forall_forall. intros v Hv. rewrite Forall_forall in IH, H. eauto. }
    cbn [parse_value print]. parse_step. rewrite <- (assoc_L (++)).
    destruct vs as [|v vs].
    { by left. }
    rewrite bracketed_opens; [| |by left].
    2:{ apply commas_opens. intros r'. apply print_opens.
        by apply Forall_cons_1 in H as [? _]. }
    eapply agrees_bind; [by apply parse_elems_print|]. by left.
  - assert (Forall (λ m, string_lit m.1 ∧ reads m.2) ms) as Hall.
    { apply Forall_forall. intros m Hm. rewrite Forall_forall in IH, H.
      split; [apply H, Hm|apply IH; [done|apply H, Hm]]. }
    cbn [parse_value print]. parse_step. rewrite <- (assoc_L (++)).
    destruct ms as [|m ms].
    { by left. }
    rewrite bracketed_opens; [| |by right].
    2:{ apply commas_opens. intros r'. by eexists _, _. }
    eapply agrees_bind; [by apply parse_members_print|]. by left.
Qed.

(** A well-formed value is read back from its text. *)
Theorem parse_print v : wf_json v → parse (print v) = Parsed v [].
Proof.
  intros Hv. pose proof (parse_total (print v)) as Ht. unfold parse in *.
  destruct (print_reads v Hv (2 * length (print v) + 1)%nat []) as [H|H];
    rewrite (right_id_L [] (++)) in H; rewrite H in *; done.
Qed.
