(* ===== verification/Quote.v ===== *)
(** * Quote: strings between Go and JSON

    How [json.Marshal] writes a Go string ([escape], the loop of
    [appendString] with HTML escaping on, as [Marshal] has it) and how
    [json.Unmarshal] reads the body of a string literal ([unquote], the
    loop of [unquoteBytes]).

    Writing escapes the quote, the backslash, the control characters,
    [<], [>], [&], U+2028 and U+2029, and writes the six characters of the
    escape of U+FFFD for every byte that is not part of a well-formed
    UTF-8 sequence.  Reading decodes the escapes, surrogate pairs
    included, and replaces stray bytes by U+FFFD.

    [unquote_escape] shows that reading what was written gives the string
    with its stray bytes replaced ([coerce_text]); [escape_lit] that what
    is written is accepted by the scanner of [Json]; [unquote_fixed] that
    what is read has no stray byte; [unquote_fast_path] that the short
    cut the library takes on literals without escapes agrees with its
    loop.

    [unquote] runs on fuel, the length of the literal and one; by
    [unquote_fuel_enough] more fuel changes nothing, so [None] means a
    literal the library rejects. *)

From S2P Require Import Prelude Tea Utf8 Json.

Local Open Scope Z_scope.

(** ** Writing a string: [appendString] *)

Definition bslash : Ascii.ascii := Eval cbv in byte_of_Z 92.

(** [hex]: the digit of a value below sixteen. *)
Definition hex (n : Z) : Ascii.ascii :=
  if n <? 10 then byte_of_Z (48 + n) else byte_of_Z (87 + n).

(** [htmlSafeSet], on the bytes below 128: all but the control
    characters, the quote, the backslash, and the three characters that
    HTML escaping replaces. *)
Definition htmlSafe (b : Z) : bool :=
  (32 <=? b) && negb (bool_decide (b ∈ [34; 92; 60; 62; 38])).

Definition escape_ascii (a : Ascii.ascii) : text :=
  let b := byte a in
  if htmlSafe b then [a]
  else if (b =? 92) || (b =? 34) then [bslash; a]
  else if b =? 8 then T "\b"
  else if b =? 12 then T "\f"
  else if b =? 10 then T "\n"
  else if b =? 13 then T "\r"
  else if b =? 9 then T "\t"
  else T "\u00" ++ [hex (Z.shiftr b 4); hex (Z.land b 15)].

(** What is written for one rune of the string. *)
Definition escape_chunk (rc : rune * text) : text :=
  let '(r, c) := rc in
  match c with
  | a :: _ =>
    if byte a <? 128 then escape_ascii a
    else if bool_decide (stray rc) then T "\u" ++ T "fffd"
    else if (r =? 8232) || (r =? 8233) then T "\u202" ++ [hex (Z.land r 15)]
    else c
  | [] => []
  end.

Definition escape (s : text) : text := chunks s ≫= escape_chunk.

(** ** Reading a string: [unquote] *)

Definition hexval (c : Ascii.ascii) : option Z :=
  let b := byte c in
  if within 48 57 b then Some (b - 48)
  else if within 97 102 b then Some (b - 87)
  else if within 65 70 b then Some (b - 55)
  else None.

(** [getu4]: the value of an escape [\uXXXX] at the start of the text. *)
Definition getu4 (s : text) : option rune :=
  match s with
  | c :: u :: h1 :: h2 :: h3 :: h4 :: _ =>
    if (byte c =? 92) && (byte u =? 117) then
      a ← hexval h1; b ← hexval h2; c ← hexval h3; d ← hexval h4;
      Some (((a * 16 + b) * 16 + c) * 16 + d)
    else None
  | _ => None
  end.

(** [utf16.IsSurrogate] and [utf16.DecodeRune]. *)
Definition IsSurrogate (r : rune) : bool := within 55296 57343 r.

Definition utf16_DecodeRune (r1 r2 : rune) : rune :=
  if within 55296 56319 r1 && within 56320 57343 r2
  then Z.lor (Z.shiftl (r1 - 55296) 10) (r2 - 56320) + 65536
  else RuneError.

(** The character a one-letter escape stands for. *)
Definition unescape (e : Ascii.ascii) : option Ascii.ascii :=
  let b := byte e in
  if bool_decide (b ∈ [34; 92; 47; 39]) then Some e
  else if b =? 98 then Some (byte_of_Z 8)
  else if b =? 102 then Some (byte_of_Z 12)
  else if b =? 110 then Some (byte_of_Z 10)
  else if b =? 114 then Some (byte_of_Z 13)
  else if b =? 116 then Some (byte_of_Z 9)
  else None.

Definition emit (p : text) (o : option text) : option text := (p ++.) <$> o.

(** One round of the loop of [unquoteBytes], with what is left handed to
    [rec]. *)
Definition unquote_step (rec : text → option text) (s : text) : option text :=
  match s with
  | [] => Some []
  | c :: s1 =>
    let b := byte c in
    if b =? 92 then
      match s1 with
      | [] => None
      | e :: s2 =>
        if byte e =? 117 then
          match getu4 s with
          | None => None
          | Some rr =>
            let s6 := drop 6 s in
            if IsSurrogate rr then
              let dec := from_option (utf16_DecodeRune rr) RuneError (getu4 s6) in
              if dec =? RuneError then emit (utf8 RuneError) (rec s6)
              else emit (utf8 dec) (rec (drop 6 s6))
            else emit (utf8 rr) (rec s6)
          end
        else
          match unescape e with
          | Some x => emit [x] (rec s2)
          | None => None
          end
      end
    else if (b =? 34) || (b <? 32) then None
    else if b <? 128 then emit [c] (rec s1)
    else let '(rr, k) := DecodeRune s in emit (utf8 rr) (rec (drop k s))
  end.

Fixpoint unquote_fuel (n : nat) (s : text) : option text :=
  match n with
  | O => None
  | S n => unquote_step (unquote_fuel n) s
  end.

(** [unquote] on the body of a literal.  Every round takes a byte at
    least, so the length and one is fuel enough. *)
Definition unquote (s : text) : option text := unquote_fuel (S (length s)) s.

(** ** Specifications *)

(** A result that has no stray byte. *)
Definition fixed (o : option text) : Prop := ∀ s, o = Some s → coerce_text s = s.

(** ** The loop of [unquote] *)

(** A round looks at [rec] on shorter texts only. *)
Lemma unquote_step_ext rec1 rec2 s :
  (∀ s', (length s' < length s)%nat → rec1 s' = rec2 s') →
  unquote_step rec1 s = unquote_step rec2 s.
Proof.
  intros Hrec. destruct s as [|c s1]; [done|]. unfold unquote_step.
  destruct (byte c =? 92).
  - destruct s1 as [|e s2]; [done|]. destruct (byte e =? 117).
    + destruct (getu4 _) as [rr|] eqn:Hg; [|done].
      destruct s2 as [|h1 [|h2 [|h3 [|h4 s6]]]]; try done.
      cbn [drop]. repeat case_match; rewrite Hrec; try done;
        rewrite ?length_drop; simpl; lia.
    + destruct (unescape e); [|done]. rewrite Hrec; [done|simpl; lia].
  - destruct (_ || _); [done|]. destruct (byte c <? 128).
    + rewrite Hrec; [done|simpl; lia].
    + destruct (DecodeRune (c :: s1)) as [rr k] eqn:Hd.
      apply DecodeRune_size in Hd; [|done].
      rewrite Hrec; [done|]. rewrite length_drop. simpl in *. lia.
Qed.

Lemma unquote_fuel_enough n m s :
  (length s < n)%nat → (length s < m)%nat → unquote_fuel n s = unquote_fuel m s.
Proof.
  revert m s. induction n as [|n IH]; intros m s Hn Hm; [lia|].
  destruct m as [|m]; [lia|]. cbn [unquote_fuel].
  apply unquote_step_ext. intros s' Hs'. apply IH; lia.
Qed.

Lemma unquote_unfold s : unquote s = unquote_step unquote s.
Proof.
  unfold unquote at 1. cbn [unquote_fuel]. apply unquote_step_ext.
  intros s' Hs'. apply unquote_fuel_enough; lia.
Qed.

(** ** What [escape] writes, [unquote] reads back *)

Lemma escape_nil : escape [] = [].
Proof. done. Qed.

Lemma escape_cons s r k :
  s ≠ [] → DecodeRune s = (r, k) →
  escape s = escape_chunk (r, take k s) ++ escape (drop k s).
Proof. intros Hs Hd. unfold escape. by rewrite (chunks_cons s r k). Qed.

(** An ASCII byte, as it is written. *)
Lemma unquote_step_ascii rec a rest :
  byte a < 128 →
  unquote_step rec (escape_ascii a ++ rest) = emit [a] (rec rest).
Proof.
  destruct a as [[] [] [] [] [] [] [] []]; intros Ha; try done; reflexivity.
Qed.

Lemma take_cons_pos {A} (a : A) (s : list A) (k : nat) :
  (1 ≤ k)%nat → take k (a :: s) = a :: take (k - 1) s.
Proof. destruct k; [lia|]. intros _. simpl. by rewrite Nat.sub_0_r. Qed.

(** The bytes of a well-formed sequence, read raw. *)
Lemma unquote_step_raw rec s r k rest :
  s ≠ [] → DecodeRune s = (r, k) → ¬ stray (r, take k s) →
  Forall (λ a, 128 ≤ byte a) (take 1 s) →
  unquote_step rec (take k s ++ rest) = emit (utf8 r) (rec rest).
Proof.
  intros Hs Hd Hv Ha.
  pose proof (DecodeRune_prefix s r k rest Hs Hd Hv) as Hp.
  pose proof (DecodeRune_size s r k Hs Hd) as Hk.
  destruct s as [|a s']; [done|]. apply Forall_cons_1 in Ha as [Ha _].
  rewrite take_cons_pos in * by lia. cbn [app unquote_step].
  rewrite (proj2 (Z.eqb_neq (byte a) 92)), (proj2 (Z.eqb_neq (byte a) 34)),
    (proj2 (Z.ltb_ge (byte a) 32)), (proj2 (Z.ltb_ge (byte a) 128)) by lia.
  cbn [orb]. cbn [app] in Hp. rewrite Hp.
  do 2 f_equal. rewrite app_comm_cons, drop_app_length'; [done|].
  simpl. rewrite length_take. simpl in Hk. lia.
Qed.

Lemma unquote_step_chunk rec s r k rest :
  s ≠ [] → DecodeRune s = (r, k) →
  unquote_step rec (escape_chunk (r, take k s) ++ rest) = emit (utf8 r) (rec rest).
Proof.
  intros Hs Hd. pose proof (DecodeRune_size s r k Hs Hd) as Hk.
  destruct s as [|a s'] eqn:Es; [done|]. rewrite <- Es in *.
  assert (take k s = a :: take (k - 1) s') as Et
    by (rewrite Es; apply take_cons_pos; lia).
  unfold escape_chunk. rewrite Et. destruct (byte a <? 128) eqn:Ha.
  { apply Z.ltb_lt in Ha. rewrite unquote_step_ascii by done.
    rewrite Es, DecodeRune_ascii in Hd by done. injection Hd as <- <-.
    by rewrite utf8_ascii. }
  apply Z.ltb_ge in Ha. rewrite <- Et.
  case_bool_decide as Hst.
  { destruct Hst as [Hr _]. simpl in Hr. by subst r. }
  destruct ((r =? 8232) || (r =? 8233)) eqn:Hr.
  { apply orb_true_iff in Hr as [->%Z.eqb_eq| ->%Z.eqb_eq]; reflexivity. }
  apply unquote_step_raw; try done. rewrite Es. by repeat constructor.
Qed.

Lemma unquote_escape_app s rest :
  unquote (escape s ++ rest) = emit (coerce_text s) (unquote rest).
Proof.
  induction s as [|s r k Hs Hd IH] using runes_ind.
  { simpl. unfold emit. by destruct (unquote rest). }
  rewrite (escape_cons s r k), (coerce_text_cons s r k) by done.
  rewrite <- (assoc_L (++)), unquote_unfold, unquote_step_chunk by done.
  rewrite IH. unfold emit. destruct (unquote rest); simpl; [|done].
  by rewrite (assoc_L (++)).
Qed.

(** A string that is written and read back is the string with its
    stray bytes replaced. *)
Theorem unquote_escape s : unquote (escape s) = Some (coerce_text s).
Proof.
  rewrite <- (right_id_L [] (++) (escape s)), unquote_escape_app.
  simpl. by rewrite (right_id_L [] (++)).
Qed.

(** ** What [escape] writes is the body of a literal *)

Lemma string_lit_app a b : string_lit a → string_lit b → string_lit (a ++ b).
Proof.
  induction 1; intros Hb; simpl; [done|by apply lit_plain; auto
                                 |by apply lit_escape; auto
                                 |by apply lit_unicode; auto].
Qed.

Lemma string_lit_high c : Forall (λ a, 128 ≤ byte a) c → string_lit c.
Proof.
  intros H. apply string_lit_plain. eapply Forall_impl; [exact H|].
  intros a Ha. unfold plain. simpl in Ha. lia.
Qed.

(** What the scanner takes is the body of a literal. *)
Lemma scan_string_is_lit s raw rest :
  scan_string s = Some (raw, rest) → string_lit raw.
Proof.
  revert raw rest. induction s as [s IH] using text_length_ind. intros raw rest.
  destruct s as [|c s1]; [done|]. cbn [scan_string].
  destruct (byte c =? 34) eqn:Hq; [intros [= <- <-]; constructor|].
  destruct (byte c =? 92) eqn:Hb.
  - destruct s1 as [|e s2]; [done|]. destruct (isEscape e) eqn:He.
    { intros (raw' & H & ->)%prepend_Some. apply IH in H; [|simpl; lia].
      apply lit_escape; [by apply Z.eqb_eq|done..]. }
    destruct (byte e =? 117) eqn:Hu; [|done].
    destruct s2 as [|h1 [|h2 [|h3 [|h4 s6]]]]; try done.
    destruct (_ && _) eqn:Hh; [|done].
    intros (raw' & H & ->)%prepend_Some. apply IH in H; [|simpl; lia].
    apply lit_unicode; [by apply Z.eqb_eq..|done|done].
  - destruct (byte c <? 32) eqn:Hc; [done|].
    intros (raw' & H & ->)%prepend_Some. apply IH in H; [|simpl; lia].
    apply lit_plain; [by apply Z.eqb_neq..|by apply Z.ltb_ge|done].
Qed.

Lemma escape_ascii_lit a : byte a < 128 → string_lit (escape_ascii a).
Proof.
  intros Ha. apply (scan_string_is_lit (escape_ascii a ++ [dquote]) _ []).
  revert Ha. destruct a as [[] [] [] [] [] [] [] []]; intros Ha; try done; reflexivity.
Qed.

Lemma escape_chunk_lit s r k :
  s ≠ [] → DecodeRune s = (r, k) → string_lit (escape_chunk (r, take k s)).
Proof.
  intros Hs Hd. pose proof (DecodeRune_size s r k Hs Hd) as Hk.
  destruct s as [|a s'] eqn:Es; [done|]. rewrite <- Es in *.
  assert (take k s = a :: take (k - 1) s') as Et
    by (rewrite Es; apply take_cons_pos; lia).
  unfold escape_chunk. rewrite Et. destruct (byte a <? 128) eqn:Ha.
  { apply escape_ascii_lit. by apply Z.ltb_lt. }
  apply Z.ltb_ge in Ha. rewrite <- Et. case_bool_decide as Hst.
  { by apply (scan_string_is_lit (T "\u" ++ T "fffd" ++ [dquote]) _ []). }
  destruct ((r =? 8232) || (r =? 8233)) eqn:Hr.
  { apply orb_true_iff in Hr as [->%Z.eqb_eq| ->%Z.eqb_eq];
      [by apply (scan_string_is_lit
                   ((T "\u202" ++ [hex (Z.land 8232 15)]) ++ [dquote]) _ [])
      |by apply (scan_string_is_lit
                   ((T "\u202" ++ [hex (Z.land 8233 15)]) ++ [dquote]) _ [])]. }
  apply string_lit_high, (DecodeRune_high s r k); try done.
  rewrite Es. by repeat constructor.
Qed.

(** What [escape] writes is the body of a string literal: the scanner
    takes it whole. *)
Theorem escape_lit s : string_lit (escape s).
Proof.
  induction s as [|s r k Hs Hd IH] using runes_ind; [constructor|].
  rewrite (escape_cons s r k) by done.
  apply string_lit_app; [by apply escape_chunk_lit|done].
Qed.

(** ** What [unquote] returns is UTF-8 *)

Lemma coerce_text_ascii a s :
  byte a < 128 → coerce_text (a :: s) = a :: coerce_text s.
Proof.
  intros Ha. pose proof (coerce_text_utf8 (byte a) s) as H.
  by rewrite (utf8_ascii a Ha) in H.
Qed.

Lemma unescape_ascii e x : unescape e = Some x → byte x < 128.
Proof.
  unfold unescape. case_bool_decide as He.
  { intros [= <-]. revert He. generalize (byte e). intros b Hb.
    repeat (apply elem_of_cons in Hb as [->|Hb]; [done|]).
    by apply elem_of_nil in Hb. }
  repeat case_match; intros [= <-]; done.
Qed.

Lemma emit_fixed_utf8 r o : fixed o → fixed (emit (utf8 r) o).
Proof.
  intros Ho s. destruct o as [s'|]; [|done]. intros [= <-].
  by rewrite coerce_text_utf8, Ho.
Qed.

Lemma emit_fixed_ascii a o : byte a < 128 → fixed o → fixed (emit [a] o).
Proof.
  intros Ha Ho s. destruct o as [s'|]; [|done]. intros [= <-]. simpl.
  by rewrite coerce_text_ascii, Ho.
Qed.

Lemma unquote_step_fixed rec s : (∀ s', fixed (rec s')) → fixed (unquote_step rec s).
Proof.
  intros Hrec. destruct s as [|c s1]; [by intros ? [= <-]|]. unfold unquote_step.
  destruct (byte c =? 92).
  - destruct s1 as [|e s2]; [done|]. destruct (byte e =? 117).
    + destruct (getu4 _) as [rr|]; [|done].
      repeat case_match; by apply emit_fixed_utf8.
    + destruct (unescape e) as [x|] eqn:Hx; [|done].
      apply emit_fixed_ascii; [by eapply unescape_ascii|done].
  - destruct (_ || _); [done|]. destruct (byte c <? 128) eqn:Hc.
    + apply emit_fixed_ascii; [by apply Z.ltb_lt|done].
    + destruct (DecodeRune (c :: s1)) as [rr k]. by apply emit_fixed_utf8.
Qed.

(** What [unquote] returns has no stray byte. *)
Theorem unquote_fixed raw s : unquote raw = Some s → coerce_text s = s.
Proof.
  unfold unquote. generalize (S (length raw)). intros n. revert raw s.
  induction n as [|n IH]; [done|]. intros raw. apply unquote_step_fixed.
  intros s'. exact (IH s').
Qed.

(** ** The short cut of [unquote] *)

Lemma unquote_plain (raw : text) :
  Forall plain raw → unquote raw = Some (coerce_text raw).
Proof.
  induction raw as [|s r k Hs Hd IH] using runes_ind; [done|]. intros Hp.
  rewrite unquote_unfold, (coerce_text_cons s r k) by done.
  destruct s as [|a s'] eqn:Es; [done|]. rewrite <- Es in *.
  assert (plain a) as (H1 & H2 & H3) by (rewrite Es in Hp; by inversion Hp).
  rewrite Es at 1. cbn [unquote_step].
  rewrite (proj2 (Z.eqb_neq _ _) H1), (proj2 (Z.eqb_neq _ _) H2),
    (proj2 (Z.ltb_ge _ _) H3). cbn [orb].
  destruct (byte a <? 128) eqn:Ha.
  - apply Z.ltb_lt in Ha. rewrite Es, DecodeRune_ascii in Hd by done.
    injection Hd as <- <-. rewrite Es in *. cbn [drop] in *.
    rewrite drop_0 in *. rewrite IH by (by inversion Hp). by rewrite utf8_ascii.
  - rewrite <- Es, Hd, IH by (by apply Forall_drop). done.
Qed.

(** On a literal without escapes that is UTF-8 already, [unquote]
    returns the literal itself: the short cut the library takes agrees
    with its loop. *)
Theorem unquote_fast_path (raw : text) :
  Forall plain raw → valid_utf8 raw → unquote raw = Some raw.
Proof. intros Hp Hv. by rewrite unquote_plain, coerce_text_valid. Qed.
