(* ===== verification/Rfc3339.v ===== *)
(** * Rfc3339: the text of a time

    How a [time.Time] is written into a JSON document and read from it:
    [format_Time] is [Time.MarshalJSON] without its quotes (the layout
    [2006-01-02T15:04:05.999999999Z07:00], refused for a year outside
    0..9999 or an offset of 24 hours or more), and [parse_Time] is the
    strict reader [parseRFC3339] that [Time.UnmarshalJSON] tries first.

    A time is the record [Time] of [Store]: the civil date and time, the
    nanoseconds, and the offset from UTC in minutes.  The library falls
    back on the lenient [time.Parse] when the strict reader fails; the
    texts only that fallback accepts (a comma before the fraction, for
    one) are not modelled and read as errors here.

    [parse_Time_format] is the round trip; [parse_Time_wf] shows that
    what is read is a time that can be written again. *)

From S2P Require Import Prelude Tea Utf8 Json Store.

Local Open Scope Z_scope.

(** ** Numbers in decimal *)

Definition digit (n : Z) : Ascii.ascii := byte_of_Z (48 + n).

(** The decimal digit of [u] at position [i], units at position 0. *)
Definition dig (i : nat) (u : Z) : Ascii.ascii :=
  digit (u / 10 ^ Z.of_nat i mod 10).

(** The last [w] decimal digits of [u], most significant first. *)
Fixpoint digits_be (w : nat) (u : Z) : text :=
  match w with
  | O => []
  | S w' => dig w' u :: digits_be w' u
  end.

(** The value of a text of digits, continuing from [acc]. *)
Fixpoint num_from (acc : Z) (s : text) : option Z :=
  match s with
  | [] => Some acc
  | c :: s' => if isDigit c then num_from (acc * 10 + (byte c - 48)) s' else None
  end.

(** The closure [parseUint] of [parseRFC3339]: digits only, and a value
    within the range. *)
Definition parseUint (s : text) (lo hi : Z) : option Z :=
  x ← num_from 0 s; if within lo hi x then Some x else None.

(** ** Writing a time: [Time.MarshalJSON] *)

Definition zero : Ascii.ascii := Eval cbv in digit 0.

(** Drop the zeros at the end. *)
Fixpoint trim (s : text) : text :=
  match s with
  | [] => []
  | c :: s' =>
    match trim s' with
    | [] => if byte c =? 48 then [] else [c]
    | t => c :: t
    end
  end.

Definition format_frac (nsec : Z) : text :=
  if nsec =? 0 then [] else T "." ++ trim (digits_be 9 nsec).

Definition format_zone (off : Z) : text :=
  if off =? 0 then T "Z"
  else (if off <? 0 then T "-" else T "+")
       ++ digits_be 2 (Z.abs off / 60) ++ T ":" ++ digits_be 2 (Z.abs off mod 60).

(** The years and offsets RFC 3339 has a text for. *)
Definition time_encodable (t : Time) : Prop :=
  0 ≤ t_year t ≤ 9999 ∧ Z.abs (t_offset t) / 60 < 24.

#[export] Instance time_encodable_dec t : Decision (time_encodable t).
Proof. unfold time_encodable. apply _. Defined.

Definition format_Time (t : Time) : option text :=
  if decide (time_encodable t) then
    Some (digits_be 4 (t_year t) ++ T "-" ++ digits_be 2 (t_month t) ++ T "-"
          ++ digits_be 2 (t_day t) ++ T "T" ++ digits_be 2 (t_hour t) ++ T ":"
          ++ digits_be 2 (t_minute t) ++ T ":" ++ digits_be 2 (t_second t)
          ++ format_frac (t_nsec t) ++ format_zone (t_offset t))
  else None.

(** ** Reading a time: [parseRFC3339] *)

Definition byte_at (s : text) (i : nat) : Z := from_option byte (-1) (s !! i).
Definition slice (s : text) (i j : nat) : text := take (j - i) (drop i s).

(** The fraction of a second, if there is one, and what follows it. *)
Definition parse_frac (s : text) : Z * text :=
  match s with
  | c :: s1 =>
    if byte c =? 46 then
      match digits s1 with
      | ([], _) => (0, s)
      | (ds, rest) =>
          let ds9 := take 9 ds in
          (default 0 (num_from 0 ds9) * 10 ^ Z.of_nat (9 - length ds9), rest)
      end
    else (0, s)
  | [] => (0, s)
  end.

Definition parse_zone (s : text) : option Z :=
  if decide (s = T "Z") then Some 0
  else if decide (length s ≠ 6%nat) then None
  else
    hr ← parseUint (slice s 1 3) 0 23;
    mm ← parseUint (slice s 4 6) 0 59;
    if ((byte_at s 0 =? 45) || (byte_at s 0 =? 43)) && (byte_at s 3 =? 58)
    then Some (if byte_at s 0 =? 45 then - (hr * 60 + mm) else hr * 60 + mm)
    else None.

Definition parse_Time (s : text) : option Time :=
  if decide (length s < 19)%nat then None
  else
    year ← parseUint (slice s 0 4) 0 9999;
    month ← parseUint (slice s 5 7) 1 12;
    day ← parseUint (slice s 8 10) 1 (daysIn month year);
    hour ← parseUint (slice s 11 13) 0 23;
    min ← parseUint (slice s 14 16) 0 59;
    sec ← parseUint (slice s 17 19) 0 59;
    if (byte_at s 4 =? 45) && (byte_at s 7 =? 45) && (byte_at s 10 =? 84)
       && (byte_at s 13 =? 58) && (byte_at s 16 =? 58)
    then
      let '(nsec, rest) := parse_frac (drop 19 s) in
      off ← parse_zone rest;
      Some (mkTime year month day hour min sec nsec off)
    else None.

(** ** Specifications *)

(** A text that does not go on with a digit. *)
Definition stops (s : text) : Prop :=
  match s with
  | c :: _ => isDigit c = false
  | [] => True
  end.

(** ** Digits *)

Lemma digit_byte n : 0 ≤ n < 10 → byte (digit n) = 48 + n.
Proof. intros Hn. unfold digit. apply byte_chr. lia. Qed.

Lemma dig_byte i u : byte (dig i u) = 48 + u / 10 ^ Z.of_nat i mod 10.
Proof. apply digit_byte. apply Z.mod_pos_bound. lia. Qed.

Lemma dig_isDigit i u : isDigit (dig i u) = true.
Proof.
  unfold isDigit. rewrite dig_byte. apply within_spec.
  pose proof (Z.mod_pos_bound (u / 10 ^ Z.of_nat i) 10). lia.
Qed.

Lemma digits_be_length w u : length (digits_be w u) = w.
Proof. induction w; simpl; congruence. Qed.

Lemma digits_be_isDigit w u : Forall (λ c, isDigit c = true) (digits_be w u).
Proof. induction w; constructor; [apply dig_isDigit|done]. Qed.

Lemma num_from_digits w u acc :
  num_from acc (digits_be w u) = Some (acc * 10 ^ Z.of_nat w + u mod 10 ^ Z.of_nat w).
Proof.
  revert acc. induction w as [|w IH]; intros acc.
  { simpl. f_equal. rewrite Z.mod_1_r. lia. }
  cbn [digits_be num_from]. rewrite dig_isDigit, dig_byte, IH. f_equal.
  rewrite Nat2Z.inj_succ, Z.pow_succ_r by lia.
  rewrite (Z.mul_comm 10), Z.rem_mul_r by lia. lia.
Qed.

Lemma parseUint_digits w u lo hi :
  0 ≤ u < 10 ^ Z.of_nat w → lo ≤ u ≤ hi →
  parseUint (digits_be w u) lo hi = Some u.
Proof.
  intros Hu Hr. unfold parseUint.
  rewrite num_from_digits, Z.mul_0_l, Z.add_0_l, Z.mod_small by done.
  cbn [mbind option_bind]. by rewrite (proj2 (within_spec lo hi u)) by done.
Qed.

Lemma parseUint_range s lo hi x : parseUint s lo hi = Some x → lo ≤ x ≤ hi.
Proof.
  unfold parseUint. destruct (num_from 0 s) as [y|]; simpl; [|done].
  destruct (within lo hi y) eqn:Hw; [|done]. intros [= <-]. by apply within_spec.
Qed.

Lemma num_from_app acc a b :
  num_from acc (a ++ b) = num_from acc a ≫= λ x, num_from x b.
Proof.
  revert acc. induction a as [|c a IH]; intros acc; simpl; [done|].
  by destruct (isDigit c).
Qed.

Lemma num_from_zeros acc j :
  num_from acc (replicate j zero) = Some (acc * 10 ^ Z.of_nat j).
Proof.
  revert acc. induction j as [|j IH]; intros acc.
  { simpl. f_equal. lia. }
  cbn [replicate num_from]. change (isDigit zero) with true. cbn iota.
  rewrite IH. f_equal. change (byte zero) with 48.
  rewrite Nat2Z.inj_succ, Z.pow_succ_r by lia. lia.
Qed.

Lemma num_from_bound s acc x :
  0 ≤ acc → num_from acc s = Some x →
  acc * 10 ^ Z.of_nat (length s) ≤ x < (acc + 1) * 10 ^ Z.of_nat (length s).
Proof.
  revert acc. induction s as [|c s IH]; intros acc Hacc.
  { simpl. intros [= <-]. lia. }
  cbn [num_from length].
  destruct (isDigit c) eqn:Hc; [|done]. apply within_spec in Hc.
  intros H. apply IH in H; [|lia].
  rewrite Nat2Z.inj_succ, Z.pow_succ_r by lia. nia.
Qed.

(** ** The fraction of a second *)

Lemma trim_zeros s : ∃ j, s = trim s ++ replicate j zero.
Proof.
  induction s as [|c s [j IH]]; [by exists 0%nat|]. cbn [trim].
  destruct (trim s) as [|c' t] eqn:Ht.
  - destruct (byte c =? 48) eqn:Hc.
    + exists (S j). simpl in *. rewrite IH. f_equal. apply Z.eqb_eq in Hc.
      by apply (inj byte).
    + exists j. simpl in *. by rewrite IH.
  - exists j. rewrite IH at 1. done.
Qed.

Lemma trim_length s : (length (trim s) ≤ length s)%nat.
Proof.
  destruct (trim_zeros s) as [j Hj]. rewrite Hj at 2. rewrite length_app. lia.
Qed.

Lemma trim_isDigit s :
  Forall (λ c, isDigit c = true) s → Forall (λ c, isDigit c = true) (trim s).
Proof.
  destruct (trim_zeros s) as [j Hj]. rewrite Hj at 1.
  by intros [H _]%Forall_app.
Qed.

Lemma digits_stops ds rest :
  Forall (λ c, isDigit c = true) ds → stops rest → digits (ds ++ rest) = (ds, rest).
Proof.
  intros Hds Hr. induction Hds as [|c ds Hc _ IH]; cbn [app digits].
  - destruct rest as [|c rest]; [done|]. cbn [digits stops] in *. by rewrite Hr.
  - by rewrite Hc, IH.
Qed.

Lemma num_from_trim s x :
  num_from 0 s = Some x →
  num_from 0 (trim s) = Some (x / 10 ^ Z.of_nat (length s - length (trim s))) ∧
  x mod 10 ^ Z.of_nat (length s - length (trim s)) = 0.
Proof.
  destruct (trim_zeros s) as [j Hj]. rewrite Hj at 1 3 5. rewrite num_from_app.
  destruct (num_from 0 (trim s)) as [y|]; [|done]. cbn [mbind option_bind].
  rewrite num_from_zeros. intros [= <-].
  replace (length (trim s ++ replicate j zero) - length (trim s))%nat with j
    by (rewrite length_app, length_replicate; lia).
  rewrite Z.div_mul, Z.mod_mul by lia. done.
Qed.

Lemma parse_frac_format nsec rest :
  0 ≤ nsec < 10 ^ 9 → stops rest → (∀ r, rest ≠ byte_of_Z 46 :: r) →
  parse_frac (format_frac nsec ++ rest) = (nsec, rest).
Proof.
  intros Hn Hs Hdot. unfold format_frac. destruct (nsec =? 0) eqn:H0.
  { apply Z.eqb_eq in H0 as ->. destruct rest as [|c r]; [done|]. simpl.
    destruct (byte c =? 46) eqn:Hc; [|done].
    apply Z.eqb_eq in Hc. destruct (Hdot r). f_equal. by apply (inj byte). }
  apply Z.eqb_neq in H0.
  cbn [T text_of_string String.list_ascii_of_string app parse_frac].
  change (byte _ =? 46) with true. cbn iota.
  pose proof (num_from_digits 9 nsec 0) as Hd.
  rewrite Z.mul_0_l, Z.add_0_l, Z.mod_small in Hd by (simpl; lia).
  destruct (num_from_trim _ _ Hd) as [Ht Hm].
  pose proof (trim_length (digits_be 9 nsec)) as Hl.
  rewrite digits_be_length in *.
  rewrite digits_stops by (done || apply trim_isDigit, digits_be_isDigit).
  destruct (trim (digits_be 9 nsec)) as [|c t] eqn:Et.
  { simpl in *. change (10 ^ 9) with 1000000000 in *. div_lia. }
  rewrite <- Et in *. rewrite take_ge by lia. rewrite Ht. cbn [default from_option].
  f_equal. rewrite Z.mul_comm. symmetry. apply Z.div_exact; [lia|done].
Qed.

(** ** The zone *)

Ltac fold_digits :=
  repeat match goal with
  | |- context [[dig 3 ?u; dig 2 ?u; dig 1 ?u; dig 0 ?u]] =>
      change [dig 3 u; dig 2 u; dig 1 u; dig 0 u] with (digits_be 4 u)
  | |- context [[dig 1 ?u; dig 0 ?u]] =>
      change [dig 1 u; dig 0 u] with (digits_be 2 u)
  end.

Lemma parse_zone_format off :
  Z.abs off / 60 < 24 → parse_zone (format_zone off) = Some off.
Proof.
  intros Hoff. unfold format_zone. destruct (off =? 0) eqn:H0.
  { by apply Z.eqb_eq in H0 as ->. }
  apply Z.eqb_neq in H0. unfold parse_zone.
  rewrite decide_False by (by destruct (off <? 0)).
  rewrite decide_False by (by destruct (off <? 0); intros H; apply H).
  assert (slice ((if off <? 0 then T "-" else T "+") ++ digits_be 2 (Z.abs off / 60)
                 ++ T ":" ++ digits_be 2 (Z.abs off mod 60)) 1 3
          = digits_be 2 (Z.abs off / 60)) as -> by (by destruct (off <? 0)).
  assert (slice ((if off <? 0 then T "-" else T "+") ++ digits_be 2 (Z.abs off / 60)
                 ++ T ":" ++ digits_be 2 (Z.abs off mod 60)) 4 6
          = digits_be 2 (Z.abs off mod 60)) as -> by (by destruct (off <? 0)).
  rewrite !parseUint_digits by (simpl; div_lia). cbn [mbind option_bind].
  destruct (off <? 0) eqn:Hs; cbn -[Z.mul Z.add Z.opp Z.div Z.modulo];
    eval_bytes; cbn -[Z.mul Z.add Z.opp Z.div Z.modulo]; f_equal;
    [apply Z.ltb_lt in Hs|apply Z.ltb_ge in Hs]; div_lia.
Qed.

Lemma parse_zone_range s off : parse_zone s = Some off → Z.abs off / 60 < 24.
Proof.
  unfold parse_zone. case_decide; [by intros [= <-]|]. case_decide; [done|].
  destruct (parseUint _ 0 23) as [hr|] eqn:Hh; [|done].
  destruct (parseUint _ 0 59) as [mm|] eqn:Hm; [|done].
  apply parseUint_range in Hh, Hm. cbn [mbind option_bind].
  repeat case_match; intros [= <-]; div_lia.
Qed.

(** The zone starts with a letter or a sign. *)
Lemma format_zone_stops off :
  stops (format_zone off) ∧ ∀ r, format_zone off ≠ byte_of_Z 46 :: r.
Proof. unfold format_zone. by repeat case_match. Qed.

(** ** The round trip of a time *)

Lemma parse_Time_format t s :
  wf_Time t → format_Time t = Some s → parse_Time s = Some t.
Proof.
  destruct t as [y mo d h mi sec ns off].
  intros (Hmo & Hd & Hh & Hmi & Hs & Hns). unfold format_Time.
  case_decide as He; [|done]. destruct He as [Hy Hoff]. simpl in *.
  intros [= <-]. unfold parse_Time.
  rewrite decide_False by (cbn [digits_be app T text_of_string
                                String.list_ascii_of_string length]; lia).
  cbn [digits_be app T text_of_string String.list_ascii_of_string
       slice take drop Nat.sub byte_at lookup list_lookup from_option].
  rewrite take_0, drop_0. fold_digits. eval_bytes.
  assert (d ≤ 31) by (unfold daysIn in Hd; repeat case_match; lia).
  rewrite !parseUint_digits by (simpl; lia). cbn [mbind option_bind].
  rewrite parseUint_digits by (simpl; lia). cbn [mbind option_bind andb Z.eqb Pos.eqb].
  destruct (format_zone_stops off) as [Hz1 Hz2].
  rewrite parse_frac_format by done.
  by rewrite parse_zone_format.
Qed.

(** What is read is a time, within the years and offsets that have a
    text. *)
Ltac parse_field :=
  match goal with
  | |- context [parseUint ?s ?lo ?hi ≫= _] =>
      let x := fresh "x" in let H := fresh "H" in
      destruct (parseUint s lo hi) as [x|] eqn:H; cbn [mbind option_bind];
      [apply parseUint_range in H|done]
  end.

Lemma parse_frac_range s ns rest : parse_frac s = (ns, rest) → 0 ≤ ns < 10 ^ 9.
Proof.
  change (10 ^ 9) with 1000000000.
  unfold parse_frac. destruct s as [|c s1]; [by intros [= <- _]|].
  destruct (byte c =? 46); [|by intros [= <- _]].
  destruct (digits s1) as [[|d ds] r]; [by intros [= <- _]|].
  generalize (d :: ds). intros l. cbv zeta.
  pose proof (length_take l 9) as Hl. set (n := length (take 9 l)) in *.
  destruct (num_from 0 (take 9 l)) as [x|] eqn:Hx; cbn [default from_option id];
    intros [= <- _]; [|lia].
  apply num_from_bound in Hx; [|done]. fold n in Hx.
  rewrite Z.mul_0_l, Z.add_0_l, Z.mul_1_l in Hx.
  assert (10 ^ Z.of_nat n * 10 ^ Z.of_nat (9 - n) = 1000000000) as Hp
    by (rewrite <- Z.pow_add_r by lia;
        by replace (Z.of_nat n + Z.of_nat (9 - n)) with 9 by lia).
  assert (0 < 10 ^ Z.of_nat (9 - n)) by (apply Z.pow_pos_nonneg; lia).
  nia.
Qed.

Lemma parse_Time_wf s t : parse_Time s = Some t → wf_Time t ∧ time_encodable t.
Proof.
  unfold parse_Time. case_decide; [done|]. do 6 parse_field.
  destruct (_ && _); [|done].
  destruct (parse_frac (drop 19 s)) as [ns rest] eqn:Hf.
  destruct (parse_zone rest) as [off|] eqn:Hz; [|done]. intros [= <-].
  apply parse_frac_range in Hf. apply parse_zone_range in Hz.
  split; [|split; simpl; [lia|done]]. unfold wf_Time. simpl. split_and!; lia.
Qed.

(** ** The text of a time needs no escape *)

Lemma isDigit_plain c : isDigit c = true → plain c.
Proof. intros H%within_spec. unfold plain. lia. Qed.

Lemma digits_be_plain w u : Forall plain (digits_be w u).
Proof. eapply Forall_impl; [apply digits_be_isDigit|apply isDigit_plain]. Qed.

Lemma format_frac_plain ns : Forall plain (format_frac ns).
Proof.
  unfold format_frac. case_match; [constructor|]. constructor; [by_compute|].
  eapply Forall_impl; [apply trim_isDigit, digits_be_isDigit|apply isDigit_plain].
Qed.

Lemma format_zone_plain off : Forall plain (format_zone off).
Proof.
  unfold format_zone. repeat case_match; rewrite ?Forall_app;
    split_and?; try apply digits_be_plain; by_compute.
Qed.

Lemma format_Time_plain t s : format_Time t = Some s → Forall plain s.
Proof.
  unfold format_Time. case_decide; [|done]. intros <-%(inj Some).
  rewrite !Forall_app. split_and!;
    try apply digits_be_plain; try apply format_frac_plain;
    try apply format_zone_plain; by_compute.
Qed.
