(* ===== verification/JsonTask.v ===== *)
(** * JsonTask: tasks as JSON, and the encoder [createTask] relies on

    [json.Marshal] and [json.Unmarshal] at the type [[]*Task], which is
    where [createTask] calls them.  The names of the members are the
    [json] tags of the struct [Task] in [src/main.go]; the rest is the
    behaviour of the library: a [nil] pointer and a [nil] slice are
    [null], a string is written by [escape] and read by [unquote], a time
    is written by [format_Time] and read by [parse_Time], a key selects
    the field of that name or, failing that, of that name but for the
    case, an unknown key is skipped with its value, [null] leaves a string
    or a time as it is and empties a slice, and a value of the wrong kind
    is an error.

    [json_codec] is the instance of the interface [Codec] of [Store]: its
    four laws are [json_Marshal_ok], [json_Marshal_not_empty],
    [json_round_trip] and [json_decoded_ok].

    Not modelled: a slot of a slice that a second member of the same name
    finds beyond the length of the first (the library may find stale
    elements there; the model finds empty strings), and the folding of
    runes above ASCII other than the two that fold to ASCII letters. *)

From S2P Require Import Prelude Tea Utf8 Json Quote Rfc3339 Store.

Local Open Scope Z_scope.

(** ** The fields of a task *)

(** The fields of [Task], and the names their [json] tags give them. *)
Inductive field : Type :=
  | F_title | F_description | F_urgency | F_status | F_assigned_by
  | F_attachments | F_comments | F_timestamp | F_starttime | F_endtime | F_due.

#[export] Instance field_eq_dec : EqDecision field.
Proof. solve_decision. Defined.

Definition fields : list field :=
  [F_title; F_description; F_urgency; F_status; F_assigned_by;
   F_attachments; F_comments; F_timestamp; F_starttime; F_endtime; F_due].

Definition field_name (f : field) : text :=
  match f with
  | F_title => T "title"
  | F_description => T "description"
  | F_urgency => T "urgency"
  | F_status => T "status"
  | F_assigned_by => T "assigned_by"
  | F_attachments => T "attachments"
  | F_comments => T "comments"
  | F_timestamp => T "timestamp"
  | F_starttime => T "starttime"
  | F_endtime => T "endtime"
  | F_due => T "due"
  end.

(** ** Encoding a task *)

Definition enc_string (s : string) : json := JStr (escape (text_of_string s)).

Definition enc_strings (o : option (list string)) : json :=
  match o with
  | None => JNull
  | Some l => JArr (enc_string <$> l)
  end.

Definition enc_Time (t : Time) : option json := JStr <$> format_Time t.

(** A task as an object: the fields under their names, in the order of
    the declaration. *)
Definition enc_Task (t : Task) : option json :=
  ts ← enc_Time (TimeStamp t);
  st ← enc_Time (StartTime t);
  en ← enc_Time (EndTime t);
  du ← enc_Time (Due t);
  Some (JObj [
    (field_name F_title, enc_string (Title t));
    (field_name F_description, enc_string (Description t));
    (field_name F_urgency, enc_string (Urgency t));
    (field_name F_status, enc_string (Status t));
    (field_name F_assigned_by, enc_string (AssignedBy t));
    (field_name F_attachments, enc_strings (Attachments t));
    (field_name F_comments, enc_strings (Comments t));
    (field_name F_timestamp, ts);
    (field_name F_starttime, st);
    (field_name F_endtime, en);
    (field_name F_due, du)]).

Definition enc_ptr (p : TaskPtr) : option json :=
  match p with
  | None => Some JNull
  | Some t => enc_Task t
  end.

(** [json.Marshal(tasks)] for a slice that is not [nil]. *)
Definition json_Marshal (ts : list TaskPtr) : result Error string :=
  match mapM enc_ptr ts with
  | Some vs => Ok (string_of_text (print (JArr vs)))
  | None => Err ErrEncode
  end.

(** ** Decoding a task *)

(** [foldRune] on the runes above ASCII: the Kelvin sign folds to [K] and
    the long s to [S]; every other rune folds to a rune above ASCII, which
    is all that matters against the names of the fields. *)
Definition foldRune (r : rune) : rune :=
  if r =? 8490 then 75 else if r =? 383 then 83 else r.

Definition fold_chunk (rc : rune * text) : text :=
  match rc.2 with
  | a :: _ =>
    if byte a <? 128 then
      (if within 97 122 (byte a) then [byte_of_Z (byte a - 32)] else [a])
    else utf8 (foldRune rc.1)
  | [] => []
  end.

(** [foldName]: the name with its case folded. *)
Definition foldName (s : text) : text := chunks s ≫= fold_chunk.

(** The field a key names: the field of that name, or else the first
    field whose name is the key but for the case. *)
Definition field_of_key (k : text) : option field :=
  match list_find (λ f, field_name f = k) fields with
  | Some (_, f) => Some f
  | None => snd <$> list_find (λ f, foldName (field_name f) = foldName k) fields
  end.

Definition dec_string (old : string) (v : json) : option string :=
  match v with
  | JNull => Some old
  | JStr raw => string_of_text <$> unquote raw
  | _ => None
  end.

(** The elements of an array of strings, from index [i] on; [old] is
    what the slice held at an index before. *)
Fixpoint dec_elems (old : nat → string) (i : nat) (vs : list json)
    : option (list string) :=
  match vs with
  | [] => Some []
  | v :: vs =>
      x ← dec_string (old i) v; xs ← dec_elems old (S i) vs; Some (x :: xs)
  end.

Definition dec_strings (old : option (list string)) (v : json)
    : option (option (list string)) :=
  match v with
  | JNull => Some None
  | JArr vs => Some <$> dec_elems (λ i, default "" (old ≫= (.!! i))) 0 vs
  | _ => None
  end.

Definition dec_Time (old : Time) (v : json) : option Time :=
  match v with
  | JNull => Some old
  | JStr raw => parse_Time raw
  | _ => None
  end.

Definition set_field (t : Task) (f : field) (v : json) : option Task :=
  let 'mkTask ti de ur st ab att co ts sta en du := t in
  match f with
  | F_title => x ← dec_string ti v; Some (mkTask x de ur st ab att co ts sta en du)
  | F_description => x ← dec_string de v; Some (mkTask ti x ur st ab att co ts sta en du)
  | F_urgency => x ← dec_string ur v; Some (mkTask ti de x st ab att co ts sta en du)
  | F_status => x ← dec_string st v; Some (mkTask ti de ur x ab att co ts sta en du)
  | F_assigned_by => x ← dec_string ab v; Some (mkTask ti de ur st x att co ts sta en du)
  | F_attachments => x ← dec_strings att v; Some (mkTask ti de ur st ab x co ts sta en du)
  | F_comments => x ← dec_strings co v; Some (mkTask ti de ur st ab att x ts sta en du)
  | F_timestamp => x ← dec_Time ts v; Some (mkTask ti de ur st ab att co x sta en du)
  | F_starttime => x ← dec_Time sta v; Some (mkTask ti de ur st ab att co ts x en du)
  | F_endtime => x ← dec_Time en v; Some (mkTask ti de ur st ab att co ts sta x du)
  | F_due => x ← dec_Time du v; Some (mkTask ti de ur st ab att co ts sta en x)
  end.

Definition dec_member (t : Task) (m : text * json) : option Task :=
  k ← unquote m.1;
  match field_of_key k with
  | Some f => set_field t f m.2
  | None => Some t
  end.

Fixpoint dec_members (t : Task) (ms : list (text * json)) : option Task :=
  match ms with
  | [] => Some t
  | m :: ms => t' ← dec_member t m; dec_members t' ms
  end.

Definition dec_ptr (v : json) : option TaskPtr :=
  match v with
  | JNull => Some None
  | JObj ms => Some <$> dec_members zeroTask ms
  | _ => None
  end.

Definition dec_doc (v : json) : option (list TaskPtr) :=
  match v with
  | JNull => Some []
  | JArr vs => mapM dec_ptr vs
  | _ => None
  end.

Definition json_Unmarshal (data : string) : result Error (list TaskPtr) :=
  match parse (text_of_string data) with
  | Parsed v _ =>
      match dec_doc v with
      | Some ts => Ok ts
      | None => Err ErrDecode
      end
  | _ => Err ErrDecode
  end.

(** ** A sample *)

(** A member with a string for its value, and a member that is [null]. *)
Definition member_string (k v : string) : text :=
  quoted (T k) ++ T ":" ++ quoted (T v).

Definition member_null (k : string) : text := quoted (T k) ++ T ":null".

(** A task with a title, a comment and a due date, and a [nil] pointer. *)
Definition sample_task : Task :=
  mkTask "Fix <printer>" "" "" "" "" None (Some ["toner"])
         zeroTime zeroTime zeroTime (mkTime 2024 2 29 17 30 0 500000000 120).

Definition sample_tasks : list TaskPtr := [Some sample_task; None].

Definition sample_data : string :=
  match json_Marshal sample_tasks with
  | Ok data => data
  | Err _ => ""
  end.

(** ** Specifications *)

(** The tasks [json.Marshal] accepts: every time within the years and
    offsets that have a text. *)

Definition task_encodable (t : Task) : Prop :=
  time_encodable (TimeStamp t) ∧ time_encodable (StartTime t) ∧
  time_encodable (EndTime t) ∧ time_encodable (Due t).

#[export] Instance task_encodable_dec t : Decision (task_encodable t).
Proof. unfold task_encodable. apply _. Defined.

Definition ptr_encodable (p : TaskPtr) : Prop := from_option task_encodable True p.

#[export] Instance ptr_encodable_dec p : Decision (ptr_encodable p).
Proof. destruct p; simpl; apply _. Defined.

(** What comes back when the text of a task is read: the task with the
    stray bytes of its strings replaced. *)
Definition coerce_string (s : string) : string :=
  string_of_text (coerce_text (text_of_string s)).

Definition coerce_slice (o : option (list string)) : option (list string) :=
  match o with
  | Some l => Some (coerce_string <$> l)
  | None => None
  end.

Definition coerce_Task (t : Task) : Task :=
  mkTask (coerce_string (Title t)) (coerce_string (Description t))
         (coerce_string (Urgency t)) (coerce_string (Status t))
         (coerce_string (AssignedBy t))
         (coerce_slice (Attachments t)) (coerce_slice (Comments t))
         (TimeStamp t) (StartTime t) (EndTime t) (Due t).

Definition coerce_ptr (p : TaskPtr) : TaskPtr := coerce_Task <$> p.

(** What decoding yields: strings without stray bytes, and times that are
    times and have a text. *)
Definition ok_string (s : string) : Prop := coerce_string s = s.

Definition ok_slice (o : option (list string)) : Prop :=
  from_option (Forall ok_string) True o.

Definition ok_Time (t : Time) : Prop := wf_Time t ∧ time_encodable t.

Definition ok_Task (t : Task) : Prop :=
  (ok_string (Title t) ∧ ok_string (Description t) ∧ ok_string (Urgency t) ∧
   ok_string (Status t) ∧ ok_string (AssignedBy t)) ∧
  (ok_slice (Attachments t) ∧ ok_slice (Comments t)) ∧
  (ok_Time (TimeStamp t) ∧ ok_Time (StartTime t) ∧
   ok_Time (EndTime t) ∧ ok_Time (Due t)).

Definition ok_ptr (p : TaskPtr) : Prop :=
  wf_ptr p ∧ ptr_encodable p ∧ coerce_ptr p = p.

(** ** Encoding succeeds on the tasks that have a text *)

Lemma enc_Time_Some t : is_Some (enc_Time t) ↔ time_encodable t.
Proof.
  unfold enc_Time, format_Time. case_decide; simpl; [by split; eauto|].
  split; [by intros [? ?]|done].
Qed.

Lemma enc_Task_Some t : is_Some (enc_Task t) ↔ task_encodable t.
Proof.
  unfold enc_Task, task_encodable. rewrite <- !enc_Time_Some.
  destruct (enc_Time (TimeStamp t)), (enc_Time (StartTime t)),
    (enc_Time (EndTime t)), (enc_Time (Due t)); simpl;
    rewrite !is_Some_alt; tauto.
Qed.

Lemma enc_ptr_Some p : is_Some (enc_ptr p) ↔ ptr_encodable p.
Proof. destruct p as [t|]; simpl; [apply enc_Task_Some|by split; eauto]. Qed.

Lemma json_Marshal_ok ts :
  is_ok (json_Marshal ts) = true ↔ Forall ptr_encodable ts.
Proof.
  unfold json_Marshal.
  assert (is_Some (mapM enc_ptr ts) ↔ Forall ptr_encodable ts) as <-.
  { rewrite mapM_is_Some. apply Forall_proper; [|done]. intros p. apply enc_ptr_Some. }
  destruct (mapM enc_ptr ts); simpl; (split; [by eauto|]); [done|by intros [? ?]].
Qed.

Lemma json_Marshal_not_empty ts data : json_Marshal ts = Ok data → data ≠ "".
Proof.
  unfold json_Marshal. destruct (mapM enc_ptr ts); [|done]. by intros [= <-].
Qed.

(** ** What is encoded is well-formed *)

Lemma field_name_lit f : string_lit (field_name f).
Proof. apply string_lit_plain. destruct f; by_compute. Qed.

Lemma enc_string_wf s : wf_json (enc_string s).
Proof. constructor. apply escape_lit. Qed.

Lemma enc_strings_wf o : wf_json (enc_strings o).
Proof.
  destruct o as [l|]; constructor. apply Forall_fmap, Forall_true.
  intros s. apply enc_string_wf.
Qed.

Lemma enc_Time_wf t v : enc_Time t = Some v → wf_json v.
Proof.
  unfold enc_Time. destruct (format_Time t) as [s|] eqn:Hs; [|done].
  intros [= <-]. constructor. by eapply string_lit_plain, format_Time_plain.
Qed.

Lemma enc_Task_wf t v : enc_Task t = Some v → wf_json v.
Proof.
  unfold enc_Task.
  destruct (enc_Time (TimeStamp t)) eqn:H1; [|done].
  destruct (enc_Time (StartTime t)) eqn:H2; [|done].
  destruct (enc_Time (EndTime t)) eqn:H3; [|done].
  destruct (enc_Time (Due t)) eqn:H4; [|done]. intros <-%(inj Some).
  apply wf_JObj.
  repeat (apply List.Forall_cons;
          [split; cbn [fst snd];
           [apply field_name_lit
           |eauto using enc_string_wf, enc_strings_wf, enc_Time_wf]|]).
  apply List.Forall_nil.
Qed.

Lemma enc_ptr_wf p v : enc_ptr p = Some v → wf_json v.
Proof. destruct p; [apply enc_Task_wf|intros [= <-]; constructor]. Qed.

(** ** Decoding what was encoded *)

(** A key that is the name of a field selects that field. *)
Lemma dec_member_field t f v : dec_member t (field_name f, v) = set_field t f v.
Proof. destruct f; reflexivity. Qed.

Lemma dec_enc_string old s : dec_string old (enc_string s) = Some (coerce_string s).
Proof. unfold dec_string, enc_string, coerce_string. by rewrite unquote_escape. Qed.

Lemma mapM_cons {A B} (f : A → option B) x l :
  mapM f (x :: l) = y ← f x; k ← mapM f l; Some (y :: k).
Proof. done. Qed.

Lemma dec_enc_elems old i l :
  dec_elems old i (enc_string <$> l) = Some (coerce_string <$> l).
Proof.
  revert i. induction l as [|s l IH]; intros i; [done|].
  rewrite !fmap_cons. cbn [dec_elems]. rewrite dec_enc_string, IH. done.
Qed.

Lemma dec_enc_strings old o : dec_strings old (enc_strings o) = Some (coerce_slice o).
Proof.
  destruct o as [l|]; [|done]. unfold dec_strings, enc_strings.
  by rewrite dec_enc_elems.
Qed.

Lemma dec_enc_Time old t v :
  wf_Time t → enc_Time t = Some v → dec_Time old v = Some t.
Proof.
  intros Hwf. unfold enc_Time. destruct (format_Time t) as [s|] eqn:Hs; [|done].
  intros [= <-]. by apply parse_Time_format.
Qed.

Lemma dec_enc_Task t v :
  wf_Task t → enc_Task t = Some v → dec_ptr v = Some (Some (coerce_Task t)).
Proof.
  intros (Hw1 & Hw2 & Hw3 & Hw4). unfold enc_Task.
  destruct (enc_Time (TimeStamp t)) eqn:H1; [|done].
  destruct (enc_Time (StartTime t)) eqn:H2; [|done].
  destruct (enc_Time (EndTime t)) eqn:H3; [|done].
  destruct (enc_Time (Due t)) eqn:H4; [|done]. intros <-%(inj Some).
  cbn [mbind option_bind dec_ptr dec_members]. unfold zeroTask.
  repeat (rewrite dec_member_field; cbn [set_field];
          rewrite ?dec_enc_string, ?dec_enc_strings,
            ?(dec_enc_Time _ _ _ Hw1 H1), ?(dec_enc_Time _ _ _ Hw2 H2),
            ?(dec_enc_Time _ _ _ Hw3 H3), ?(dec_enc_Time _ _ _ Hw4 H4);
          cbn [mbind option_bind]).
  done.
Qed.

Lemma dec_enc_ptr p v :
  wf_ptr p → enc_ptr p = Some v → dec_ptr v = Some (coerce_ptr p).
Proof. destruct p as [t|]; [apply dec_enc_Task|by intros _ [= <-]]. Qed.

Lemma dec_enc_doc ts vs :
  Forall wf_ptr ts → mapM enc_ptr ts = Some vs →
  mapM dec_ptr vs = Some (coerce_ptr <$> ts) ∧ Forall wf_json vs.
Proof.
  intros Hwf. revert vs. induction Hwf as [|p ts Hp _ IH]; intros vs.
  { by intros [= <-]. }
  rewrite mapM_cons. destruct (enc_ptr p) as [v|] eqn:Hv; [|done].
  destruct (mapM enc_ptr ts) as [vs'|]; [|done]. intros [= <-].
  destruct (IH vs' eq_refl) as [IH1 IH2]. split.
  - rewrite mapM_cons, (dec_enc_ptr p v), IH1 by done. done.
  - constructor; [by eapply enc_ptr_wf|done].
Qed.

(** Decoding what was encoded. *)
Lemma json_round_trip ts data :
  Forall wf_ptr ts → json_Marshal ts = Ok data →
  json_Unmarshal data = Ok (coerce_ptr <$> ts).
Proof.
  intros Hwf. unfold json_Marshal, json_Unmarshal.
  destruct (mapM enc_ptr ts) as [vs|] eqn:Hvs; [|done]. intros Hm.
  assert (data = string_of_text (print (JArr vs))) as -> by congruence.
  destruct (dec_enc_doc ts vs Hwf Hvs) as [Hd Hj].
  rewrite text_of_string_of_text, parse_print by (by constructor).
  cbn [dec_doc]. by rewrite Hd.
Qed.

(** C7. Decoding the document [json.Marshal] writes for a slice of tasks
    gives the tasks back, [nil] pointers and [nil] slices included, with
    the stray bytes of their strings replaced by U+FFFD. *)
Theorem json_Unmarshal_Marshal ts data :
  Forall wf_ptr ts → json_Marshal ts = Ok data →
  json_Unmarshal data = Ok (coerce_ptr <$> ts).
Proof. apply json_round_trip. Qed.

(** ** What is decoded can be encoded again, unchanged *)

Lemma ok_slice_cs o : ok_slice o → coerce_slice o = o.
Proof.
  destruct o as [l|]; [|done]. simpl. intros Hl. f_equal.
  induction Hl as [|s l Hs _ IH]; [done|]. by rewrite fmap_cons, Hs, IH.
Qed.

Lemma ok_Task_spec t :
  ok_Task t → wf_Task t ∧ task_encodable t ∧ coerce_Task t = t.
Proof.
  destruct t. unfold ok_Task, ok_Time, wf_Task, task_encodable, coerce_Task, ok_string.
  simpl. intros ((-> & -> & -> & -> & ->) & (Ha & Hc) & Ht).
  destruct Ht as ((? & ?) & (? & ?) & (? & ?) & (? & ?)).
  by rewrite !ok_slice_cs.
Qed.

Lemma ok_string_unquote raw s : unquote raw = Some s → ok_string (string_of_text s).
Proof.
  intros H%unquote_fixed. unfold ok_string, coerce_string.
  by rewrite text_of_string_of_text, H.
Qed.

Lemma dec_string_ok old v x : ok_string old → dec_string old v = Some x → ok_string x.
Proof.
  intros Hold. destruct v; simpl; try done; [by intros [= <-]|].
  destruct (unquote raw) as [s|] eqn:Hs; [|done]. intros [= <-].
  by eapply ok_string_unquote.
Qed.

Lemma dec_elems_ok old i vs xs :
  (∀ j, ok_string (old j)) → dec_elems old i vs = Some xs → Forall ok_string xs.
Proof.
  intros Hold. revert i xs. induction vs as [|v vs IH]; intros i xs.
  { intros [= <-]. constructor. }
  cbn [dec_elems]. destruct (dec_string (old i) v) as [x|] eqn:Hx; [|done].
  destruct (dec_elems old (S i) vs) as [xs'|] eqn:Hxs; [|done]. intros [= <-].
  constructor; [by eapply dec_string_ok|by eapply IH].
Qed.

Lemma dec_strings_ok old v x : ok_slice old → dec_strings old v = Some x → ok_slice x.
Proof.
  intros Hold. destruct v; simpl; try done; [by intros [= <-]|].
  destruct (dec_elems _ 0 vs) as [xs|] eqn:Hxs; [|done]. intros [= <-].
  eapply dec_elems_ok; [|done]. intros j. destruct old as [l|]; [|done].
  simpl. destruct (l !! j) as [s|] eqn:Hs; [|done].
  simpl. by eapply Forall_lookup_1.
Qed.

Lemma dec_Time_ok old v x : ok_Time old → dec_Time old v = Some x → ok_Time x.
Proof.
  intros Hold. destruct v; simpl; try done; [by intros [= <-]|].
  apply parse_Time_wf.
Qed.

Lemma set_field_ok t f v t' : ok_Task t → set_field t f v = Some t' → ok_Task t'.
Proof.
  destruct t. intros ((H1 & H2 & H3 & H4 & H5) & (H6 & H7) & (H8 & H9 & H10 & H11)).
  simpl in *. destruct f; cbn [set_field];
    match goal with
    | |- context [dec_string ?o v] =>
        destruct (dec_string o v) eqn:Hd; [apply dec_string_ok in Hd; [|done]|done]
    | |- context [dec_strings ?o v] =>
        destruct (dec_strings o v) eqn:Hd; [apply dec_strings_ok in Hd; [|done]|done]
    | |- context [dec_Time ?o v] =>
        destruct (dec_Time o v) eqn:Hd; [apply dec_Time_ok in Hd; [|done]|done]
    end; intros [= <-]; by unfold ok_Task.
Qed.

Lemma dec_members_ok t ms t' : ok_Task t → dec_members t ms = Some t' → ok_Task t'.
Proof.
  revert t. induction ms as [|m ms IH]; intros t Ht; [by intros [= <-]|].
  cbn [dec_members]. destruct (dec_member t m) as [t1|] eqn:H1; [|done].
  cbn [mbind option_bind]. apply IH. revert H1. unfold dec_member.
  destruct (unquote m.1); [|done]. cbn [mbind option_bind].
  destruct (field_of_key _); [by apply set_field_ok|by intros [= <-]].
Qed.

Lemma zeroTask_ok : ok_Task zeroTask.
Proof. unfold ok_Task, ok_Time. simpl. split_and!; (done || by_compute). Qed.

Lemma dec_ptr_ok v p : dec_ptr v = Some p → ok_ptr p.
Proof.
  destruct v; simpl; try done; [by intros [= <-]|].
  destruct (dec_members zeroTask ms) as [t|] eqn:Ht; [|done]. intros [= <-].
  apply dec_members_ok, ok_Task_spec in Ht as (? & ? & Hc); [|apply zeroTask_ok].
  split_and!; [done..|]. simpl. by rewrite Hc.
Qed.

(** What decoding yields. *)
Lemma json_decoded_ok data ts : json_Unmarshal data = Ok ts → Forall ok_ptr ts.
Proof.
  unfold json_Unmarshal. destruct (parse _) as [v r| |]; [|done..].
  destruct (dec_doc v) as [ts'|] eqn:Hd; [|done]. intros [= <-].
  destruct v; simpl in Hd; try done; [by injection Hd as <-|].
  revert ts' Hd. induction vs as [|v vs IH]; intros ts'; [by intros [= <-]|].
  rewrite mapM_cons. destruct (dec_ptr v) as [p|] eqn:Hp; [|done].
  destruct (mapM dec_ptr vs) as [ps|]; [|done]. intros [= <-].
  constructor; [by eapply dec_ptr_ok|by apply IH].
Qed.

(** C39. Whatever document [json.Unmarshal] accepts, the tasks it yields
    hold times that are times, can be encoded again, and come back
    unchanged when they are. *)
Theorem json_Unmarshal_ok data ts : json_Unmarshal data = Ok ts → Forall ok_ptr ts.
Proof. apply json_decoded_ok. Qed.

(** ** The encoder the program uses *)

#[export] Instance json_codec : Codec := {|
  Marshal := json_Marshal;
  Unmarshal := json_Unmarshal;
  encodable := ptr_encodable;
  coerce := coerce_ptr;
  Marshal_ok := json_Marshal_ok;
  Marshal_not_empty := json_Marshal_not_empty;
  Unmarshal_Marshal := json_round_trip;
  Unmarshal_ok := json_decoded_ok;
|}.

(** ** A document, byte for byte *)

(** The document [json.Marshal] writes for a slice of one task that has
    only a title: every field under its tag, in the order of the struct,
    the slices [null] and the times at year one. *)
Example json_Marshal_titled :
  json_Marshal [Some (mkTask "Fix printer" "" "" "" "" None None
                        zeroTime zeroTime zeroTime zeroTime)]
  = Ok (string_of_text
          (T "[{" ++ member_string "title" "Fix printer" ++ T ","
           ++ member_string "description" "" ++ T ","
           ++ member_string "urgency" "" ++ T ","
           ++ member_string "status" "" ++ T ","
           ++ member_string "assigned_by" "" ++ T ","
           ++ member_null "attachments" ++ T ","
           ++ member_null "comments" ++ T ","
           ++ member_string "timestamp" "0001-01-01T00:00:00Z" ++ T ","
           ++ member_string "starttime" "0001-01-01T00:00:00Z" ++ T ","
           ++ member_string "endtime" "0001-01-01T00:00:00Z" ++ T ","
           ++ member_string "due" "0001-01-01T00:00:00Z" ++ T "}]")).
Proof. by vm_compute. Qed.

Lemma json_Unmarshal_Marshal_witness :
  json_Unmarshal sample_data = Ok (coerce_ptr <$> sample_tasks).
Proof.
  apply (json_Unmarshal_Marshal sample_tasks sample_data);
    [by_compute|by vm_compute].
Defined.

Lemma json_Unmarshal_ok_witness : Forall ok_ptr sample_tasks.
Proof. by apply (json_Unmarshal_ok sample_data sample_tasks). Defined.
