(* ===== verification/StoreProps.v ===== *)
(** * StoreProps: what [createTask] does on every branch

    Proved against the interface [Codec]: whatever encoder satisfies its
    laws, [createTask] appends on a usable file system, fails without
    losing a stored task on every error branch, and keeps the file
    decodable.  The theorems are then applied to the JSON encoder of
    [JsonTask] on concrete file systems: no file, an empty file, a file
    that holds a task, a file that holds text that is not JSON. *)

From S2P Require Import Prelude Tea Utf8 Json Store JsonTask.

Local Open Scope Z_scope.

(** ** Concrete file systems and tasks *)

(** The directory without the file, and with an empty file. *)
Definition fs_none : FS := mkFS true None.
Definition fs_empty : FS := mkFS true (Some (mkFile "" true true)).

(** A task with a title and every other field at its zero value. *)
Definition titled (title : string) : Task :=
  mkTask title "" "" "" "" None None zeroTime zeroTime zeroTime zeroTime.

(** A task whose due date lies beyond the years that have a text. *)
Definition far_future : Task :=
  mkTask "Far" "" "" "" "" None None zeroTime zeroTime zeroTime
         (mkTime 10000 1 1 0 0 0 0 0).

(** The file system after one run on the directory without the file. *)
Definition fs_one : FS := (createTask (Some (titled "Fix printer")) fs_none).1.

Section store.
Context `{Codec}.

(** ** The steps of [createTask] *)

(** On an existing file in an existing directory the first statement does
    nothing. *)
Lemma ensureFile_present fs f :
  fs_dir fs = true → fs_file fs = Some f → ensureFile fs = (fs, Ok ()).
Proof.
  destruct fs as [d o]. simpl. by intros -> ->.
Qed.

(** In an existing directory an absent file is created empty. *)
Lemma ensureFile_absent fs :
  fs_dir fs = true → fs_file fs = None →
  ensureFile fs = (mkFS true (Some (mkFile "" true true)), Ok ()).
Proof.
  destruct fs as [d o]. simpl. by intros -> ->.
Qed.

(** Without the directory nothing is created and no error is raised
    yet. *)
Lemma ensureFile_no_dir fs :
  fs_dir fs = false → ensureFile fs = (fs, Ok ()).
Proof.
  destruct fs as [d o]. simpl. by intros ->.
Qed.

(** The first statement never fails. *)
Lemma ensureFile_ok fs : (ensureFile fs).2 = Ok ().
Proof.
  destruct fs as [[] [[c r []]|]]; done.
Qed.

(** Reading a usable file system yields the tasks it stores. *)
Lemma readTasks_stored fs f ts :
  fs_dir fs = true → fs_file fs = Some f → readable f = true →
  stored fs = Some ts →
  readTasks fs = (fs, Ok ts).
Proof.
  intros Hd Hf Hr Hs.
  unfold readTasks, io_bind, os_ReadFile, stored in *. rewrite Hd, Hf, Hr in *.
  case_decide; [|by simplify_eq].
  unfold io_lift. by destruct (Unmarshal (content f)); simplify_eq/=.
Qed.

(** Writing to a usable file system replaces the contents. *)
Lemma os_WriteFile_usable data fs :
  usable fs →
  os_WriteFile data fs
  = (mkFS true (Some (mkFile data
                        (from_option readable true (fs_file fs)) true)), Ok ()).
Proof.
  intros [Hd Hrw]. unfold os_WriteFile. rewrite Hd.
  destruct (fs_file fs) as [f|] eqn:Hf; [|done].
  by destruct (Hrw f eq_refl) as [_ ->].
Qed.

Lemma length_nonzero (s : string) : String.length s ≠ 0%nat ↔ s ≠ "".
Proof. by destruct s. Qed.

(** What a file system stores is made of tasks a document can carry. *)
Lemma stored_ok fs ts : stored fs = Some ts → Forall ptr_ok ts.
Proof.
  unfold stored. destruct (fs_file fs) as [f|]; [|by intros [= <-]].
  case_decide; [|by intros [= <-]].
  destruct (Unmarshal (content f)) eqn:Hu; [|done].
  intros [= <-]. by eapply Unmarshal_ok.
Qed.

(** Such tasks are those [coerce] leaves alone. *)
Lemma coerce_ok ts : Forall ptr_ok ts → coerce <$> ts = ts.
Proof.
  induction 1 as [|t ts (_ & _ & Ht) _ IH]; [done|]. by rewrite fmap_cons, Ht, IH.
Qed.

Lemma ptr_ok_wf ts : Forall ptr_ok ts → Forall wf_ptr ts.
Proof. intros Hts. eapply Forall_impl; [exact Hts|]. by intros t (? & _). Qed.

Lemma ptr_ok_encodable ts : Forall ptr_ok ts → Forall encodable ts.
Proof. intros Hts. eapply Forall_impl; [exact Hts|]. by intros t (_ & ? & _). Qed.

(** The list [createTask] encodes: what was stored, and the new task. *)
Lemma appended_wf ts task :
  Forall ptr_ok ts → wf_ptr task → Forall wf_ptr (ts ++ [task]).
Proof.
  intros Hts Ht. apply Forall_app. split; [by apply ptr_ok_wf|by constructor].
Qed.

Lemma appended_encodable ts task :
  Forall ptr_ok ts → encodable task → Forall encodable (ts ++ [task]).
Proof.
  intros Hts Ht. apply Forall_app.
  split; [by apply ptr_ok_encodable|by constructor].
Qed.

Lemma appended_coerce ts task :
  Forall ptr_ok ts → coerce <$> (ts ++ [task]) = ts ++ [coerce task].
Proof. intros Hts. by rewrite fmap_app, coerce_ok. Qed.

(** The contents [createTask] writes decode to the tasks it encoded, as
    the text carries them. *)
Lemma stored_written ts data r :
  Forall wf_ptr ts → Marshal ts = Ok data →
  stored (mkFS true (Some (mkFile data r true))) = Some (coerce <$> ts).
Proof.
  intros Hts Hm. unfold stored. simpl.
  rewrite decide_True by (apply length_nonzero; by eapply Marshal_not_empty).
  by rewrite (Unmarshal_Marshal ts data).
Qed.

(** After the first statement a usable file system has its file, stores
    what it stored, and is still usable. *)
Lemma ensureFile_usable fs :
  usable fs →
  ∃ fs', ensureFile fs = (fs', Ok ()) ∧ usable fs' ∧
         is_Some (fs_file fs') ∧ stored fs' = stored fs.
Proof.
  intros Hu. destruct (fs_file fs) as [f|] eqn:Hf.
  - exists fs. rewrite (ensureFile_present fs f) by (done || apply Hu).
    by rewrite Hf.
  - eexists. rewrite ensureFile_absent by (done || apply Hu). split; [done|].
    split; [split; [done|by intros f [= <-]]|].
    split; [by eexists|]. unfold stored. by rewrite Hf.
Qed.

(** ** The functional behaviour of [createTask] *)

(** The run of [createTask] on a usable file system. *)
Lemma createTask_run fs task ts :
  usable fs → stored fs = Some ts → wf_ptr task → encodable task →
  ∃ fs', createTask task fs = (fs', Ok ()) ∧
         stored fs' = Some (ts ++ [coerce task]) ∧ usable fs'.
Proof.
  intros Hu Hs Hw Ht.
  destruct (ensureFile_usable fs Hu) as (fs1 & He & Hu1 & Hf1 & Hs1).
  rewrite Hs in Hs1. pose proof (stored_ok _ _ Hs) as Hts.
  pose proof (proj2 (Marshal_ok _) (appended_encodable ts task Hts Ht)) as Hm.
  destruct (Marshal (ts ++ [task])) as [data|] eqn:Hdata; [|done].
  eexists. unfold createTask.
  rewrite (io_bind_ok _ _ _ _ _ He).
  destruct Hf1 as [f1 Hf1]. destruct Hu1 as [Hd1 Hrw1].
  destruct (Hrw1 f1 Hf1) as [Hr1 Hw1].
  rewrite (io_bind_ok _ _ _ _ _ (readTasks_stored fs1 f1 ts Hd1 Hf1 Hr1 Hs1)).
  cbn zeta. rewrite (io_bind_ok _ _ fs1 fs1 data) by (unfold io_lift; by rewrite Hdata).
  rewrite os_WriteFile_usable by done. rewrite Hf1. simpl. rewrite Hr1.
  split; [reflexivity|].
  split.
  { rewrite <- appended_coerce by done.
    apply (stored_written _ data); [by apply appended_wf|exact Hdata]. }
  split; [done|]. by intros f [= <-].
Qed.

(** C3. On a usable file system whose file decodes, [createTask] returns
    without error and leaves the tasks stored before, in their order,
    followed by the new one as its text carries it. *)
Theorem createTask_appends fs task ts :
  usable fs → stored fs = Some ts → wf_ptr task → encodable task →
  ∃ fs', createTask task fs = (fs', Ok ()) ∧
         stored fs' = Some (ts ++ [coerce task]) ∧ usable fs'.
Proof. apply createTask_run. Qed.

Lemma createTask_appends_ok fs task ts :
  usable fs → stored fs = Some ts → wf_ptr task → encodable task →
  (createTask task fs).2 = Ok () ∧
  stored (createTask task fs).1 = Some (ts ++ [coerce task]) ∧
  usable (createTask task fs).1.
Proof.
  intros Hu Hs Hw Ht.
  by destruct (createTask_run fs task ts Hu Hs Hw Ht) as (fs' & -> & ? & ?).
Qed.

(** A task that a document carries unchanged is stored as it is
    given. *)
Theorem createTask_appends_same fs task ts :
  usable fs → stored fs = Some ts → ptr_ok task →
  (createTask task fs).2 = Ok () ∧
  stored (createTask task fs).1 = Some (ts ++ [task]).
Proof.
  intros Hu Hs (Hw & Ht & Hc).
  destruct (createTask_appends_ok fs task ts Hu Hs Hw Ht) as (? & Hs' & _).
  by rewrite Hc in Hs'.
Qed.

(** C21. Two runs in a row, starting without the file, leave the two tasks
    in the order of the runs. *)
Theorem createTask_twice fs t1 t2 :
  usable fs → fs_file fs = None →
  wf_ptr t1 → encodable t1 → wf_ptr t2 → encodable t2 →
  stored (createTask t2 (createTask t1 fs).1).1 = Some [coerce t1; coerce t2].
Proof.
  intros Hu Hf Hw1 H1 Hw2 H2.
  assert (stored fs = Some []) as Hs by (unfold stored; by rewrite Hf).
  destruct (createTask_appends_ok fs t1 [] Hu Hs Hw1 H1) as (_ & Hs1 & Hu1).
  by destruct (createTask_appends_ok _ t2 _ Hu1 Hs1 Hw2 H2) as (_ & Hs2 & _).
Qed.

(** ** The error branches *)

(** C31. Without the directory [os.Create] fails and its error is
    dropped: the first statement returns without error, the failure
    shows at [os.ReadFile], and [createTask] ends with that error,
    "does not exist", having created nothing. *)
Theorem createTask_no_dir fs task :
  fs_dir fs = false →
  os_Create fs = (fs, Err ErrNotExist) ∧
  ensureFile fs = (fs, Ok ()) ∧
  readTasks fs = (fs, Err ErrNotExist) ∧
  createTask task fs = (fs, Err ErrNotExist).
Proof. destruct fs as [d o]. simpl. by intros ->. Qed.

(** C38. A file that may not be read is fatal, and is left as it is. *)
Theorem createTask_unreadable fs f task :
  fs_dir fs = true → fs_file fs = Some f → readable f = false →
  createTask task fs = (fs, Err ErrPermission).
Proof.
  destruct fs as [d o], f as [c r w]. simpl. intros -> -> ->. done.
Qed.

(** C24. A file that does not decode is fatal, and is left as it is. *)
Theorem createTask_malformed fs f task e :
  fs_dir fs = true → fs_file fs = Some f → readable f = true →
  content f ≠ "" → Unmarshal (content f) = Err e →
  createTask task fs = (fs, Err e).
Proof.
  destruct fs as [d o], f as [c r w]. simpl. intros -> -> -> Hc Hu.
  unfold createTask, readTasks, io_bind. simpl.
  rewrite decide_True by (by apply length_nonzero).
  unfold io_lift. by rewrite Hu.
Qed.

(** C37. A file that may be read but not written is left as it is: the
    error of the write is fatal. *)
Theorem createTask_unwritable fs f task ts :
  fs_dir fs = true → fs_file fs = Some f → readable f = true →
  writable f = false → stored fs = Some ts → encodable task →
  createTask task fs = (fs, Err ErrPermission).
Proof.
  intros Hd Hf Hr Hw Hs Ht.
  pose proof (proj2 (Marshal_ok _)
                (appended_encodable ts task (stored_ok _ _ Hs) Ht)) as Hall.
  destruct (Marshal (ts ++ [task])) as [data|] eqn:Hdata; [|done].
  unfold createTask.
  rewrite (io_bind_ok _ _ _ _ _ (ensureFile_present fs f Hd Hf)).
  rewrite (io_bind_ok _ _ _ _ _ (readTasks_stored fs f ts Hd Hf Hr Hs)).
  cbn zeta. rewrite (io_bind_ok _ _ fs fs data) by (unfold io_lift; by rewrite Hdata).
  unfold os_WriteFile. by rewrite Hd, Hf, Hw.
Qed.

(** C27. A task that has no text is fatal after the file has been created:
    an absent file is left behind empty, and nothing else changes. *)
Theorem createTask_unencodable fs task ts :
  usable fs → stored fs = Some ts → ¬ encodable task →
  ∃ e, createTask task fs = ((ensureFile fs).1, Err e).
Proof.
  intros Hu Hs Ht.
  destruct (ensureFile_usable fs Hu) as (fs1 & He & Hu1 & [f1 Hf1] & Hs1).
  rewrite Hs in Hs1. destruct Hu1 as [Hd1 Hrw1].
  destruct (Hrw1 f1 Hf1) as [Hr1 Hw1].
  destruct (Marshal (ts ++ [task])) as [data|e] eqn:Hdata.
  { assert (Forall encodable (ts ++ [task])) as Hall
      by (apply Marshal_ok; by rewrite Hdata).
    apply Forall_app in Hall as [_ Hall]. by inversion Hall. }
  exists e. unfold createTask. rewrite He.
  rewrite (io_bind_ok _ _ _ _ _ He).
  rewrite (io_bind_ok _ _ _ _ _ (readTasks_stored fs1 f1 ts Hd1 Hf1 Hr1 Hs1)).
  cbn zeta. unfold io_bind, io_lift. by rewrite Hdata.
Qed.

(** The first statement changes no stored task, reading changes nothing,
    and a write that fails changes nothing. *)
Lemma ensureFile_stored fs : stored (ensureFile fs).1 = stored fs.
Proof. by destruct fs as [[] [[c r []]|]]. Qed.

Lemma readTasks_fs fs : (readTasks fs).1 = fs.
Proof.
  destruct fs as [[] [[c [] w]|]]; unfold readTasks, io_bind; simpl; try done.
  by case_decide.
Qed.

Lemma os_WriteFile_err data fs fs' e :
  os_WriteFile data fs = (fs', Err e) → fs' = fs.
Proof.
  destruct fs as [[] [[c r []]|]]; unfold os_WriteFile; simpl; by intros [= <-].
Qed.

(** What a failed run leaves. *)
Lemma createTask_err_stored fs task fs' e :
  createTask task fs = (fs', Err e) → stored fs' = stored fs.
Proof.
  unfold createTask, io_bind.
  pose proof (ensureFile_stored fs) as Hs. pose proof (ensureFile_ok fs) as Ho.
  destruct (ensureFile fs) as [fs1 r1]. simpl in *. subst r1.
  pose proof (readTasks_fs fs1) as Hr.
  destruct (readTasks fs1) as [fs2 [ts|e2]]; simpl in Hr; subst fs2;
    [|by intros [= <- _]].
  unfold io_lift. destruct (Marshal (ts ++ [task])) as [data|e3];
    [|by intros [= <- _]].
  intros Hw. by rewrite (os_WriteFile_err _ _ _ _ Hw).
Qed.

(** C6. A run that fails loses nothing: the tasks stored after it are
    the tasks stored before. *)
Theorem createTask_failure_keeps_stored fs task fs' e :
  createTask task fs = (fs', Err e) → stored fs' = stored fs.
Proof. apply createTask_err_stored. Qed.

Lemma readTasks_ok_inv fs fs' ts :
  readTasks fs = (fs', Ok ts) → stored fs = Some ts.
Proof.
  destruct fs as [[] [[c [] w]|]]; unfold readTasks, io_bind, stored; simpl;
    try done.
  case_decide; [|by intros [= _ <-]].
  unfold io_lift. by destruct (Unmarshal c); intros [= _ <-].
Qed.

Lemma os_WriteFile_ok_inv data fs fs' :
  os_WriteFile data fs = (fs', Ok ()) →
  ∃ r, fs' = mkFS true (Some (mkFile data r true)).
Proof.
  destruct fs as [[] [[c r []]|]]; unfold os_WriteFile; simpl;
    intros [= <-]; by eexists.
Qed.

(** What a successful run has read and written. *)
Lemma createTask_ok_stored fs task fs' :
  createTask task fs = (fs', Ok ()) → wf_ptr task →
  ∃ ts, stored fs = Some ts ∧ stored fs' = Some (ts ++ [coerce task]).
Proof.
  intros E Hw. revert E.
  unfold createTask, io_bind.
  pose proof (ensureFile_stored fs) as Hs.
  destruct (ensureFile fs) as [fs1 [[]|e1]]; [|done]. simpl in Hs.
  destruct (readTasks fs1) as [fs2 [ts|e2]] eqn:Hr; [|done].
  pose proof (readTasks_fs fs1) as Hfs. rewrite Hr in Hfs. simpl in Hfs. subst fs2.
  apply readTasks_ok_inv in Hr. rewrite Hs in Hr.
  unfold io_lift. destruct (Marshal (ts ++ [task])) as [data|e3] eqn:Hm; [|done].
  intros (r & ->)%os_WriteFile_ok_inv. exists ts. split; [done|].
  pose proof (stored_ok _ _ Hr) as Hts.
  rewrite <- appended_coerce by done.
  apply (stored_written _ data); [by apply appended_wf|done].
Qed.

(** C13. A run that succeeds has read a decodable file and has appended:
    success is never reported without the task being stored. *)
Theorem createTask_ok_inv fs task fs' :
  createTask task fs = (fs', Ok ()) → wf_ptr task →
  ∃ ts, stored fs = Some ts ∧ stored fs' = Some (ts ++ [coerce task]).
Proof. apply createTask_ok_stored. Qed.

(** C18. However [createTask] ends, the file it leaves is absent, empty
    or decodable, provided it was so before. *)
Theorem createTask_keeps_decodable fs task :
  wf_ptr task → decodable fs → decodable (createTask task fs).1.
Proof.
  unfold decodable. intros Hw Hs.
  destruct (createTask task fs) as [fs' [[]|e]] eqn:E; simpl.
  - destruct (createTask_ok_stored _ _ _ E Hw) as (ts & _ & ->). by eexists.
  - by rewrite (createTask_err_stored _ _ _ _ E).
Qed.
End store.

(** ** Concrete runs, with the JSON encoder *)

Lemma usable_none : usable fs_none.
Proof. split; [done|]. by intros f [=]. Qed.

Lemma usable_file c : usable (mkFS true (Some (mkFile c true true))).
Proof. split; [done|]. by intros f [= <-]. Qed.

Lemma titled_ok title :
  coerce_string title = title → ptr_ok (Some (titled title)).
Proof.
  intros Ht. split_and!; [by_compute|by_compute|]. simpl. unfold coerce_Task.
  simpl. by rewrite Ht.
Qed.

(** *** Witnesses *)

Lemma createTask_appends_witness :
  ∃ fs', createTask (Some (titled "Fix printer")) fs_none = (fs', Ok ()) ∧
         stored fs' = Some ([] ++ [coerce (Some (titled "Fix printer"))]) ∧
         usable fs'.
Proof.
  apply (createTask_appends fs_none (Some (titled "Fix printer")) []);
    [apply usable_none|done|by_compute|by_compute].
Defined.

Lemma createTask_appends_same_witness :
  (createTask (Some (titled "Call Ann")) fs_one).2 = Ok () ∧
  stored (createTask (Some (titled "Call Ann")) fs_one).1
  = Some ([Some (titled "Fix printer")] ++ [Some (titled "Call Ann")]).
Proof.
  apply (createTask_appends_same fs_one (Some (titled "Call Ann"))
           [Some (titled "Fix printer")]);
    [apply usable_file|by vm_compute|by apply titled_ok].
Defined.

Lemma createTask_twice_witness :
  stored (createTask (Some (titled "Call Ann"))
            (createTask (Some (titled "Fix printer")) fs_none).1).1
  = Some [coerce (Some (titled "Fix printer")); coerce (Some (titled "Call Ann"))].
Proof.
  apply (createTask_twice fs_none (Some (titled "Fix printer"))
           (Some (titled "Call Ann")));
    [apply usable_none|done|by_compute..].
Defined.

Lemma createTask_no_dir_witness :
  os_Create (mkFS false None) = (mkFS false None, Err ErrNotExist) ∧
  ensureFile (mkFS false None) = (mkFS false None, Ok ()) ∧
  readTasks (mkFS false None) = (mkFS false None, Err ErrNotExist) ∧
  createTask (Some (titled "Fix printer")) (mkFS false None)
  = (mkFS false None, Err ErrNotExist).
Proof. by apply (createTask_no_dir (mkFS false None)). Defined.

Lemma createTask_unreadable_witness :
  createTask (Some (titled "Fix printer")) (mkFS true (Some (mkFile "[]" false true)))
  = (mkFS true (Some (mkFile "[]" false true)), Err ErrPermission).
Proof. by apply (createTask_unreadable _ (mkFile "[]" false true)). Defined.

Lemma createTask_malformed_witness :
  createTask (Some (titled "Fix printer")) (mkFS true (Some (mkFile "{" true true)))
  = (mkFS true (Some (mkFile "{" true true)), Err ErrDecode).
Proof.
  by apply (createTask_malformed _ (mkFile "{" true true) _ ErrDecode).
Defined.

Lemma createTask_unwritable_witness :
  createTask (Some (titled "Fix printer")) (mkFS true (Some (mkFile "[]" true false)))
  = (mkFS true (Some (mkFile "[]" true false)), Err ErrPermission).
Proof.
  by apply (createTask_unwritable _ (mkFile "[]" true false) _ []);
    try by_compute.
Defined.

Lemma createTask_unencodable_witness :
  ∃ e, createTask (Some far_future) fs_none = ((ensureFile fs_none).1, Err e).
Proof.
  apply (createTask_unencodable fs_none (Some far_future) []);
    [apply usable_none|done|]. intros H. by apply (bool_decide_pack _) in H.
Defined.

Lemma createTask_failure_keeps_stored_witness :
  stored fs_empty = stored fs_none.
Proof.
  by apply (createTask_failure_keeps_stored fs_none (Some far_future) fs_empty
              ErrEncode).
Defined.

Lemma createTask_ok_inv_witness :
  ∃ ts, stored fs_none = Some ts ∧
        stored fs_one = Some (ts ++ [coerce (Some (titled "Fix printer"))]).
Proof.
  apply (createTask_ok_inv fs_none (Some (titled "Fix printer")) fs_one);
    [by vm_compute|by_compute].
Defined.

Lemma createTask_keeps_decodable_witness :
  decodable (createTask (Some far_future) fs_one).1.
Proof.
  apply (createTask_keeps_decodable fs_one (Some far_future)); [by_compute|].
  by vm_compute; eexists.
Defined.
