(* ===== verification/StoreRace.v ===== *)
(** * StoreRace: [createTask] call by call, and two runs at once

    [createTask] of [src/main.go] is a sequence of calls of the operating
    system with computation between them.  Here it is cut at the calls:
    a run is at one of the control points [pc], and [step1] takes it from
    one to the next.  [os.WriteFile] is two calls, as its documentation
    says: the file is opened and truncated, and then the data is written
    through the descriptor, from its start and over whatever the file
    holds by then.

    [run_alone_createTask] shows that a run left alone is [createTask] of
    [Store].  Two runs on the same file are the system [sys]; a schedule
    says which of them moves next ([exec]), and [step] is the same as a
    relation.  The specification says that simultaneous runs can
    overwrite each other's result; the theorems make that precise:
    neither run ever fails ([race_never_fatal]), a task can be lost
    ([lost_update]), and the file can be left holding no document at all
    ([torn_write]). *)

From S2P Require Import Prelude Store StoreProps JsonTask.

Local Open Scope Z_scope.

(** ** Writing through a descriptor *)

Fixpoint string_drop (n : nat) (s : string) : string :=
  match n, s with
  | O, _ => s
  | S n, String _ s => string_drop n s
  | S _, EmptyString => ""
  end.

(** [data] written at the start of a file that holds [c]. *)
Definition overwrite (data c : string) : string :=
  data +:+ string_drop (String.length data) c.

(** [f.Write(data)] on a descriptor opened at the start of the file. *)
Definition os_Write (data : string) (fs : FS) : FS :=
  match fs_file fs with
  | Some f =>
      mkFS (fs_dir fs)
        (Some (mkFile (overwrite data (content f)) (readable f) (writable f)))
  | None => fs
  end.

(** The file system after the file has been opened and truncated, and
    after a document has then been written. *)
Definition emptied (fs : FS) : FS :=
  mkFS true (Some (mkFile "" (from_option readable true (fs_file fs)) true)).

Definition written (data : string) (fs : FS) : FS := os_Write data (emptied fs).

(** ** Control points *)

Inductive pc : Type :=
  | AtStat                      (* before [os.Stat] *)
  | AtCreate                    (* before [os.Create] *)
  | AtRead                      (* before [os.ReadFile] *)
  | AtOpen (data : string)      (* before [os.WriteFile] opens the file *)
  | AtWrite (data : string)     (* before [os.WriteFile] writes *)
  | Done                        (* returned *)
  | Fatal (e : Error).          (* [log.Fatal] *)

#[export] Instance pc_eq_dec : EqDecision pc.
Proof. solve_decision. Defined.

Definition final (p : pc) : Prop :=
  match p with
  | Done | Fatal _ => True
  | _ => False
  end.

#[export] Instance final_dec p : Decision (final p).
Proof. destruct p; simpl; apply _. Defined.

(** The calls still to make. *)
Definition rank (p : pc) : nat :=
  match p with
  | AtStat => 5
  | AtCreate => 4
  | AtRead => 3
  | AtOpen _ => 2
  | AtWrite _ => 1
  | Done | Fatal _ => 0
  end.

Definition pc_of (r : result Error unit) : pc :=
  match r with
  | Ok _ => Done
  | Err e => Fatal e
  end.

Inductive pid : Type := P1 | P2.

#[export] Instance pid_eq_dec : EqDecision pid.
Proof. solve_decision. Defined.

Record sys : Type := mkSys {
  s_fs : FS;
  s_pc1 : pc;
  s_pc2 : pc;
}.

Section race.
Context `{Codec}.

(** ** One run *)

(** From one call to the next. *)
Definition step1 (task : TaskPtr) (p : pc) (fs : FS) : pc * FS :=
  match p with
  | AtStat => (if os_IsNotExist (os_Stat fs).2 then AtCreate else AtRead, fs)
  | AtCreate => (AtRead, (os_Create fs).1)
  | AtRead =>
      match readTasks fs with
      | (_, Err e) => (Fatal e, fs)
      | (_, Ok tasks) =>
          match Marshal (tasks ++ [task]) with
          | Err e => (Fatal e, fs)
          | Ok data => (AtOpen data, fs)
          end
      end
  | AtOpen data =>
      match os_Create fs with
      | (fs', Ok _) => (AtWrite data, fs')
      | (_, Err e) => (Fatal e, fs)
      end
  | AtWrite data => (Done, os_Write data fs)
  | Done | Fatal _ => (p, fs)
  end.

Definition step_pair (task : TaskPtr) (c : pc * FS) : pc * FS :=
  step1 task c.1 c.2.

(** A run left alone: five calls at most. *)
Definition run_alone (task : TaskPtr) (fs : FS) : pc * FS :=
  Nat.iter 5 (step_pair task) (AtStat, fs).

(** ** Two runs *)

Definition sys_step (t1 t2 : TaskPtr) (who : pid) (s : sys) : sys :=
  match who with
  | P1 => let '(p, fs) := step1 t1 (s_pc1 s) (s_fs s) in mkSys fs p (s_pc2 s)
  | P2 => let '(p, fs) := step1 t2 (s_pc2 s) (s_fs s) in mkSys fs (s_pc1 s) p
  end.

Definition exec (t1 t2 : TaskPtr) (sched : list pid) (s : sys) : sys :=
  foldl (λ s who, sys_step t1 t2 who s) s sched.

Inductive step (t1 t2 : TaskPtr) : sys → sys → Prop :=
  | step_P1 s : ¬ final (s_pc1 s) → step t1 t2 s (sys_step t1 t2 P1 s)
  | step_P2 s : ¬ final (s_pc2 s) → step t1 t2 s (sys_step t1 t2 P2 s).

Definition start (fs : FS) : sys := mkSys fs AtStat AtStat.

(** ** The invariant of two runs *)

(** The file has been opened for writing by the run. *)
Definition opened (p : pc) : Prop :=
  match p with
  | AtWrite _ | Done => True
  | _ => False
  end.

(** What a run at a control point can rely on. *)
Definition pc_ok (task : TaskPtr) (p : pc) (fs : FS) : Prop :=
  match p with
  | AtStat | AtCreate => True
  | AtRead | Done => is_Some (fs_file fs)
  | AtOpen data | AtWrite data =>
      is_Some (fs_file fs) ∧
      ∃ ts, Forall wf_ptr ts ∧ Marshal ts = Ok data
  | Fatal _ => False
  end.

(** While the other run has not opened the file, a run about to write
    finds it empty. *)
Definition writes_on_empty (p other : pc) (fs : FS) : Prop :=
  match p with
  | AtWrite _ => opened other ∨ content <$> fs_file fs = Some ""
  | _ => True
  end.

Definition race_inv (t1 t2 : TaskPtr) (s : sys) : Prop :=
  usable (s_fs s) ∧
  pc_ok t1 (s_pc1 s) (s_fs s) ∧ pc_ok t2 (s_pc2 s) (s_fs s) ∧
  writes_on_empty (s_pc1 s) (s_pc2 s) (s_fs s) ∧
  writes_on_empty (s_pc2 s) (s_pc1 s) (s_fs s) ∧
  (decodable (s_fs s) ∨ (opened (s_pc1 s) ∧ opened (s_pc2 s))).

(** The system with the two runs exchanged. *)
Definition swap (s : sys) : sys := mkSys (s_fs s) (s_pc2 s) (s_pc1 s).

End race.

(** ** Samples *)

Definition short_task : Task := titled "Fix".
Definition long_task : Task := titled "Fix printer".

(** Both runs read before either writes, and the run of the longer task
    writes first. *)
Definition torn_schedule : list pid :=
  [P1; P1; P1; P2; P2; P1; P2; P1; P2].

(** The second run finds no file, the first runs from start to end, and
    then the second creates the file. *)
Definition late_create_schedule : list pid :=
  [P2; P1; P1; P1; P1; P1; P2; P2; P2; P2].

(** A file that holds the sample document of [JsonTask]. *)
Definition fs_sample : FS := mkFS true (Some (mkFile sample_data true true)).

(** ** Writing *)

Lemma string_drop_nil n : string_drop n "" = "".
Proof. by destruct n. Qed.

Lemma overwrite_empty data : overwrite data "" = data.
Proof. unfold overwrite. by rewrite string_drop_nil, string_app_nil_r. Qed.

(** [os.WriteFile] is the opening and the writing. *)
Lemma os_WriteFile_calls data fs :
  os_WriteFile data fs
  = match os_Create fs with
    | (fs', Ok _) => (os_Write data fs', Ok ())
    | (_, Err e) => (fs, Err e)
    end.
Proof.
  unfold os_WriteFile, os_Create, os_Write.
  destruct (fs_dir fs); [|done].
  destruct (fs_file fs) as [[c r []]|]; simpl; by rewrite ?overwrite_empty.
Qed.

Section race_lemmas.
Context `{Codec}.
Implicit Types (fs : FS) (p : pc) (task : TaskPtr).

(** ** A run alone *)

Lemma ensureFile_calls fs :
  (ensureFile fs).1
  = if os_IsNotExist (os_Stat fs).2 then (os_Create fs).1 else fs.
Proof. destruct fs as [[] [[c r []]|]]; done. Qed.

Lemma createTask_calls task fs :
  createTask task fs
  = let fs1 := (ensureFile fs).1 in
    match readTasks fs1 with
    | (_, Err e) => (fs1, Err e)
    | (_, Ok tasks) =>
        match Marshal (tasks ++ [task]) with
        | Err e => (fs1, Err e)
        | Ok data => os_WriteFile data fs1
        end
    end.
Proof.
  unfold createTask, io_bind. pose proof (ensureFile_ok fs) as Ho.
  destruct (ensureFile fs) as [fs1 r]. simpl in *. subst r.
  pose proof (readTasks_fs fs1) as Hr.
  destruct (readTasks fs1) as [fs2 [tasks|e]]; simpl in Hr; subst fs2; [|done].
  unfold io_lift. by destruct (Marshal (tasks ++ [task])).
Qed.

(** The calls from the read on. *)
Lemma run_from_read task fs :
  Nat.iter 3 (step_pair task) (AtRead, fs)
  = match readTasks fs with
    | (_, Err e) => (Fatal e, fs)
    | (_, Ok tasks) =>
        match Marshal (tasks ++ [task]) with
        | Err e => (Fatal e, fs)
        | Ok data =>
            (pc_of (os_WriteFile data fs).2, (os_WriteFile data fs).1)
        end
    end.
Proof.
  unfold step_pair. simpl. destruct (readTasks fs) as [fs' [tasks|e]]; [|done].
  destruct (Marshal (tasks ++ [task])) as [data|e]; [|done]. simpl.
  rewrite os_WriteFile_calls. by destruct (os_Create fs) as [fs1 [[]|e]].
Qed.

Lemma iter_final task p fs n :
  final p → Nat.iter n (step_pair task) (p, fs) = (p, fs).
Proof.
  intros Hp. induction n as [|n IH]; [done|]. simpl. rewrite IH.
  unfold step_pair. by destruct p.
Qed.

Lemma pc_of_final r : final (pc_of r).
Proof. by destruct r. Qed.

(** A run left alone is [createTask]: five calls, made one after the
    other, end at the result of [createTask] with the file system it
    leaves, on every file system and for every task. *)
Theorem run_alone_createTask task fs :
  run_alone task fs = (pc_of (createTask task fs).2, (createTask task fs).1).
Proof.
  rewrite createTask_calls. cbv zeta. rewrite ensureFile_calls.
  unfold run_alone. rewrite Nat.iter_succ_r. unfold step_pair at 2.
  cbn [step1 fst snd]. destruct (os_IsNotExist (os_Stat fs).2).
  - rewrite Nat.iter_succ_r. unfold step_pair at 2. cbn [step1 fst snd].
    rewrite run_from_read. destruct (readTasks _) as [fs' [tasks|e]]; [|done].
    by destruct (Marshal (tasks ++ [task])).
  - rewrite Nat.iter_succ, run_from_read.
    destruct (readTasks fs) as [fs' [tasks|e]]; [|done].
    destruct (Marshal (tasks ++ [task])) as [data|e]; [|done].
    apply (iter_final task _ _ 1), pc_of_final.
Qed.

(** ** Termination *)

Lemma step1_rank task p fs : (rank (step1 task p fs).1 ≤ rank p - 1)%nat.
Proof.
  destruct p; simpl; repeat case_match; simpl; lia.
Qed.

Lemma rank_final p : rank p = 0%nat ↔ final p.
Proof. by destruct p. Qed.

Lemma sys_step_rank t1 t2 who s :
  (rank (s_pc1 (sys_step t1 t2 who s))
   ≤ rank (s_pc1 s) - (if decide (who = P1) then 1 else 0))%nat ∧
  (rank (s_pc2 (sys_step t1 t2 who s))
   ≤ rank (s_pc2 s) - (if decide (who = P2) then 1 else 0))%nat.
Proof.
  destruct who; simpl.
  - pose proof (step1_rank t1 (s_pc1 s) (s_fs s)).
    destruct (step1 t1 (s_pc1 s) (s_fs s)). simpl in *. lia.
  - pose proof (step1_rank t2 (s_pc2 s) (s_fs s)).
    destruct (step1 t2 (s_pc2 s) (s_fs s)). simpl in *. lia.
Qed.

Lemma exec_rank t1 t2 sched s :
  (rank (s_pc1 (exec t1 t2 sched s))
   ≤ rank (s_pc1 s) - length (filter (P1 =.) sched))%nat ∧
  (rank (s_pc2 (exec t1 t2 sched s))
   ≤ rank (s_pc2 s) - length (filter (P2 =.) sched))%nat.
Proof.
  revert s. induction sched as [|who sched IH]; intros s; simpl; [lia|].
  destruct (IH (sys_step t1 t2 who s)) as [IH1 IH2].
  destruct (sys_step_rank t1 t2 who s) as [H1 H2].
  unfold exec in *. rewrite !filter_cons.
  destruct who; repeat case_decide; simplify_eq/=; lia.
Qed.

(** Every run ends: in a schedule that lets each of the two runs move
    five times, both have returned or died, wherever they started. *)
Theorem exec_ends t1 t2 sched s :
  (5 ≤ length (filter (P1 =.) sched))%nat →
  (5 ≤ length (filter (P2 =.) sched))%nat →
  final (s_pc1 (exec t1 t2 sched s)) ∧ final (s_pc2 (exec t1 t2 sched s)).
Proof.
  intros H1 H2. destruct (exec_rank t1 t2 sched s) as [R1 R2].
  assert (rank (s_pc1 s) ≤ 5 ∧ rank (s_pc2 s) ≤ 5)%nat as [? ?]
    by (destruct (s_pc1 s), (s_pc2 s); simpl; lia).
  split; apply rank_final; lia.
Qed.

(** ** Schedules and steps *)

Lemma sys_step_final_1 t1 t2 s :
  final (s_pc1 s) → sys_step t1 t2 P1 s = s.
Proof. destruct s as [fs [] p2]; by simpl. Qed.

Lemma sys_step_final_2 t1 t2 s :
  final (s_pc2 s) → sys_step t1 t2 P2 s = s.
Proof. destruct s as [fs p1 []]; by simpl. Qed.

Lemma sys_step_steps t1 t2 who s : rtc (step t1 t2) s (sys_step t1 t2 who s).
Proof.
  destruct who.
  - destruct (decide (final (s_pc1 s))) as [Hf|Hf];
      [by rewrite sys_step_final_1|by apply rtc_once, step_P1].
  - destruct (decide (final (s_pc2 s))) as [Hf|Hf];
      [by rewrite sys_step_final_2|by apply rtc_once, step_P2].
Qed.

Lemma exec_steps t1 t2 sched s : rtc (step t1 t2) s (exec t1 t2 sched s).
Proof.
  revert s. induction sched as [|who sched IH]; intros s; [done|].
  etrans; [apply (sys_step_steps t1 t2 who)|apply IH].
Qed.

(** ** Opening and writing on a usable file system *)

Lemma os_Create_usable fs : usable fs → os_Create fs = (emptied fs, Ok ()).
Proof.
  intros [Hd Hrw]. unfold os_Create, emptied. rewrite Hd.
  destruct (fs_file fs) as [f|] eqn:Hf; [|done].
  by destruct (Hrw f eq_refl) as [_ ->].
Qed.

Lemma emptied_usable fs : usable fs → usable (emptied fs).
Proof.
  intros [Hd Hrw]. split; [done|]. intros f [= <-]. simpl. split; [|done].
  destruct (fs_file fs) as [f|]; [|done]. by destruct (Hrw f eq_refl).
Qed.

Lemma emptied_decodable fs : decodable (emptied fs).
Proof. by eexists. Qed.

Lemma os_Write_usable data fs : usable fs → usable (os_Write data fs).
Proof.
  intros [Hd Hrw]. unfold os_Write.
  destruct (fs_file fs) as [f|] eqn:Hf; [|by split; [|rewrite Hf]].
  split; [done|]. intros f' [= <-]. simpl. by apply (Hrw f).
Qed.

Lemma os_Write_file data fs :
  is_Some (fs_file fs) → is_Some (fs_file (os_Write data fs)).
Proof. unfold os_Write. by intros [f ->]. Qed.

(** A document written on an empty file is what the file stores. *)
Lemma os_Write_on_empty data ts fs :
  usable fs → content <$> fs_file fs = Some "" →
  Forall wf_ptr ts → Marshal ts = Ok data →
  stored (os_Write data fs) = Some (coerce <$> ts).
Proof.
  intros [Hd Hrw] Hc Hts Hm. unfold os_Write.
  destruct (fs_file fs) as [[c r w]|] eqn:Hf; [|done].
  injection Hc as ->. destruct (Hrw _ eq_refl) as [_ Hw]. simpl in Hw. subst w.
  rewrite Hd, overwrite_empty. by apply stored_written.
Qed.

Lemma stat_present fs :
  os_IsNotExist (os_Stat fs).2 = false → is_Some (fs_file fs).
Proof. destruct fs as [[] [f|]]; simpl; by eauto. Qed.

(** Reading a file that decodes, and encoding what was read with the new
    task. *)
Lemma step1_read task fs :
  usable fs → is_Some (fs_file fs) → decodable fs →
  wf_ptr task → encodable task →
  ∃ ts data, stored fs = Some ts ∧ Marshal (ts ++ [task]) = Ok data ∧
             Forall wf_ptr (ts ++ [task]) ∧
             step1 task AtRead fs = (AtOpen data, fs).
Proof.
  intros [Hd Hrw] [f Hf] [ts Hs] Hw He. destruct (Hrw f Hf) as [Hr _].
  pose proof (stored_ok _ _ Hs) as Hts.
  pose proof (proj2 (Marshal_ok _) (appended_encodable ts task Hts He)) as Hm.
  destruct (Marshal (ts ++ [task])) as [data|] eqn:Hdata; [|done].
  exists ts, data. split_and!; [done..|by apply appended_wf|].
  simpl. by rewrite (readTasks_stored fs f ts), Hdata.
Qed.

(** ** The invariant is kept *)

Lemma pc_ok_mono task p fs fs' :
  (is_Some (fs_file fs) → is_Some (fs_file fs')) →
  pc_ok task p fs → pc_ok task p fs'.
Proof. destruct p; simpl; tauto. Qed.

(** A call that leaves the file as it is. *)
Lemma race_inv_stay t1 t2 fs p p' p2 :
  race_inv t1 t2 (mkSys fs p p2) → ¬ opened p → ¬ opened p' →
  pc_ok t1 p' fs → race_inv t1 t2 (mkSys fs p' p2).
Proof.
  intros (Hu & _ & H2 & _ & Hw2 & Hd) Hp Hp' Hok.
  unfold race_inv in *. simpl in *. split_and!; try done.
  - by destruct p'.
  - destruct p2; simpl in *; try done. destruct Hw2; [done|by right].
  - destruct Hd as [?|[? _]]; [by left|done].
Qed.

(** A call that opens the file. *)
Lemma race_inv_emptied t1 t2 fs p' p2 :
  usable fs → pc_ok t2 p2 fs → pc_ok t1 p' (emptied fs) →
  race_inv t1 t2 (mkSys (emptied fs) p' p2).
Proof.
  intros Hu H2 H1. unfold race_inv. simpl. split_and!.
  - by apply emptied_usable.
  - done.
  - eapply pc_ok_mono; [|exact H2]. by eauto.
  - destruct p'; simpl; by auto.
  - destruct p2; simpl; by auto.
  - left. apply emptied_decodable.
Qed.

(** The call that writes. *)
Lemma race_inv_written t1 t2 fs data p2 :
  race_inv t1 t2 (mkSys fs (AtWrite data) p2) →
  race_inv t1 t2 (mkSys (os_Write data fs) Done p2).
Proof.
  intros (Hu & (Hf & ts & Hts & Hm) & H2 & Hw1 & Hw2 & Hd).
  unfold race_inv in *. simpl in *. split_and!.
  - by apply os_Write_usable.
  - by apply os_Write_file.
  - eapply pc_ok_mono; [|exact H2]. intros _. by apply os_Write_file.
  - done.
  - destruct p2; simpl; by auto.
  - destruct Hw1 as [Ho|Hc]; [by right|left].
    unfold decodable. by rewrite (os_Write_on_empty data ts).
Qed.

Lemma race_inv_P1 t1 t2 s :
  wf_ptr t1 → encodable t1 →
  race_inv t1 t2 s → race_inv t1 t2 (sys_step t1 t2 P1 s).
Proof.
  intros Hw He Hinv. destruct s as [fs p1 p2].
  pose proof Hinv as (Hu & H1 & H2 & _ & _ & Hd). simpl in *.
  destruct p1; simpl in *; try done.
  - destruct (os_IsNotExist _) eqn:Hst;
      (eapply race_inv_stay; [exact Hinv|by auto..|]);
      [done|by apply stat_present].
  - rewrite os_Create_usable by done. apply race_inv_emptied; [done..|].
    by eexists.
  - destruct Hd as [Hd|[[] _]].
    destruct (step1_read t1 fs Hu H1 Hd Hw He) as (ts & data & _ & Hm & Hts & Hst).
    simpl in Hst. rewrite Hst.
    eapply race_inv_stay; [exact Hinv|by auto..|].
    split; [done|]. by exists (ts ++ [t1]).
  - rewrite os_Create_usable by done. apply race_inv_emptied; [done..|].
    split; [by eexists|]. by destruct H1.
  - by apply race_inv_written.
Qed.

Lemma race_inv_swap t1 t2 s : race_inv t1 t2 s ↔ race_inv t2 t1 (swap s).
Proof. unfold race_inv, swap. simpl. tauto. Qed.

Lemma sys_step_swap t1 t2 s :
  sys_step t1 t2 P2 s = swap (sys_step t2 t1 P1 (swap s)).
Proof. destruct s as [fs p1 p2]. simpl. by destruct (step1 t2 p2 fs). Qed.

Lemma race_inv_step t1 t2 s s' :
  wf_ptr t1 → encodable t1 → wf_ptr t2 → encodable t2 →
  race_inv t1 t2 s → step t1 t2 s s' → race_inv t1 t2 s'.
Proof.
  intros Hw1 He1 Hw2 He2 Hinv Hstep.
  destruct Hstep as [s _|s _]; [by apply race_inv_P1|].
  rewrite sys_step_swap. apply race_inv_swap, race_inv_P1; [done..|].
  by apply race_inv_swap.
Qed.

Lemma race_inv_start t1 t2 fs :
  usable fs → decodable fs → race_inv t1 t2 (start fs).
Proof. intros Hu Hd. unfold race_inv. simpl. split_and!; by auto. Qed.

Lemma race_inv_steps t1 t2 fs s :
  usable fs → decodable fs →
  wf_ptr t1 → encodable t1 → wf_ptr t2 → encodable t2 →
  rtc (step t1 t2) (start fs) s → race_inv t1 t2 s.
Proof.
  intros Hu Hd Hw1 He1 Hw2 He2. revert s.
  apply rtc_ind_r; [by apply race_inv_start|].
  intros s s' _ Hstep IH. by eapply race_inv_step.
Qed.

(** C30. Two runs at once never fail.  On a usable file system whose file
    decodes, in every interleaving of the calls of two runs, neither run
    is ever fatal; and as long as one of them has not opened the file for
    writing, the file decodes. *)
Theorem race_never_fatal t1 t2 fs s :
  usable fs → decodable fs →
  wf_ptr t1 → encodable t1 → wf_ptr t2 → encodable t2 →
  rtc (step t1 t2) (start fs) s →
  (∀ e, s_pc1 s ≠ Fatal e) ∧ (∀ e, s_pc2 s ≠ Fatal e) ∧
  (¬ (opened (s_pc1 s) ∧ opened (s_pc2 s)) → decodable (s_fs s)).
Proof.
  intros Hu Hd Hw1 He1 Hw2 He2 Hs.
  destruct (race_inv_steps t1 t2 fs s Hu Hd Hw1 He1 Hw2 He2 Hs)
    as (_ & H1 & H2 & _ & _ & Hdec).
  split_and!.
  - intros e He. by rewrite He in H1.
  - intros e He. by rewrite He in H2.
  - intros Hn. by destruct Hdec.
Qed.

(** ** The calls on a usable file system *)

Lemma step1_stat task fs :
  usable fs →
  step1 task AtStat fs
  = (if fs_file fs is Some _ then AtRead else AtCreate, fs).
Proof. intros [Hd _]. destruct fs as [d [f|]]; simpl in *; by subst. Qed.

Lemma step1_create task fs :
  usable fs → step1 task AtCreate fs = (AtRead, emptied fs).
Proof. intros Hu. simpl. by rewrite os_Create_usable. Qed.

Lemma step1_open task data fs :
  usable fs → step1 task (AtOpen data) fs = (AtWrite data, emptied fs).
Proof. intros Hu. simpl. by rewrite os_Create_usable. Qed.

Lemma written_usable data fs : usable fs → usable (written data fs).
Proof. intros Hu. by apply os_Write_usable, emptied_usable. Qed.

Lemma written_stored data ts fs :
  usable fs → Forall wf_ptr ts → Marshal ts = Ok data →
  stored (written data fs) = Some (coerce <$> ts).
Proof.
  intros Hu Hts Hm.
  by apply os_Write_on_empty; [apply emptied_usable| | |].
Qed.

Lemma written_written d1 d2 fs : written d2 (written d1 fs) = written d2 fs.
Proof. unfold written, os_Write, emptied. simpl. by rewrite !overwrite_empty. Qed.

Lemma sys_step_1 t1 t2 fs p1 p2 :
  sys_step t1 t2 P1 (mkSys fs p1 p2)
  = mkSys (step1 t1 p1 fs).2 (step1 t1 p1 fs).1 p2.
Proof. simpl. by destruct (step1 t1 p1 fs). Qed.

Lemma sys_step_2 t1 t2 fs p1 p2 :
  sys_step t1 t2 P2 (mkSys fs p1 p2)
  = mkSys (step1 t2 p2 fs).2 p1 (step1 t2 p2 fs).1.
Proof. simpl. by destruct (step1 t2 p2 fs). Qed.

(** One call of the system on a usable file system, evaluated. *)
Ltac call :=
  first [rewrite sys_step_1 | rewrite sys_step_2];
  first [rewrite step1_stat by done
        | rewrite step1_create by done
        | rewrite step1_open by eauto using emptied_usable, written_usable
        | idtac];
  cbn [fst snd].

(** ** Lost updates *)

(** C5. A task can be lost.  When both runs read the file before either
    writes it, both return without error and the file holds the stored
    tasks and the task of the run that wrote last: the other task is
    gone. *)
Theorem lost_update t1 t2 fs f ts :
  usable fs → fs_file fs = Some f → stored fs = Some ts →
  wf_ptr t1 → encodable t1 → wf_ptr t2 → encodable t2 →
  let s := exec t1 t2 [P1; P1; P2; P2; P1; P1; P2; P2] (start fs) in
  s_pc1 s = Done ∧ s_pc2 s = Done ∧
  stored (s_fs s) = Some (ts ++ [coerce t2]).
Proof.
  intros Hu Hf Hs Hw1 He1 Hw2 He2.
  assert (is_Some (fs_file fs)) as Hsome by eauto.
  assert (decodable fs) as Hd by (by exists ts).
  destruct (step1_read t1 fs Hu Hsome Hd Hw1 He1) as (? & d1 & _ & _ & _ & Hr1).
  destruct (step1_read t2 fs Hu Hsome Hd Hw2 He2)
    as (ts' & d2 & Hs' & Hm2 & Hts2 & Hr2).
  assert (ts' = ts) as -> by congruence.
  cbv zeta. unfold exec, start. cbn [foldl].
  call. rewrite Hf. call. rewrite Hr1. cbn [fst snd].
  call. rewrite Hf. call. rewrite Hr2. cbn [fst snd].
  call. call. cbn [step1 fst snd]. call. call. cbn [step1 fst snd s_pc1 s_pc2 s_fs].
  split_and!; [done..|]. fold (written d1 fs). fold (written d2 (written d1 fs)).
  rewrite written_written, (written_stored d2 (ts ++ [t2])) by done.
  by rewrite appended_coerce by (by eapply stored_ok).
Qed.

(** ** Runs one after the other *)

Lemma exec_app t1 t2 l1 l2 s :
  exec t1 t2 (l1 ++ l2) s = exec t1 t2 l2 (exec t1 t2 l1 s).
Proof. apply foldl_app. Qed.

Lemma run_alone_calls task fs :
  run_alone task fs = Nat.iter 5 (step_pair task) (AtStat, fs).
Proof. reflexivity. Qed.

Lemma exec_P1 t1 t2 n fs p1 p2 :
  exec t1 t2 (replicate n P1) (mkSys fs p1 p2)
  = mkSys (Nat.iter n (step_pair t1) (p1, fs)).2
          (Nat.iter n (step_pair t1) (p1, fs)).1 p2.
Proof.
  revert fs p1. induction n as [|n IH]; intros fs p1; [done|].
  rewrite Nat.iter_succ_r. simpl replicate. unfold exec in *. cbn [foldl].
  rewrite sys_step_1, IH.
  by rewrite (surjective_pairing (step_pair t1 (p1, fs))).
Qed.

Lemma exec_P2 t1 t2 n fs p1 p2 :
  exec t1 t2 (replicate n P2) (mkSys fs p1 p2)
  = mkSys (Nat.iter n (step_pair t2) (p2, fs)).2 p1
          (Nat.iter n (step_pair t2) (p2, fs)).1.
Proof.
  revert fs p2. induction n as [|n IH]; intros fs p2; [done|].
  rewrite Nat.iter_succ_r. simpl replicate. unfold exec in *. cbn [foldl].
  rewrite sys_step_2, IH.
  by rewrite (surjective_pairing (step_pair t2 (p2, fs))).
Qed.

(** Runs that do not overlap are calls of [createTask] one after the
    other: nothing is lost when the first run has returned before the
    second starts. *)
Theorem serial_runs t1 t2 fs :
  exec t1 t2 (replicate 5 P1 ++ replicate 5 P2) (start fs)
  = mkSys (createTask t2 (createTask t1 fs).1).1
          (pc_of (createTask t1 fs).2)
          (pc_of (createTask t2 (createTask t1 fs).1).2).
Proof.
  rewrite exec_app. unfold start.
  rewrite exec_P1, <- run_alone_calls, run_alone_createTask.
  rewrite exec_P2, <- run_alone_calls, run_alone_createTask.
  reflexivity.
Qed.

(** ** A run that stops half way *)

(** Between the two calls of [os.WriteFile] the file is empty: a run
    that is stopped there has lost every task that was stored. *)
Theorem stopped_run_loses_all task fs ts :
  usable fs → stored fs = Some ts → wf_ptr task → encodable task →
  ∃ n data fs',
    Nat.iter n (step_pair task) (AtStat, fs) = (AtWrite data, fs') ∧
    stored fs' = Some [] ∧
    Marshal (ts ++ [task]) = Ok data.
Proof.
  intros Hu Hs Hw He.
  assert (∃ fs1 k, Nat.iter k (step_pair task) (AtStat, fs) = (AtRead, fs1) ∧
                   usable fs1 ∧ is_Some (fs_file fs1) ∧ stored fs1 = Some ts)
    as (fs1 & k & Hk & Hu1 & Hf1 & Hs1).
  { destruct (fs_file fs) as [f|] eqn:Hf.
    - exists fs, 1%nat. simpl. unfold step_pair. cbn [fst snd].
      rewrite step1_stat, Hf by done.
      split_and!; [done..|by eexists|done].
    - exists (emptied fs), 2%nat. simpl. unfold step_pair at 2. cbn [fst snd].
      rewrite step1_stat, Hf by done. unfold step_pair. cbn [fst snd].
      rewrite step1_create by done.
      split_and!; [done|by apply emptied_usable|by eexists|].
      revert Hs. unfold stored. by rewrite Hf. }
  assert (decodable fs1) as Hd1 by (by exists ts).
  destruct (step1_read task fs1 Hu1 Hf1 Hd1 Hw He)
    as (ts' & data & Hs' & Hm & _ & Hr).
  assert (ts' = ts) as -> by congruence.
  exists (2 + k)%nat, data, (emptied fs1). rewrite Nat.iter_add, Hk. simpl.
  unfold step_pair at 2. cbn [fst snd]. rewrite Hr. unfold step_pair.
  cbn [fst snd]. by rewrite step1_open.
Qed.

End race_lemmas.

(** ** Witnesses and scenarios *)

Lemma race_never_fatal_witness :
  let s := exec (Some long_task) (Some short_task) torn_schedule (start fs_none) in
  (∀ e, s_pc1 s ≠ Fatal e) ∧ (∀ e, s_pc2 s ≠ Fatal e) ∧
  (¬ (opened (s_pc1 s) ∧ opened (s_pc2 s)) → decodable (s_fs s)).
Proof.
  apply (race_never_fatal (Some long_task) (Some short_task) fs_none);
    [apply usable_none|by eexists|by_compute..|apply exec_steps].
Defined.

Lemma exec_ends_witness :
  let s := exec (Some long_task) (Some short_task) torn_schedule
             (exec (Some long_task) (Some short_task) [P2; P2] (start fs_none)) in
  final (s_pc1 (exec (Some long_task) (Some short_task)
                  (replicate 5 P1 ++ replicate 5 P2) s)) ∧
  final (s_pc2 (exec (Some long_task) (Some short_task)
                  (replicate 5 P1 ++ replicate 5 P2) s)).
Proof. apply exec_ends; by_compute. Defined.

Lemma lost_update_witness :
  let s := exec (Some long_task) (Some short_task)
             [P1; P1; P2; P2; P1; P1; P2; P2] (start fs_sample) in
  s_pc1 s = Done ∧ s_pc2 s = Done ∧
  stored (s_fs s) = Some (sample_tasks ++ [coerce (Some short_task)]).
Proof.
  apply (lost_update (Some long_task) (Some short_task) fs_sample
           (mkFile sample_data true true) sample_tasks);
    [apply usable_file|done|by vm_compute|by_compute..].
Defined.

Lemma stopped_run_loses_all_witness :
  ∃ n data fs',
    Nat.iter n (step_pair (Some short_task)) (AtStat, fs_sample)
    = (AtWrite data, fs') ∧
    stored fs' = Some [] ∧
    Marshal (sample_tasks ++ [Some short_task]) = Ok data.
Proof.
  apply (stopped_run_loses_all (Some short_task) fs_sample sample_tasks);
    [apply usable_file|by vm_compute|by_compute..].
Defined.

(** A torn file.  Two runs start on a directory without the file and
    both read before either writes; the run with the longer document
    writes first and the other writes over its start.  Both return
    without error, and the file they leave holds no document: no task is
    stored, and every later call of [createTask] is fatal. *)
Example torn_write :
  let s := exec (Some long_task) (Some short_task) torn_schedule (start fs_none) in
  s_pc1 s = Done ∧ s_pc2 s = Done ∧
  stored (s_fs s) = None ∧
  (createTask (Some short_task) (s_fs s)).2 = Err ErrDecode.
Proof. by vm_compute. Qed.

(** The file is created late.  A run that has found no file creates
    it after another run has written it: [os.Create] truncates, the task
    of the other run is gone, and both runs return without error. *)
Example late_create_loses :
  let s := exec (Some long_task) (Some short_task) late_create_schedule
             (start fs_none) in
  s_pc1 s = Done ∧ s_pc2 s = Done ∧
  stored (s_fs s) = Some [Some short_task].
Proof. by vm_compute. Qed.
