(* ===== verification/Program.v ===== *)
(** * Program: the event loop and [main]

    Translated from [src/main.go]: the function [main], which runs the
    form in a Bubble Tea program and exits with status 1 when the run
    returns an error.  Its call of [createTask] is commented out in the
    source, and so [main] here has none.

    [Program_Run] is the event loop of the library, from its
    documentation: the model is shown, and then every message is handed
    to [Update] and the new model is shown.  A command that asks to quit
    does not stop the loop by itself: it makes the library send a quit
    message, and the messages that arrive before it are still handled.
    The events of a run are therefore the messages delivered and the
    arrival of the quit message ([event]); a run is given by the list of
    its events so far, and is still [Running] when the list ends before
    the quit message arrives.  A panic in [View] is caught by the library
    and ends the run with an error.

    The run of the code is compared with the run of the state machine of
    [FormSpec] over the same messages ([a_run]).  Where the machine
    commits, the specification has a task built and stored; [main] ends
    the run and stores nothing, since nothing in it touches the file. *)

From S2P Require Import Prelude Tea TextInput Form FormInv FormNav FormSpec.
From S2P Require Import View Store JsonTask StoreProps.

Local Open Scope Z_scope.

(** ** The event loop *)

Inductive event : Type :=
  | EvMsg (msg : Msg)
  | EvQuit.

Record running : Type := mkRunning {
  cur : model;             (* the model *)
  quitting : bool;         (* a command has asked to quit *)
  frames : list doc;       (* what has been shown *)
}.

Inductive Run_error : Type :=
  | ErrNoTerminal
  | ErrProgramKilled.

#[export] Instance Run_error_eq_dec : EqDecision Run_error.
Proof. solve_decision. Defined.

Inductive outcome : Type :=
  | Running (r : running)
  | Returned (res : result Run_error model) (shown : list doc).

(** One event. *)
Definition deliver (r : running) (e : event) : outcome :=
  match e with
  | EvQuit =>
      if quitting r then Returned (Ok (cur r)) (frames r) else Running r
  | EvMsg msg =>
      let '(m, cmd) := Update (cur r) msg in
      match View m with
      | Some d =>
          Running (mkRunning m (quitting r || cmd_quits cmd) (frames r ++ [d]))
      | None => Returned (Err ErrProgramKilled) (frames r)
      end
  end.

Fixpoint eventLoop (r : running) (es : list event) : outcome :=
  match es with
  | [] => Running r
  | e :: es =>
      match deliver r e with
      | Running r' => eventLoop r' es
      | o => o
      end
  end.

(** [tea.NewProgram(m).Run()] on a terminal that can be opened or not. *)
Definition Program_Run (tty : bool) (m : model) (es : list event) : outcome :=
  if negb tty then Returned (Err ErrNoTerminal) []
  else
    match View m with
    | Some d => eventLoop (mkRunning m (cmd_quits (Init m)) [d]) es
    | None => Returned (Err ErrProgramKilled) []
    end.

(** ** [main] *)

Record Process : Type := mkProcess {
  p_fs : FS;
  p_tty : bool;
  p_stdout : list string;
}.

Inductive status : Type :=
  | StillRunning
  | Exited (code : Z).

#[export] Instance status_eq_dec : EqDecision status.
Proof. solve_decision. Defined.

Definition Run_error_Error (e : Run_error) : string :=
  match e with
  | ErrNoTerminal => "could not open a new TTY"
  | ErrProgramKilled => "program was killed"
  end.

Definition Printf (s : string) (p : Process) : Process :=
  mkProcess (p_fs p) (p_tty p) (p_stdout p ++ [s]).

(** [main()]. *)
Definition main (es : list event) (p : Process) : Process * status :=
  match Program_Run (p_tty p) initialModel es with
  | Returned (Err err) _ =>
      (Printf ("could not start program: " +:+ Run_error_Error err +:+ newline) p,
       Exited 1)
  | Returned (Ok _) _ => (p, Exited 0)
  | Running _ => (p, StillRunning)
  end.

(** ** The machine over a run *)

(** The machine run over the messages, up to the first that leaves
    [Editing]. *)
Fixpoint a_run (f : AForm) (msgs : list Msg) : Phase :=
  match msgs with
  | [] => Editing f
  | msg :: msgs =>
      match a_step f msg with
      | Editing f' => a_run f' msgs
      | p => p
      end
  end.

(** ** Runs *)

(** The run in which the quit message arrives as soon as it is sent. *)
Definition prompt (msgs : list Msg) : list event :=
  msgs ≫= λ msg, [EvMsg msg; EvQuit].

(** No enter on Cancel along the run of the messages. *)
Fixpoint cancel_free (m : model) (msgs : list Msg) : Prop :=
  match msgs with
  | [] => True
  | msg :: msgs => ¬ activates_cancel m msg ∧ cancel_free (Update m msg).1 msgs
  end.

(** What is seen of an outcome: the form while the program runs. *)
Definition showing (o : outcome) : option AForm :=
  match o with
  | Running r => if quitting r then None else Some (abs (cur r))
  | Returned _ _ => None
  end.

(** The model an outcome holds. *)
Definition model_of (o : outcome) : option model :=
  match o with
  | Running r => Some (cur r)
  | Returned (Ok m) _ => Some m
  | Returned (Err _) _ => None
  end.

(** The keys that can end a run. *)
Definition may_quit (e : event) : Prop :=
  ∃ k, e = EvMsg (KeyMsg k) ∧ Key_String k ∈ ["ctrl+c"; "esc"; "enter"].

(** A sample: type a title, step back to Submit, press enter. *)
Definition fix_printer : list Msg :=
  [typed [70; 105; 120; 32; 112; 114; 105; 110; 116; 101; 114];
   key KeyShiftTab; key KeyEnter].

Definition a_terminal : Process := mkProcess fs_none true [].

(** What the program shows first. *)
Definition first_frame : doc := default [] (View initialModel).

(** ** The invariant along a run *)

(** An outcome is sound when it is no error and its model is
    well-formed. *)
Definition sound (o : outcome) : Prop := from_option wf_model False (model_of o).

Lemma deliver_sound r e : wf_model (cur r) → sound (deliver r e).
Proof.
  intros Hr. destruct e as [msg|]; simpl; [|by case_match].
  pose proof (wf_Update _ msg Hr) as Hm.
  destruct (Update (cur r) msg) as [m cmd]. simpl in Hm.
  by destruct (View_wf m Hm) as [d ->].
Qed.

Lemma eventLoop_sound es r : wf_model (cur r) → sound (eventLoop r es).
Proof.
  revert r. induction es as [|e es IH]; intros r Hr; [done|]. simpl.
  pose proof (deliver_sound r e Hr) as Hs.
  destruct (deliver r e) as [r'|[m|err] fr]; [by apply IH|done..].
Qed.

Lemma Program_Run_sound es : sound (Program_Run true initialModel es).
Proof.
  unfold Program_Run. simpl negb. cbn match.
  destruct (View_wf initialModel initialModel_wf) as [d ->].
  by apply eventLoop_sound, initialModel_wf.
Qed.

Lemma eventLoop_app es1 es2 r r' :
  eventLoop r es1 = Running r' →
  eventLoop r (es1 ++ es2) = eventLoop r' es2.
Proof.
  revert r. induction es1 as [|e es1 IH]; intros r; simpl; [by intros [= ->]|].
  destruct (deliver r e); [apply IH|done].
Qed.

Lemma Program_Run_app es1 es2 r :
  Program_Run true initialModel es1 = Running r →
  Program_Run true initialModel (es1 ++ es2) = eventLoop r es2.
Proof.
  unfold Program_Run. simpl negb. cbn match.
  destruct (View initialModel); [apply eventLoop_app|done].
Qed.

(** ** Steps of the loop *)

Lemma deliver_msg r msg :
  wf_model (cur r) →
  ∃ d, deliver r (EvMsg msg)
       = Running (mkRunning (Update (cur r) msg).1
                    (quitting r || cmd_quits (Update (cur r) msg).2)
                    (frames r ++ [d])).
Proof.
  intros Hr. pose proof (wf_Update _ msg Hr) as Hm. simpl.
  destruct (Update (cur r) msg) as [m cmd]. simpl in *.
  destruct (View_wf m Hm) as [d ->]. by exists d.
Qed.

Lemma deliver_no_quit r e :
  wf_model (cur r) → quitting r = false → ¬ may_quit e →
  ∃ r', deliver r e = Running r' ∧ wf_model (cur r') ∧ quitting r' = false.
Proof.
  intros Hr Hq He. destruct e as [msg|]; [|exists r; simpl; by rewrite Hq].
  destruct (deliver_msg r msg Hr) as [d ->]. eexists. split; [done|]. simpl.
  split; [by apply wf_Update|]. rewrite Hq. simpl.
  apply not_true_is_false. intros (k & -> & Hk)%cmd_quits_Update.
  apply He. exists k. split; [done|]. rewrite !elem_of_cons. tauto.
Qed.

(** ** The run never fails *)

(** C11. On a terminal the run of the form never returns an error: [View]
    does not panic in any model the loop shows, whatever the events and
    their order; and the model the run holds is well-formed. *)
Theorem Program_Run_never_fails es :
  from_option wf_model False (model_of (Program_Run true initialModel es)).
Proof. apply Program_Run_sound. Qed.

(** C25. [main] exits with status 1 exactly when the terminal cannot be
    opened. *)
Theorem main_exit_code es p : (main es p).2 = Exited 1 ↔ p_tty p = false.
Proof.
  unfold main. destruct (p_tty p) eqn:Ht; [|done].
  pose proof (Program_Run_sound es) as Hs.
  destruct (Program_Run true initialModel es) as [r|[m|err] fr]; by split.
Qed.

(** C40. No run of [main] changes the file of tasks: whatever is typed and
    however the run ends, the file system is the one the program
    started with. *)
Theorem main_keeps_fs es p : p_fs (main es p).1 = p_fs p.
Proof. unfold main. by repeat case_match. Qed.

(** ** When a run ends *)

Lemma eventLoop_no_quit es r :
  wf_model (cur r) → quitting r = false → Forall (λ e, ¬ may_quit e) es →
  ∃ r', eventLoop r es = Running r' ∧ quitting r' = false.
Proof.
  revert r. induction es as [|e es IH]; intros r Hr Hq Hes; [by exists r|].
  apply Forall_cons in Hes as [He Hes]. simpl.
  destruct (deliver_no_quit r e Hr Hq He) as (r' & -> & Hr' & Hq').
  by apply IH.
Qed.

(** C36. A run in which neither ctrl+c, esc nor enter is pressed does not
    end: the program is still running after it and no quit is under
    way. *)
Theorem Program_Run_keeps_running es :
  Forall (λ e, ¬ may_quit e) es →
  ∃ r, Program_Run true initialModel es = Running r ∧ quitting r = false.
Proof.
  intros Hes. unfold Program_Run. simpl negb. cbn match.
  destruct (View_wf initialModel initialModel_wf) as [d ->].
  by apply eventLoop_no_quit; [apply initialModel_wf| |].
Qed.

Lemma Program_Run_keeps_running_witness :
  ∃ r, Program_Run true initialModel [EvMsg (key KeyTab); EvQuit; EvMsg OtherMsg]
       = Running r ∧ quitting r = false.
Proof.
  apply (Program_Run_keeps_running [EvMsg (key KeyTab); EvQuit; EvMsg OtherMsg]).
  repeat constructor; intros (k & [= <-] & Hk); revert Hk; by_compute.
Defined.

(** C22. A running program can always be ended: esc followed by the arrival
    of the quit message makes the run return, without error and with the
    model it had. *)
Theorem Program_Run_esc_ends es r :
  Program_Run true initialModel es = Running r →
  ∃ shown, Program_Run true initialModel (es ++ [EvMsg (key KeyEsc); EvQuit])
           = Returned (Ok (cur r)) shown.
Proof.
  intros Hr. rewrite (Program_Run_app _ _ _ Hr).
  pose proof (Program_Run_sound es) as Hs. rewrite Hr in Hs.
  destruct (deliver_msg r (key KeyEsc) Hs) as [d Hd].
  cbn [eventLoop]. rewrite Hd. unfold key. rewrite Update_quit_key by by_compute.
  simpl. rewrite orb_true_r. by eexists.
Qed.

Lemma Program_Run_esc_ends_witness :
  ∃ shown, Program_Run true initialModel ([] ++ [EvMsg (key KeyEsc); EvQuit])
           = Returned (Ok initialModel) shown.
Proof.
  by apply (Program_Run_esc_ends [] (mkRunning initialModel false [first_frame])).
Defined.

(** ** The run and the machine *)

Lemma prompt_cons msg msgs :
  prompt (msg :: msgs) = EvMsg msg :: EvQuit :: prompt msgs.
Proof. done. Qed.

Lemma eventLoop_refines msgs r :
  wf_model (cur r) → quitting r = false → cancel_free (cur r) msgs →
  showing (eventLoop r (prompt msgs)) = visible (a_run (abs (cur r)) msgs).
Proof.
  revert r. induction msgs as [|msg msgs IH]; intros r Hr Hq Hcf;
    [simpl; by rewrite Hq|].
  destruct Hcf as [Hc Hms]. pose proof (refines_step _ msg Hr Hc) as Hst.
  destruct (deliver_msg r msg Hr) as [d Hd].
  rewrite prompt_cons. cbn [eventLoop a_run]. rewrite Hd, Hq.
  unfold observed in Hst. cbn [deliver quitting cur orb].
  destruct (cmd_quits (Update (cur r) msg).2).
  - by destruct (a_step (abs (cur r)) msg).
  - destruct (a_step (abs (cur r)) msg) as [f| |]; [|done..].
    injection Hst as <-.
    by apply (IH (mkRunning _ false _)); [apply wf_Update| |].
Qed.

(** C12. The run of the code and the run of the machine show the same
    form, message for message, and end together, on every sequence of
    messages that has no enter on Cancel. *)
Theorem Program_Run_refines msgs :
  cancel_free initialModel msgs →
  showing (Program_Run true initialModel (prompt msgs))
  = visible (a_run (abs initialModel) msgs).
Proof.
  intros Hc. unfold Program_Run. simpl negb. cbn match.
  destruct (View_wf initialModel initialModel_wf) as [d ->].
  by apply (eventLoop_refines msgs (mkRunning initialModel false [d]));
    [apply initialModel_wf| |].
Qed.

Lemma Program_Run_refines_witness :
  showing (Program_Run true initialModel (prompt fix_printer))
  = visible (a_run (abs initialModel) fix_printer).
Proof. apply (Program_Run_refines fix_printer). by_compute. Defined.

(** ** A run of the sample *)

(** The title is typed, the focus moved back to Submit, enter pressed,
    on a directory without the file: [main] exits with status 0 and no
    task is stored. *)
Example fix_printer_run :
  main (prompt fix_printer) a_terminal = (a_terminal, Exited 0) ∧
  stored (p_fs (main (prompt fix_printer) a_terminal).1) = Some [].
Proof. split; by vm_compute. Qed.
